(** * PDF image extractor: a shallow embedding of [main.py]

    The program is one linear pipeline around three external libraries
    (PyMuPDF, Pillow, the cloud-storage client).  The embedding keeps the
    control flow of the two Python functions and turns every call into a
    library into an explicit step whose answer is supplied by the
    environment:

    - Python floats are binary64 numbers, modelled by the kernel's primitive
      floats, with the very operations the source applies to them;
    - Python strings are [string]s, integers are [Z] or [nat];
    - exceptions, the local variables of [extract_images_from_pdf], the
      output bucket and the sequence of library calls are threaded through a
      state-and-exception monad [M];
    - the set [processed_xrefs] is a [gset Z], the event payload a
      [gmap string string]. *)

From Stdlib Require Import ZArith Floats String Ascii List Lia.
From stdpp Require Import base decidable option numbers list gmap strings pretty.

Set Warnings "-inexact-float".
Local Open Scope string_scope.

(** ** Exceptions and outcomes of library calls *)

Module Py.

(** The exception classes the handlers of [main.py] tell apart.
    [Interrupt] stands for the [BaseException]s that are not [Exception]s
    (interpreter exit, keyboard interrupt): no [except Exception] clause
    catches them, a [finally] block still runs. *)
Inductive exn : Type :=
| RuntimeError
| NotFound
| KeyError (key : string)
| OtherException
| Interrupt.

(** [isinstance(e, Exception)] *)
Definition is_Exception (e : exn) : bool :=
  match e with Interrupt => false | _ => true end.

(** [isinstance(e, RuntimeError)] *)
Definition is_RuntimeError (e : exn) : bool :=
  match e with RuntimeError => true | _ => false end.

(** [isinstance(e, NotFound)] *)
Definition is_NotFound (e : exn) : bool :=
  match e with NotFound => true | _ => false end.

(** [isinstance(e, KeyError)] *)
Definition is_KeyError (e : exn) : bool :=
  match e with KeyError _ => true | _ => false end.

(** What a call gives back: a value, or a raised exception. *)
Inductive result (A : Type) : Type :=
| Return (a : A)
| Raise (e : exn).
Global Arguments Return {A} a.
Global Arguments Raise {A} e.

Definition returned {A} (r : result A) : bool :=
  match r with Return _ => true | Raise _ => false end.

End Py.
Export Py.

(** ** Strings: the [str] and [os.path] operations the program uses *)

Module Str.

Definition is_upper (c : ascii) : bool :=
  (Nat.leb 65 (nat_of_ascii c)) && (Nat.leb (nat_of_ascii c) 90).

(** [str.lower] on one character (ASCII letters; other characters are kept). *)
Definition lower_char (c : ascii) : ascii :=
  if is_upper c then ascii_of_nat (nat_of_ascii c + 32) else c.

(** [s.lower()] *)
Fixpoint lower (s : string) : string :=
  match s with
  | EmptyString => EmptyString
  | String c r => String (lower_char c) (lower r)
  end.

(** [s.startswith(p)] *)
Fixpoint startswith (s p : string) : bool :=
  match p, s with
  | EmptyString, _ => true
  | String _ _, EmptyString => false
  | String a p', String b s' => Ascii.eqb a b && startswith s' p'
  end.

(** [s.endswith(p)] *)
Definition endswith (s p : string) : bool :=
  startswith (String.rev s) (String.rev p).

(** [s.lstrip(c)] for a one-character set. *)
Fixpoint lstrip (c : ascii) (s : string) : string :=
  match s with
  | EmptyString => EmptyString
  | String a r => if Ascii.eqb a c then lstrip c r else s
  end.

(** [s.rstrip(c)] *)
Definition rstrip (c : ascii) (s : string) : string :=
  String.rev (lstrip c (String.rev s)).

(** [s.strip(c)] *)
Definition strip (c : ascii) (s : string) : string :=
  rstrip c (lstrip c s).

(** [s.rfind(c)]: index of the last occurrence of [c], [-1] when there is
    none.  [i] is the index of the head of [s], [found] the answer so far. *)
Fixpoint rfind_from (c : ascii) (s : string) (i found : Z) : Z :=
  match s with
  | EmptyString => found
  | String a r => rfind_from c r (i + 1) (if Ascii.eqb a c then i else found)
  end.

Definition rfind (c : ascii) (s : string) : Z := rfind_from c s 0 (-1).

(** [s[i:]] and [s[:i]] for [0 <= i]. *)
Definition slice_from (i : Z) (s : string) : string :=
  String.substring (Z.to_nat i) (String.length s - Z.to_nat i) s.

Definition slice_to (i : Z) (s : string) : string :=
  String.substring 0 (Z.to_nat i) s.

(** [posixpath.basename]: [i = p.rfind('/') + 1; return p[i:]]. *)
Definition basename (p : string) : string :=
  slice_from (rfind "/" p + 1) p.

(** The character of [p] at index [i], if any. *)
Definition char_at (i : Z) (p : string) : option ascii :=
  if (i <? 0)%Z then None else String.get (Z.to_nat i) p.

(** The [while] loop of [genericpath._splitext] that skips leading dots:
    it answers [true] as soon as a character other than the dot stands
    between [filenameIndex] and [dotIndex]. *)
Fixpoint has_name_before_dot (fuel : nat) (p : string) (filenameIndex dotIndex : Z)
  : bool :=
  match fuel with
  | O => false
  | S fuel' =>
    if (filenameIndex <? dotIndex)%Z then
      match char_at filenameIndex p with
      | Some c =>
        if negb (Ascii.eqb c ".") then true
        else has_name_before_dot fuel' p (filenameIndex + 1) dotIndex
      | None => true
      end
    else false
  end.

(** [os.path.splitext(p)[0]] (posix): the part before the last dot of the
    last path component, leading dots of that component not counting. *)
Definition splitext_root (p : string) : string :=
  let sepIndex := rfind "/" p in
  let dotIndex := rfind "." p in
  if (sepIndex <? dotIndex)%Z
     && has_name_before_dot (S (String.length p)) p (sepIndex + 1) dotIndex
  then slice_to dotIndex p
  else p.

(** [str(n)] for a non-negative integer, as an f-string interpolates it. *)
Definition of_nat (n : nat) : string := pretty n.

End Str.

(** ** Page geometry and the header/footer test *)

Module Geometry.

Local Open Scope float_scope.

(** A placement rectangle ([fitz.Rect]); [y0] is its top edge, [y1] its
    bottom edge, in page coordinates. *)
Record Rect : Type := mkRect { x0 : float; y0 : float; x1 : float; y1 : float }.

(** Lines 36-37: a ratio outside [0, 1) is replaced by 0.10. *)
Definition validate_ratio (ratio : float) : float :=
  if negb ((0.0 <=? ratio) && (ratio <? 1.0)) then 0.10 else ratio.

(** Line 57 *)
Definition header_limit (page_height header_ratio : float) : float :=
  page_height * header_ratio.

(** Line 58 *)
Definition footer_limit (page_height footer_ratio : float) : float :=
  page_height * (1.0 - footer_ratio).

(** The condition negated on line 88:
    [rect.y1 <= header_limit or rect.y0 >= footer_limit]. *)
Definition in_skip_zone (header_limit footer_limit : float) (rect : Rect) : bool :=
  (y1 rect <=? header_limit) || (footer_limit <=? y0 rect).

(** Lines 86-90: the loop over the rectangles, entered with the flag set to
    [True]; the first rectangle outside both zones clears it and breaks. *)
Fixpoint scan_rects (header_limit footer_limit : float) (image_rects : list Rect)
  : bool :=
  match image_rects with
  | [] => true
  | rect :: rest =>
    if negb (in_skip_zone header_limit footer_limit rect) then false
    else scan_rects header_limit footer_limit rest
  end.

(** [bool(image_rects)] *)
Definition nonempty {A} (l : list A) : bool :=
  match l with [] => false | _ => true end.

(** Lines 83-90: the value of [is_potentially_header_footer]. *)
Definition is_potentially_header_footer
    (header_limit footer_limit : float) (image_rects : list Rect) : bool :=
  if nonempty image_rects then scan_rects header_limit footer_limit image_rects
  else false.

(** Line 92: the reference is skipped. *)
Definition skipped (header_limit footer_limit : float) (image_rects : list Rect)
  : bool :=
  is_potentially_header_footer header_limit footer_limit image_rects
  && nonempty image_rects.

End Geometry.
Export Geometry.

(** ** Images as Pillow builds them *)

Module Pil.

(** An image value is the term of Pillow operations that produced it. *)
Inductive image : Type :=
| Opened (data : list Byte.byte) (mode : string) (size : N * N)
    (* Image.open(io.BytesIO(data)) *)
| New (mode : string) (size : N * N) (color : N * N * N)
    (* Image.new(mode, size, color) *)
| LastBand (im : image)
    (* im.split()[-1] *)
| Pasted (background source mask : image)
    (* background.paste(source, mask=mask) *)
| Converted (im : image) (mode : string).
    (* im.convert(mode) *)

(** [im.mode] *)
Fixpoint mode (im : image) : string :=
  match im with
  | Opened _ m _ => m
  | New m _ _ => m
  | LastBand _ => "L"
  | Pasted background _ _ => mode background
  | Converted _ m => m
  end.

(** [im.size] *)
Fixpoint size (im : image) : N * N :=
  match im with
  | Opened _ _ sz => sz
  | New _ sz _ => sz
  | LastBand im' => size im'
  | Pasted background _ _ => size background
  | Converted im' _ => size im'
  end.

(** [m in modes] *)
Definition mode_in (m : string) (modes : list string) : bool :=
  existsb (String.eqb m) modes.

(** Pillow's modes with an alpha band: "LA" and "RGBA", their premultiplied
    variants "La" and "RGBa", and "PA" (palette with alpha). *)
Definition has_alpha (m : string) : bool :=
  mode_in m ["LA"; "La"; "PA"; "RGBA"; "RGBa"].

(** Pillow's palette modes. *)
Definition has_palette (m : string) : bool :=
  mode_in m ["P"; "PA"].

Definition white : N * N * N := (255, 255, 255)%N.

(** Lines 117-125: the conversion applied before the image is saved. *)
Definition normalize (pil_image : image) : image :=
  if mode_in (mode pil_image) ["RGBA"; "P"; "LA"] then
    if mode_in (mode pil_image) ["RGBA"; "LA"] then
      Pasted (New "RGB" (size pil_image) white) pil_image (LastBand pil_image)
    else
      Converted pil_image "RGB"
  else pil_image.

(** What [pil_image.save(buffer, format, quality=quality)] leaves in the
    buffer. *)
Inductive encoded : Type :=
| Encode (format : string) (quality : Z) (im : image).

(** The modes Pillow's JPEG encoder writes (the keys of its table
    [RAWMODE]). *)
Definition jpeg_modes : list string := ["1"; "L"; "RGB"; "RGBX"; "CMYK"; "YCbCr"].

(** [im.save(buffer, "JPEG", ...)]: for a mode outside the table the encoder
    raises [OSError] ("cannot write mode ... as JPEG"); for a mode of the
    table the outcome is the environment's. *)
Definition save_jpeg (im : image) (outcome : result unit) : result unit :=
  if mode_in (mode im) jpeg_modes then outcome else Raise OtherException.

End Pil.
Export Pil.

(** ** The environment: what the libraries answer *)

Module World.

(** The dictionary [pdf_document.extract_image(xref)] returns: the values
    under its keys "image" and "ext", when present. *)
Record BaseImage : Type := mkBaseImage {
  bi_image : option (list Byte.byte);
  bi_ext : option string
}.

(** One entry [img_info] of [page.get_images(full=True)].  [img_xref] is
    [img_info[0]]; the other fields are the outcomes of the library calls the
    program makes while it handles this entry. *)
Record ImageRef : Type := mkImageRef {
  img_xref : Z;
  get_image_rects : result (list Rect);
    (* page.get_image_rects(img_info, transform=False) *)
  extract_image : result (option BaseImage);
    (* pdf_document.extract_image(xref); [None]: nothing, or an empty dict *)
  image_open : result (string * (N * N));
    (* Image.open(io.BytesIO(image_bytes)): mode and size of the decoded image *)
  image_save : result unit;
    (* pil_image.save(image_buffer, "JPEG", quality=85), for a mode the
       encoder writes *)
  upload_from_file : result unit
    (* blob.upload_from_file(image_buffer, content_type="image/jpeg") *)
}.

Record Page : Type := mkPage {
  height : float;                         (* page.rect.height *)
  get_images : result (list ImageRef)     (* page.get_images(full=True) *)
}.

(** An opened document: [load_page] lists [pdf_document[page_num]] for every
    page number, [close] is the outcome of [pdf_document.close()]. *)
Record Document : Type := mkDocument {
  load_page : list (result Page);
  close : result unit
}.

(** [pdf_document.page_count] *)
Definition page_count (d : Document) : nat := length (load_page d).

(** [bool(pdf_document)].  [fitz.Document] defines [__len__] as its page
    count and no [__bool__], so Python takes a document without pages for
    false. *)
Definition truthy (d : Document) : bool := negb (Nat.eqb (page_count d) 0).

(** [pdf_document[page_num]] *)
Definition getitem (d : Document) (page_num : nat) : result Page :=
  match load_page d !! page_num with
  | Some r => r
  | None => Raise OtherException
  end.

(** An object written to the output bucket. *)
Record Blob : Type := mkBlob {
  blob_path : string;
  blob_data : encoded;
  blob_content_type : string
}.

(** The texts the program prints, by the statement that prints them, with
    the values they interpolate. *)
Inductive message : Type :=
| WarnRatioSum (pdf_gcs_name : string)
| Processing (pages : nat) (pdf_gcs_name : string)
| SkippingPage (page : nat)
| ErrorImageList (page : nat) (pdf_gcs_name : string) (e : exn)
| WarnRects (xref : Z) (page : nat) (e : exn)
| ErrorImage (xref : Z) (page : nat) (pdf_gcs_name : string) (e : exn)
| Extracted (count : nat) (pdf_gcs_name image_dir : string)
| SkippedPlacements (count : nat)
| RuntimeErrorPdf (pdf_gcs_name : string) (e : exn)
| GeneralErrorPdf (pdf_gcs_name : string) (e : exn)
| ErrorClosing (pdf_gcs_name : string) (e : exn)
| EventInfo (label value : string)
| IgnoringNonPdf (name : string)
| IgnoringOutput (name : string)
| Attempting (bucket name : string)
| Finished (bucket name : string)
| DownloadNotFound (bucket name : string)
| CriticalFailure (name : string) (e : exn)
| MissingKey (e : exn)
| BucketNotFound (e : exn)
| Unexpected (e : exn).

(** What the program does to the outside, in the order it does it: prints,
    calls on the document handle and calls on the storage client. *)
Inductive event : Type :=
| Print (m : message)
| FitzOpen
| LoadPage (page_num : nat)
| GetImages (page_num : nat)
| GetImageRects (page_num : nat) (xref : Z)
| ExtractImage (page_num : nat) (xref : Z)
| UploadFromFile (path : string)
| Close
| StorageClient
| GetBucket (name : string)
| DownloadAsBytes (bucket name : string)
| StreamClose.

Global Instance exn_eq_dec : EqDecision exn.
Proof. solve_decision. Defined.
Global Instance message_eq_dec : EqDecision message.
Proof. solve_decision. Defined.
Global Instance event_eq_dec : EqDecision event.
Proof. solve_decision. Defined.
Global Arguments exn_eq_dec : simpl never.
Global Arguments message_eq_dec : simpl never.
Global Arguments event_eq_dec : simpl never.

(** The local variables that the handlers and [finally] blocks of the two
    functions read ([pdf_document], the counters and [processed_xrefs] of
    [extract_images_from_pdf]; [pdf_stream] of the trigger), the objects
    written to the output bucket, and the events so far. *)
Record State : Type := mkState {
  pdf_stream : option (list Byte.byte);
  pdf_document : option Document;
  image_count : nat;
  skipped_header_footer : nat;
  processed_xrefs : gset Z;
  bucket : list Blob;
  trace : list event
}.

Definition initial : State := mkState None None 0 0 ∅ [] [].

Definition set_pdf_stream (b : option (list Byte.byte)) (s : State) : State :=
  mkState b (pdf_document s) (image_count s) (skipped_header_footer s)
          (processed_xrefs s) (bucket s) (trace s).
Definition set_pdf_document (d : option Document) (s : State) : State :=
  mkState (pdf_stream s) d (image_count s) (skipped_header_footer s)
          (processed_xrefs s) (bucket s) (trace s).
Definition set_image_count (n : nat) (s : State) : State :=
  mkState (pdf_stream s) (pdf_document s) n (skipped_header_footer s)
          (processed_xrefs s) (bucket s) (trace s).
Definition set_skipped_header_footer (n : nat) (s : State) : State :=
  mkState (pdf_stream s) (pdf_document s) (image_count s) n (processed_xrefs s)
          (bucket s) (trace s).
Definition set_processed_xrefs (x : gset Z) (s : State) : State :=
  mkState (pdf_stream s) (pdf_document s) (image_count s)
          (skipped_header_footer s) x (bucket s) (trace s).
Definition store (b : Blob) (s : State) : State :=
  mkState (pdf_stream s) (pdf_document s) (image_count s)
          (skipped_header_footer s) (processed_xrefs s) (bucket s ++ [b]) (trace s).
Definition emit (e : event) (s : State) : State :=
  mkState (pdf_stream s) (pdf_document s) (image_count s)
          (skipped_header_footer s) (processed_xrefs s) (bucket s) (trace s ++ [e]).

End World.
Export World.

(** ** The monad of the program: state and exceptions *)

Module Monad.

Definition M (A : Type) : Type := State → result A * State.

Definition ret {A} (a : A) : M A := λ s, (Return a, s).

Definition bind {A B} (m : M A) (k : A → M B) : M B := λ s,
  match m s with
  | (Return a, s') => k a s'
  | (Raise e, s') => (Raise e, s')
  end.

Declare Scope py_scope.
Delimit Scope py_scope with py.
Notation "x <- m ;; k" := (bind m (λ x, k))
  (at level 100, m at next level, right associativity) : py_scope.
Notation "m ;; k" := (bind m (λ _, k))
  (at level 100, right associativity) : py_scope.
Local Open Scope py_scope.

(** Reading and assigning local variables. *)
Definition gets {A} (f : State → A) : M A := λ s, (Return (f s), s).
Definition modify (f : State → State) : M unit := λ s, (Return (), f s).

(** [print(...)] *)
Definition print (m : message) : M unit := modify (emit (Print m)).

(** A call into a library: it is recorded, and answers what the environment
    says. *)
Definition call {A} (ev : event) (outcome : result A) : M A := λ s,
  (outcome, emit ev s).

(** A library operation that touches neither the document nor the storage. *)
Definition pure_call {A} (outcome : result A) : M A := λ s, (outcome, s).

(** [blob.upload_from_file(...)]: the object is in the bucket when the call
    returns, and is not when it raises. *)
Definition upload (b : Blob) (outcome : result unit) : M unit := λ s,
  match outcome with
  | Return _ => (Return (), store b (emit (UploadFromFile (blob_path b)) s))
  | Raise e => (Raise e, emit (UploadFromFile (blob_path b)) s)
  end.

(** [try: body except ...]: [handlers e] is the body of the first clause
    that matches [e], if one does. *)
Definition try_except {A} (body : M A) (handlers : exn → option (M A)) : M A :=
  λ s, match body s with
       | (Return a, s') => (Return a, s')
       | (Raise e, s') =>
         match handlers e with
         | Some h => h s'
         | None => (Raise e, s')
         end
       end.

(** One clause [except C as e: h]. *)
Definition except {A} (C : exn → bool) (h : exn → M A) (e : exn) : option (M A) :=
  if C e then Some (h e) else None.

(** Clauses in order: the first that matches. *)
Definition orelse {A} (h1 h2 : exn → option (M A)) (e : exn) : option (M A) :=
  match h1 e with Some h => Some h | None => h2 e end.

(** [try: body finally: final]: [final] runs however [body] ends; the
    outcome is that of [body] unless [final] itself raises. *)
Definition try_finally {A} (body : M A) (final : M unit) : M A := λ s,
  match body s with
  | (r, s') =>
    match final s' with
    | (Return _, s'') => (r, s'')
    | (Raise e, s'') => (Raise e, s'')
    end
  end.

(** [for x in xs: body(x)] *)
Fixpoint for_each {X} (xs : list X) (body : X → M unit) : M unit :=
  match xs with
  | [] => ret ()
  | x :: rest => body x ;; for_each rest body
  end.

Definition when (b : bool) (m : M unit) : M unit := if b then m else ret ().

End Monad.
Export Monad.

(** ** [extract_images_from_pdf] *)

Module Extractor.

Local Open Scope py_scope.

(** Line 132: [f"{pdf_filename_base}_page_{page_num + 1}_img_{image_count + 1}.jpg"] *)
Definition final_image_name (pdf_filename_base : string) (page_num image_count : nat)
  : string :=
  pdf_filename_base ++ "_page_" ++ Str.of_nat (page_num + 1)
    ++ "_img_" ++ Str.of_nat (image_count + 1) ++ ".jpg".

(** Line 133: [f"{image_dir.strip('/')}/{final_image_name}"] *)
Definition final_blob_path (image_dir name : string) : string :=
  Str.strip "/" image_dir ++ "/" ++ name.

(** Line 46 *)
Definition pdf_filename_base (pdf_gcs_name : string) : string :=
  Str.splitext_root (Str.basename pdf_gcs_name).

(** Lines 107-111: the extension reported by the library and the name built
    from it; the program computes both and uses neither afterwards. *)
Definition safe_image_ext (base_image : BaseImage) : string :=
  let image_ext := default "png" (bi_ext base_image) in
  if mode_in image_ext ["png"; "jpeg"; "jpg"; "gif"; "bmp"] then image_ext
  else "png".

Definition image_name (base : string) (page_num image_count : nat)
    (base_image : BaseImage) : string :=
  base ++ "_page_" ++ Str.of_nat (page_num + 1)
    ++ "_img_" ++ Str.of_nat (image_count + 1) ++ "." ++ safe_image_ext base_image.

(** The object uploaded on lines 129-137. *)
Definition jpeg_blob (image_dir base : string) (page_num image_count : nat)
    (pil_image : image) : Blob :=
  mkBlob (final_blob_path image_dir (final_image_name base page_num image_count))
         (Encode "JPEG" 85 pil_image)
         "image/jpeg".

Section Document.

Variables (pdf_gcs_name image_dir : string).

(** Lines 101-139: the body of the [try] around one image. *)
Definition extract_and_save (page_num : nat) (img_info : ImageRef) : M unit :=
  let xref := img_xref img_info in
  base_image <- call (ExtractImage page_num xref) (extract_image img_info) ;;
  match base_image with
  | None => ret ()
  | Some base_image =>
    match bi_image base_image with
    | None | Some [] => ret ()
    | Some image_bytes =>
      opened <- pure_call (image_open img_info) ;;
      let pil_image := Opened image_bytes opened.1 opened.2 in
      let pil_image := normalize pil_image in
      pure_call (save_jpeg pil_image (image_save img_info)) ;;
      count <- gets image_count ;;
      upload (jpeg_blob image_dir (pdf_filename_base pdf_gcs_name) page_num count
                        pil_image)
             (upload_from_file img_info) ;;
      modify (set_image_count (count + 1))
    end
  end.

(** Lines 100-144: the [try] statement around one image. *)
Definition try_extract (page_num : nat) (img_info : ImageRef) : M unit :=
  try_except
    (extract_and_save page_num img_info)
    (except is_Exception
       (λ e, print (ErrorImage (img_xref img_info) (page_num + 1) pdf_gcs_name e))).

(** [processed_xrefs.add(xref)] *)
Definition add_processed (xref : Z) (s : State) : State :=
  set_processed_xrefs ({[ xref ]} ∪ processed_xrefs s) s.

(** Lines 93-94: the counter of skipped placements goes up by one. *)
Definition count_skipped (s : State) : State :=
  set_skipped_header_footer (skipped_header_footer s + 1) s.

(** Lines 70-144: the body of the loop over [image_list]. *)
Definition process_image (page_num : nat) (header_limit footer_limit : float)
    (img_info : ImageRef) : M unit :=
  let xref := img_xref img_info in
  processed <- gets processed_xrefs ;;
  if bool_decide (xref = 0%Z) || bool_decide (xref ∈ processed) then ret ()
  else
    image_rects <-
      try_except
        (call (GetImageRects page_num xref) (get_image_rects img_info))
        (except is_Exception
           (λ rect_err, print (WarnRects xref (page_num + 1) rect_err) ;; ret [])) ;;
    if skipped header_limit footer_limit image_rects then
      modify count_skipped ;;
      modify (add_processed xref)
    else
      modify (add_processed xref) ;;
      try_extract page_num img_info.

Variables (header_ratio footer_ratio : float).

(** Lines 51-144: the body of the loop over the pages. *)
Definition process_page (doc : Document) (page_num : nat) : M unit :=
  page <- call (LoadPage page_num) (getitem doc page_num) ;;
  let page_height := height page in
  if (page_height <=? 0)%float then print (SkippingPage (page_num + 1))
  else
    let header_limit := header_limit page_height header_ratio in
    let footer_limit := footer_limit page_height footer_ratio in
    image_list <-
      try_except
        (l <- call (GetImages page_num) (get_images page) ;; ret (Some l))
        (except is_Exception
           (λ img_list_err,
              print (ErrorImageList (page_num + 1) pdf_gcs_name img_list_err) ;;
              ret None)) ;;
    match image_list with
    | None => ret ()
    | Some image_list =>
      modify (set_processed_xrefs ∅) ;;
      for_each image_list (process_image page_num header_limit footer_limit)
    end.

(** Lines 42-147: the body of the outer [try]. *)
Definition process_document (opened : result Document) : M unit :=
  doc <- call FitzOpen opened ;;
  modify (set_pdf_document (Some doc)) ;;
  modify (set_image_count 0) ;;
  modify (set_skipped_header_footer 0) ;;
  print (Processing (page_count doc) pdf_gcs_name) ;;
  for_each (seq 0 (page_count doc)) (process_page doc) ;;
  count <- gets image_count ;;
  print (Extracted count pdf_gcs_name image_dir) ;;
  n <- gets skipped_header_footer ;;
  when (bool_decide (0 < n)) (print (SkippedPlacements n)).

(** Lines 154-161: the [finally] block. *)
Definition release : M unit :=
  pdf_document <- gets pdf_document ;;
  match pdf_document with
  | Some doc =>
    if truthy doc then
      try_except
        (call Close (close doc))
        (except is_Exception (λ close_e, print (ErrorClosing pdf_gcs_name close_e)))
    else ret ()
  | None => ret ()
  end.

End Document.

(** The function, lines 20-161.  [opened] is the outcome of
    [fitz.open(stream=pdf_stream, filetype="pdf")]. *)
Definition extract_images_from_pdf (opened : result Document)
    (pdf_gcs_name image_dir : string) (header_ratio footer_ratio : float) : M unit :=
  let header_ratio := validate_ratio header_ratio in
  let footer_ratio := validate_ratio footer_ratio in
  when (1.0 <=? header_ratio + footer_ratio)%float
       (print (WarnRatioSum pdf_gcs_name)) ;;
  modify (set_pdf_document None) ;;
  try_finally
    (try_except
       (process_document pdf_gcs_name image_dir header_ratio footer_ratio opened)
       (orelse
          (except is_RuntimeError (λ fe, print (RuntimeErrorPdf pdf_gcs_name fe)))
          (except is_Exception (λ e, print (GeneralErrorPdf pdf_gcs_name e)))))
    (release pdf_gcs_name).

End Extractor.
Export Extractor.

(** ** The trigger: [extract_images_from_pdf_gcs_trigger] *)

Module Trigger.

Local Open Scope py_scope.

(** Lines 11-16: the constants fixed at deployment. *)
Record Config : Type := mkConfig {
  OUTPUT_BUCKET_NAME : string;
  OUTPUT_IMAGE_DIR : string;
  HEADER_RATIO : float;
  FOOTER_RATIO : float
}.

Definition deployed : Config :=
  mkConfig "sbi-image-sample" "extracted-pdf-images" 0.15%float 0.15%float.

(** The event: [cloud_event["id"]], [cloud_event["type"]] and the
    dictionary [cloud_event.data]. *)
Record CloudEvent : Type := mkCloudEvent {
  event_id : string;
  event_type : string;
  data : gmap string string
}.

(** What the storage service and the PDF library answer for this event. *)
Record Cloud : Type := mkCloud {
  storage_client : result unit;               (* storage.Client() *)
  get_bucket : result unit;                   (* storage_client.get_bucket(...) *)
  download_as_bytes : result (list Byte.byte);(* blob.download_as_bytes(timeout=300) *)
  fitz_open : result Document                 (* fitz.open(stream=pdf_stream, ...) *)
}.

(** [d[key]]: raises [KeyError] on a missing key. *)
Definition item (d : gmap string string) (key : string) : M string := λ s,
  match d !! key with
  | Some v => (Return v, s)
  | None => (Raise (KeyError key), s)
  end.

(** Line 195: [not input_file_name or not
    input_file_name.lower().endswith(".pdf")]; an empty name is false. *)
Definition not_pdf (input_file_name : string) : bool :=
  String.eqb input_file_name ""
  || negb (Str.endswith (Str.lower input_file_name) ".pdf").

(** Lines 200-203: the object lies in the output directory of the output
    bucket. *)
Definition own_output (cfg : Config) (input_bucket_name input_file_name : string)
  : bool :=
  String.eqb input_bucket_name (OUTPUT_BUCKET_NAME cfg)
  && Str.startswith input_file_name (Str.strip "/" (OUTPUT_IMAGE_DIR cfg) ++ "/").

Section Event.

Variables (cfg : Config) (cloud : Cloud).

(** Lines 214-246 *)
Definition download_and_process (input_bucket_name input_file_name : string)
  : M unit :=
  modify (set_pdf_stream None) ;;
  try_finally
    (try_except
       (print (Attempting input_bucket_name input_file_name) ;;
        pdf_bytes <- call (DownloadAsBytes input_bucket_name input_file_name)
                          (download_as_bytes cloud) ;;
        modify (set_pdf_stream (Some pdf_bytes)) ;;
        extract_images_from_pdf (fitz_open cloud) input_file_name
          (OUTPUT_IMAGE_DIR cfg) (HEADER_RATIO cfg) (FOOTER_RATIO cfg) ;;
        print (Finished input_bucket_name input_file_name))
       (orelse
          (except is_NotFound
             (λ _, print (DownloadNotFound input_bucket_name input_file_name)))
          (except is_Exception (λ e, print (CriticalFailure input_file_name e)))))
    (pdf_stream <- gets pdf_stream ;;
     match pdf_stream with
     | Some _ => modify (emit StreamClose)
     | None => ret ()
     end).

(** Lines 207-246: the object is taken for processing. *)
Definition process_object (input_bucket_name input_file_name : string) : M unit :=
  call StorageClient (storage_client cloud) ;;
  call (GetBucket (OUTPUT_BUCKET_NAME cfg)) (get_bucket cloud) ;;
  download_and_process input_bucket_name input_file_name.

(** Lines 179-246: the body of the outer [try]. *)
Definition handle_event (ev : CloudEvent) : M unit :=
  input_bucket_name <- item (data ev) "bucket" ;;
  input_file_name <- item (data ev) "name" ;;
  metageneration <- item (data ev) "metageneration" ;;
  timeCreated <- item (data ev) "timeCreated" ;;
  updated <- item (data ev) "updated" ;;
  print (EventInfo "Event ID" (event_id ev)) ;;
  print (EventInfo "Event type" (event_type ev)) ;;
  print (EventInfo "Input Bucket" input_bucket_name) ;;
  print (EventInfo "File" input_file_name) ;;
  print (EventInfo "Metageneration" metageneration) ;;
  print (EventInfo "Created" timeCreated) ;;
  print (EventInfo "Updated" updated) ;;
  if not_pdf input_file_name then print (IgnoringNonPdf input_file_name)
  else if own_output cfg input_bucket_name input_file_name
  then print (IgnoringOutput input_file_name)
  else process_object input_bucket_name input_file_name.

(** Lines 248-255: the clauses of the outer [try]. *)
Definition outer_handlers : exn → option (M unit) :=
  orelse
    (except is_KeyError (λ ke, print (MissingKey ke)))
    (orelse
       (except is_NotFound (λ nfe, print (BucketNotFound nfe)))
       (except is_Exception (λ e, print (Unexpected e)))).

(** The function, lines 167-255. *)
Definition extract_images_from_pdf_gcs_trigger (ev : CloudEvent) : M unit :=
  try_except (handle_event ev) outer_handlers.

End Event.

End Trigger.
Export Trigger.

(** * Notions used in the properties *)

Module Notions.

Local Open Scope list_scope.
Local Open Scope nat_scope.

(** ** The program logic *)

(** [triple P m Q E]: from a state in [P], [m] ends in [Q] when it returns
    and in [E] when it raises. *)
Definition triple {A} (P : State → Prop) (m : M A)
    (Q : A → State → Prop) (E : State → Prop) : Prop :=
  ∀ s, P s →
    match m s with
    | (Return a, s') => Q a s'
    | (Raise _, s') => E s'
    end.

(** [preserves I m]: [m] keeps [I], however it ends. *)
Definition preserves {A} (I : State → Prop) (m : M A) : Prop :=
  ∀ s, I s → I (m s).2.

(** [I] survives every assignment the loops make and every event. *)
Record stable (I : State → Prop) : Prop := mkStable {
  stable_emit : ∀ ev s, I s → I (emit ev s);
  stable_store : ∀ b s, I s → I (store b s);
  stable_image_count : ∀ n s, I s → I (set_image_count n s);
  stable_skipped : ∀ n s, I s → I (set_skipped_header_footer n s);
  stable_processed : ∀ x s, I s → I (set_processed_xrefs x s)
}.

(** ** The header/footer filter *)

(** The rectangle lies entirely above the header limit or entirely below the
    footer limit. *)
Definition in_zone (header_limit footer_limit : float) (rect : Rect) : Prop :=
  (y1 rect <=? header_limit)%float = true
  ∨ (footer_limit <=? y0 rect)%float = true.

(** The rectangle reaches into the band between the limits. *)
Definition in_band (header_limit footer_limit : float) (rect : Rect) : Prop :=
  (y1 rect <=? header_limit)%float = false
  ∧ (footer_limit <=? y0 rect)%float = false.

(** The state in which the reference has been counted as a header/footer
    placement. *)
Definition skip_state (page_num : nat) (img_info : ImageRef) (s : State) : State :=
  add_processed (img_xref img_info)
    (count_skipped (emit (GetImageRects page_num (img_xref img_info)) s)).

(** The state in which the reference enters the [try] of line 100. *)
Definition keep_state (page_num : nat) (img_info : ImageRef) (s : State) : State :=
  add_processed (img_xref img_info)
    (emit (GetImageRects page_num (img_xref img_info)) s).

(** The state in which the loop over the image list of a page starts. *)
Definition page_state (page_num : nat) (s : State) : State :=
  set_processed_xrefs ∅ (emit (GetImages page_num) (emit (LoadPage page_num) s)).

(** The reference gets past the filter: its rectangles do not all lie in the
    zones, or retrieving them raised an error. *)
Definition passes_filter (header_limit footer_limit : float) (img_info : ImageRef)
  : Prop :=
  match get_image_rects img_info with
  | Return rects => skipped header_limit footer_limit rects = false
  | Raise e => is_Exception e = true
  end.

(** ** What a run writes *)

(** An image that was written: the page it came from and what was decoded. *)
Record Written : Type := mkWritten {
  w_page_num : nat;
  w_data : list Byte.byte;
  w_mode : string;
  w_size : N * N
}.

(** The image [Image.open] gave for [w]. *)
Definition decoded (w : Written) : image :=
  Opened (w_data w) (w_mode w) (w_size w).

(** The object written for [w] when [i] images were written before it. *)
Definition written_blob (image_dir base : string) (i : nat) (w : Written) : Blob :=
  jpeg_blob image_dir base (w_page_num w) i (normalize (decoded w)).

(** [w] came from one of the first [pages] pages, and its normalised image
    has a mode the JPEG encoder writes. *)
Definition valid_written (pages : nat) (w : Written) : Prop :=
  w_page_num w < pages ∧ mode_in (mode (normalize (decoded w))) jpeg_modes = true.

(** The bucket holds what it held in [b0] and, after it, the images written
    so far, numbered in the order of writing; [image_count] is their
    number. *)
Definition writes (image_dir base : string) (pages : nat) (b0 : list Blob)
    (s : State) : Prop :=
  ∃ ws : list Written,
    bucket s = (b0 ++ imap (written_blob image_dir base) ws)%list
    ∧ image_count s = length ws
    ∧ Forall (valid_written pages) ws.

(** The number of pages of the document, none when it did not open. *)
Definition pages_of (opened : result Document) : nat :=
  match opened with Return doc => page_count doc | Raise _ => 0 end.

(** The objects a run adds to the bucket, in the order of writing. *)
Definition added (image_dir base : string) (ws : list Written) : list Blob :=
  imap (written_blob image_dir base) ws.

(** The character is a decimal digit. *)
Definition is_digit (c : ascii) : bool :=
  Nat.leb 48 (nat_of_ascii c) && Nat.leb (nat_of_ascii c) 57.

(** The string consists of decimal digits. *)
Fixpoint all_digits (s : string) : bool :=
  match s with
  | EmptyString => true
  | String c r => is_digit c && all_digits r
  end.

(** ** Failures inside the [try] of one image *)

(** The first exception raised inside the [try] of line 100 for this
    reference, if one is. *)
Definition first_failure (img_info : ImageRef) : option exn :=
  match extract_image img_info with
  | Raise e => Some e
  | Return None => None
  | Return (Some base_image) =>
    match bi_image base_image with
    | None | Some [] => None
    | Some image_bytes =>
      match image_open img_info with
      | Raise e => Some e
      | Return opened =>
        match save_jpeg (normalize (Opened image_bytes opened.1 opened.2))
                        (image_save img_info) with
        | Raise e => Some e
        | Return _ =>
          match upload_from_file img_info with
          | Raise e => Some e
          | Return _ => None
          end
        end
      end
    end
  end.

(** ** The gate of the trigger *)

(** The event is a print. *)
Definition is_print (ev : event) : Prop :=
  match ev with Print _ => True | _ => False end.

(** The run from [s] returned without raising, wrote nothing and called
    neither the storage service nor the PDF library: all it did was print. *)
Definition ignored (s : State) (run : result unit * State) : Prop :=
  run.1 = Return ()
  ∧ bucket run.2 = bucket s
  ∧ ∃ events, trace run.2 = (trace s ++ events)%list ∧ Forall is_print events.

(** The state after the prints of lines 185-191. *)
Definition announced (ev : CloudEvent)
    (input_bucket_name input_file_name metageneration timeCreated updated : string)
    (s : State) : State :=
  emit (Print (EventInfo "Updated" updated))
    (emit (Print (EventInfo "Created" timeCreated))
       (emit (Print (EventInfo "Metageneration" metageneration))
          (emit (Print (EventInfo "File" input_file_name))
             (emit (Print (EventInfo "Input Bucket" input_bucket_name))
                (emit (Print (EventInfo "Event type" (event_type ev)))
                   (emit (Print (EventInfo "Event ID" (event_id ev))) s)))))).

(** ** Counting the calls made for a reference *)

(** The two calls made for a reference that is processed. *)
Definition tracked (ev : event) : Prop :=
  match ev with
  | GetImageRects _ _ | ExtractImage _ _ => True
  | _ => False
  end.

(** How often [ev] happened so far. *)
Definition count (ev : event) (s : State) : nat :=
  count_occ event_eq_dec (trace s) ev.

(** [ev] is a call for a reference of page [page_num] that is still to be
    processed there: its identifier is not zero and not among [processed]. *)
Definition fresh (page_num : nat) (processed : gset Z) (ev : event) : nat :=
  match ev with
  | GetImageRects m x | ExtractImage m x =>
    if bool_decide (m = page_num ∧ x ≠ 0%Z ∧ x ∉ processed) then 1 else 0
  | _ => 0
  end.

(** [ev] is a call for a reference with a non-zero identifier on one of the
    first [pages] pages. *)
Definition within (pages : nat) (ev : event) : nat :=
  match ev with
  | GetImageRects m x | ExtractImage m x =>
    if bool_decide (m < pages ∧ x ≠ 0%Z) then 1 else 0
  | _ => 0
  end.

(** The potential of a state of the image loop of page [page_num]: the
    calls [ev] made so far, and the one still allowed when the reference is
    to be processed. *)
Definition potential (page_num : nat) (ev : event) (s : State) : nat :=
  count ev s + fresh page_num (processed_xrefs s) ev.

(** ** Closing the document *)

(** What follows the call of [close] on lines 157-161: the line of line 161
    when the call raised an [Exception], nothing otherwise. *)
Definition closing_report (pdf_gcs_name : string) (doc : Document) : list event :=
  match close doc with
  | Return _ => []
  | Raise close_e =>
    if is_Exception close_e then [Print (ErrorClosing pdf_gcs_name close_e)]
    else []
  end.

(** ** How a call ends *)

(** The call returned, or raised what is not an [Exception]. *)
Definition quiet_exit {A} (r : result A) : Prop :=
  match r with Return _ => True | Raise e => is_Exception e = false end.

(** The clauses catch every [Exception], and each of them only prints. *)
Definition catches_all (handlers : exn → option (M unit)) : Prop :=
  ∀ e, match handlers e with
       | Some h => ∃ m, h = print m
       | None => is_Exception e = false
       end.

(** The line printed by the clause of lines 149-153 that catches [e]. *)
Definition open_error_message (pdf_gcs_name : string) (e : exn) : message :=
  if is_RuntimeError e then RuntimeErrorPdf pdf_gcs_name e
  else GeneralErrorPdf pdf_gcs_name e.

(** The line printed by the clause of lines 248-255 that catches [e]. *)
Definition outer_message (e : exn) : message :=
  if is_KeyError e then MissingKey e
  else if is_NotFound e then BucketNotFound e
  else Unexpected e.

(** The line printed by the clause of lines 236-241 that catches [e]. *)
Definition download_message (input_bucket_name input_file_name : string) (e : exn)
  : message :=
  if is_NotFound e then DownloadNotFound input_bucket_name input_file_name
  else CriticalFailure input_file_name e.

(** ** The payload of an event *)

(** The keys lines 179-183 read, in the order they are read. *)
Definition required_keys : list string :=
  ["bucket"; "name"; "metageneration"; "timeCreated"; "updated"].

Definition missing (d : gmap string string) (key : string) : bool :=
  match d !! key with Some _ => false | None => true end.

(** The first of the keys that the payload lacks. *)
Definition first_missing (d : gmap string string) : option string :=
  List.find (missing d) required_keys.

(** The event carries the five keys and passes the gate of lines 193-205. *)
Definition accepted (cfg : Config) (ev : CloudEvent)
    (input_bucket_name input_file_name metageneration timeCreated updated : string)
  : Prop :=
  data ev !! "bucket" = Some input_bucket_name
  ∧ data ev !! "name" = Some input_file_name
  ∧ data ev !! "metageneration" = Some metageneration
  ∧ data ev !! "timeCreated" = Some timeCreated
  ∧ data ev !! "updated" = Some updated
  ∧ not_pdf input_file_name = false
  ∧ own_output cfg input_bucket_name input_file_name = false.

(** The state in which lines 214-246 start: the event was announced, the
    storage client made and the output bucket fetched. *)
Definition ready (cfg : Config) (ev : CloudEvent)
    (input_bucket_name input_file_name metageneration timeCreated updated : string)
    (s : State) : State :=
  emit (GetBucket (OUTPUT_BUCKET_NAME cfg))
    (emit StorageClient
       (announced ev input_bucket_name input_file_name metageneration
                  timeCreated updated s)).

(** ** Tallies of calls *)

Definition is_rects_call (ev : event) : bool :=
  match ev with GetImageRects _ _ => true | _ => false end.

Definition is_extract_call (ev : event) : bool :=
  match ev with ExtractImage _ _ => true | _ => false end.

(** The number of events of [t] that [p] selects. *)
Fixpoint tally (p : event → bool) (t : list event) : nat :=
  match t with
  | [] => 0
  | ev :: rest => (if p ev then 1 else 0) + tally p rest
  end.

(** The two counters are covered by the calls made since a state with [R0]
    calls of [get_image_rects] and [E0] calls of [extract_image]: every
    skipped reference and every extraction had its rectangles asked for, and
    every written image was extracted. *)
Definition accounted (R0 E0 : nat) (s : State) : Prop :=
  skipped_header_footer s + tally is_extract_call (trace s) + R0
    ≤ tally is_rects_call (trace s) + E0
  ∧ image_count s + E0 ≤ tally is_extract_call (trace s).

(** ** Shapes of rectangles, strings and objects *)

(** The top and bottom edge of a rectangle. *)
Definition vertical_extent (rect : Rect) : float * float := (y0 rect, y1 rect).

(** The character [c] does not occur in [s]. *)
Fixpoint lacks (c : ascii) (s : string) : bool :=
  match s with
  | EmptyString => true
  | String a r => negb (Ascii.eqb a c) && lacks c r
  end.

(** An object under the configured output directory that the gate of the
    trigger does not take for a PDF. *)
Definition own_object (cfg : Config) (b : Blob) : Prop :=
  Str.startswith (blob_path b) (Str.strip "/" (OUTPUT_IMAGE_DIR cfg) ++ "/") = true
  ∧ not_pdf (blob_path b) = true.

(** The bucket holds what it held in [b0] and, after it, objects of the
    deployment's own. *)
Definition own_writes (cfg : Config) (b0 : list Blob) (s : State) : Prop :=
  ∃ new : list Blob, bucket s = b0 ++ new ∧ Forall (own_object cfg) new.

(** ** Pages that are not processed *)

(** The state after the events [evs], in this order. *)
Definition emit_all (evs : list event) (s : State) : State :=
  fold_left (λ s' ev, emit ev s') evs s.

(** What the loop over the pages does for pages that are all skipped on
    line 53: each is loaded, and the line of line 54 is printed for it. *)
Definition skipping (pages : list nat) : list event :=
  flat_map (λ page_num, [LoadPage page_num; Print (SkippingPage (page_num + 1))])
           pages.

(** The page loads, and its height is zero or negative. *)
Definition flat_page (loaded : result Page) : Prop :=
  ∃ page, loaded = Return page ∧ (height page <=? 0)%float = true.

(** ** References without image data *)

(** [extract_image] answers nothing, or a dictionary without bytes under
    "image": the condition of line 102. *)
Definition without_pixels (img_info : ImageRef) : Prop :=
  match extract_image img_info with
  | Return None => True
  | Return (Some base_image) =>
    match bi_image base_image with
    | None | Some [] => True
    | Some (_ :: _) => False
    end
  | Raise _ => False
  end.

(** Top and bottom edge lie in a zone. *)
Definition extent_in_zone (header_limit footer_limit : float)
    (extent : float * float) : Prop :=
  (extent.2 <=? header_limit)%float = true
  ∨ (footer_limit <=? extent.1)%float = true.

(** ** The lines a run prints about the document *)

(** The events so far are [t0] and what came after it. *)
Definition extends (t0 : list event) (s : State) : Prop :=
  ∃ events, trace s = t0 ++ events.

(** The line [m] was printed after the events [t0]. *)
Definition printed_since (t0 : list event) (m : message) (s : State) : Prop :=
  ∃ events, trace s = t0 ++ events ∧ In (Print m) events.

(** Since [t0] the run printed an error line for the document (lines 150 and
    153), or the summary line of line 146 with the present value of
    [image_count]. *)
Definition reported (t0 : list event) (pdf_gcs_name image_dir : string)
    (s : State) : Prop :=
  (∃ e, printed_since t0 (open_error_message pdf_gcs_name e) s)
  ∨ printed_since t0 (Extracted (image_count s) pdf_gcs_name image_dir) s.

(** ** Sample inputs *)

(** A reference with one placement rectangle from [top] to [bottom], whose
    extraction, decoding, encoding and upload all succeed. *)
Definition sample_image (xref : Z) (top bottom : float) : ImageRef :=
  mkImageRef xref
    (Return [mkRect 0 top 100 bottom])
    (Return (Some (mkBaseImage (Some [Byte.x89; Byte.x50]) (Some "png"))))
    (Return ("RGBA", (10, 10)%N))
    (Return ())
    (Return ()).

(** The first page of the scenario of the specification: height 1000, one
    image in the header zone and one in the body of the page. *)
Definition sample_page : Page :=
  mkPage 1000 (Return [sample_image 5 0 50; sample_image 6 400 600]).

(** The document of the scenario: two such pages. *)
Definition sample_doc : Document :=
  mkDocument [Return sample_page; Return sample_page] (Return ()).

(** A reference whose rectangles cannot be retrieved. *)
Definition sample_no_rects : ImageRef :=
  mkImageRef 9 (Raise RuntimeError)
    (Return (Some (mkBaseImage (Some [Byte.x89; Byte.x50]) (Some "png"))))
    (Return ("RGB", (10, 10)%N))
    (Return ())
    (Return ()).

(** A reference whose bytes do not decode. *)
Definition sample_undecodable : ImageRef :=
  mkImageRef 7 (Return [mkRect 0 400 100 600])
    (Return (Some (mkBaseImage (Some [Byte.x00]) (Some "png"))))
    (Raise OtherException) (Return ()) (Return ()).

(** A page whose image list cannot be retrieved. *)
Definition sample_unlisted : Page := mkPage 1000 (Raise RuntimeError).

(** A document whose first page gives no image list. *)
Definition sample_doc_unlisted : Document :=
  mkDocument [Return sample_unlisted; Return sample_page] (Return ()).

(** An opened document without pages. *)
Definition sample_empty_doc : Document := mkDocument [] (Return ()).

(** A decoded image in Pillow's mode "PA". *)
Definition sample_pa : image := Opened [Byte.x00] "PA" (1, 1)%N.

(** The image of the sample page that is written, with a directory given
    with slashes around it. *)
Definition sample_run : result unit * State :=
  extract_images_from_pdf (Return sample_doc) "in/report.pdf" "/out/"
    0.1%float 0.1%float initial.

(** An upload event for "report.PDF" in a bucket that is not the output
    bucket of the deployment. *)
Definition sample_event : CloudEvent :=
  mkCloudEvent "event-1" "google.cloud.storage.object.v1.finalized"
    (<["bucket" := "incoming"]>
       (<["name" := "report.PDF"]>
          (<["metageneration" := "1"]>
             (<["timeCreated" := "t0"]> (<["updated" := "t1"]> ∅))))).

(** An upload event for a text file. *)
Definition sample_text_event : CloudEvent :=
  mkCloudEvent "event-2" "google.cloud.storage.object.v1.finalized"
    (<["bucket" := "incoming"]>
       (<["name" := "notes.txt"]>
          (<["metageneration" := "1"]>
             (<["timeCreated" := "t0"]> (<["updated" := "t1"]> ∅))))).

(** A storage service in which every call succeeds and the downloaded bytes
    open as the sample document. *)
Definition sample_cloud : Cloud :=
  mkCloud (Return ()) (Return ()) (Return [Byte.x25]) (Return sample_doc).

End Notions.
Export Notions.

(** * Properties *)

(** ** Binary64 comparisons *)

Module FloatFacts.

Local Open Scope float_scope.

Lemma SFcompare_antisym (x y : spec_float) :
  SFcompare y x = option_map CompOpp (SFcompare x y).
Proof.
  destruct x as [sx|sx| |sx mx ex], y as [sy|sy| |sy my ey]; simpl;
    repeat match goal with b : bool |- _ => destruct b end; try reflexivity.
  all: pose proof (Pos.compare_cont_antisym mx my Eq) as Hm; simpl in Hm.
  all: rewrite (Z.compare_antisym ex ey); destruct (ex ?= ey)%Z; simpl;
    try reflexivity.
  all: change PosDef.Pos.compare_cont with Pos.compare_cont.
  all: destruct (Pos.compare_cont Eq mx my), (Pos.compare_cont Eq my mx);
    simpl in *; congruence.
Qed.

(** Away from NaN, [not (x <= y)] is [y < x]. *)
Lemma leb_negb_ltb (x y : float) :
  is_nan x = false → is_nan y = false → (x <=? y) = negb (y <? x).
Proof.
  unfold is_nan. rewrite !FloatAxioms.eqb_spec, FloatAxioms.leb_spec, FloatAxioms.ltb_spec.
  unfold SFeqb, SFleb, SFltb.
  rewrite (SFcompare_antisym (Prim2SF x) (Prim2SF y)).
  destruct (Prim2SF x) as [sx|sx| |sx mx ex], (Prim2SF y) as [sy|sy| |sy my ey];
    repeat match goal with b : bool |- _ => destruct b end;
    simpl; intros; try discriminate; try reflexivity;
    destruct (ex ?= ey)%Z; simpl; try reflexivity;
    destruct (PosDef.Pos.compare_cont Eq mx my); reflexivity.
Qed.

(** A comparison with NaN is false. *)
Lemma leb_nan_l (x y : float) : is_nan x = true → (x <=? y) = false.
Proof.
  unfold is_nan. rewrite FloatAxioms.eqb_spec, FloatAxioms.leb_spec. unfold SFeqb, SFleb.
  destruct (Prim2SF x) as [sx|sx| |sx mx ex]; simpl; try reflexivity;
    repeat match goal with b : bool |- _ => destruct b end; simpl;
    try discriminate.
  all: rewrite Z.compare_refl, ?Pos.compare_cont_refl; simpl; discriminate.
Qed.

Lemma leb_nan_r (x y : float) : is_nan y = true → (x <=? y) = false.
Proof.
  unfold is_nan. rewrite FloatAxioms.eqb_spec, FloatAxioms.leb_spec. unfold SFeqb, SFleb.
  destruct (Prim2SF y) as [sy|sy| |sy my ey]; simpl;
    repeat match goal with b : bool |- _ => destruct b end; simpl;
    try discriminate.
  - destruct (Prim2SF x) as [sx|sx| |sx mx ex]; reflexivity.
  - rewrite Z.compare_refl, ?Pos.compare_cont_refl; simpl; discriminate.
  - rewrite Z.compare_refl, ?Pos.compare_cont_refl; simpl; discriminate.
Qed.

(** Lines 36-37 leave a ratio in [0, 1). *)
Lemma validate_ratio_range (ratio : float) :
  (0.0 <=? validate_ratio ratio) = true ∧ (validate_ratio ratio <? 1.0) = true.
Proof.
  unfold validate_ratio.
  destruct (0.0 <=? ratio) eqn:H0; destruct (ratio <? 1.0) eqn:H1; simpl;
    solve [ split; assumption | split; vm_compute; reflexivity ].
Qed.

Lemma validate_ratio_id (ratio : float) :
  (0.0 <=? ratio) = true → (ratio <? 1.0) = true → validate_ratio ratio = ratio.
Proof. unfold validate_ratio. intros -> ->. reflexivity. Qed.

End FloatFacts.

(** ** The header/footer test as a predicate on the rectangles *)

Module FilterFacts.

Local Open Scope float_scope.

Lemma in_skip_zone_true hl fl rect :
  in_skip_zone hl fl rect = true ↔ in_zone hl fl rect.
Proof. unfold in_skip_zone, in_zone. apply orb_true_iff. Qed.

Lemma in_skip_zone_false hl fl rect :
  in_skip_zone hl fl rect = false ↔ in_band hl fl rect.
Proof. unfold in_skip_zone, in_band. apply orb_false_iff. Qed.

Lemma scan_rects_Forall hl fl rects :
  scan_rects hl fl rects = true ↔ Forall (in_zone hl fl) rects.
Proof.
  induction rects as [|rect rest IH]; simpl.
  - split; [constructor | reflexivity].
  - destruct (in_skip_zone hl fl rect) eqn:Hz; simpl.
    + rewrite IH. split.
      * intros Hrest. constructor; [by apply in_skip_zone_true | exact Hrest].
      * by inversion 1.
    + split; [discriminate|].
      inversion 1 as [|? ? Hin _]; subst.
      apply in_skip_zone_true in Hin. congruence.
Qed.

Lemma scan_rects_Exists hl fl rects :
  scan_rects hl fl rects = false ↔ Exists (in_band hl fl) rects.
Proof.
  induction rects as [|rect rest IH]; simpl.
  - split; [discriminate | by inversion 1].
  - destruct (in_skip_zone hl fl rect) eqn:Hz; simpl.
    + rewrite IH. split.
      * by constructor 2.
      * inversion 1 as [? ? Hb|]; subst; [|assumption].
        apply in_skip_zone_false in Hb. congruence.
    + split; [|reflexivity]. intros _.
      constructor 1. by apply in_skip_zone_false.
Qed.

Lemma nonempty_true {A} (l : list A) : nonempty l = true ↔ l ≠ [].
Proof. destruct l; simpl; split; congruence. Qed.

(** Line 92 skips exactly the non-empty lists whose rectangles all lie in a
    zone. *)
Lemma skipped_true hl fl rects :
  skipped hl fl rects = true ↔ rects ≠ [] ∧ Forall (in_zone hl fl) rects.
Proof.
  unfold skipped, is_potentially_header_footer.
  destruct rects as [|rect rest]; [simpl; split; [discriminate | by intros [? _]]|].
  change (nonempty (rect :: rest)) with true. rewrite andb_true_r.
  rewrite scan_rects_Forall. split; [by split | by intros [_ ?]].
Qed.

Lemma skipped_false hl fl rects :
  skipped hl fl rects = false ↔ rects = [] ∨ Exists (in_band hl fl) rects.
Proof.
  unfold skipped, is_potentially_header_footer.
  destruct rects as [|rect rest]; [simpl; split; [by left | reflexivity]|].
  change (nonempty (rect :: rest)) with true. rewrite andb_true_r.
  rewrite scan_rects_Exists. split; [by right | by intros [?|?]].
Qed.

End FilterFacts.
Export FilterFacts.

(** ** One entry of the image list, case by case *)

Module ImageSteps.

(** Case analysis on what the libraries answer inside the [try] of line 100. *)
Ltac run_try_extract img_info :=
  unfold try_extract, try_except, extract_and_save, bind, call, except,
    pure_call, upload, gets, modify, print;
  destruct (extract_image img_info) as [[?base|]|?e]; simpl;
  [ destruct (bi_image base) as [[|? ?]|]; simpl;
    [ | destruct (image_open img_info) as [?opened|?e]; simpl;
        [ unfold save_jpeg;
          destruct (mode_in _ jpeg_modes) eqn:?Hmode; simpl;
          [ destruct (image_save img_info) as [?|?e]; simpl;
            [ destruct (upload_from_file img_info) as [?|?e]; simpl | ] | ] | ] | ]
  | | ];
  try match goal with
      | |- context [is_Exception ?e] => destruct (is_Exception e); simpl
      end.

Section Steps.

Variables (pdf_gcs_name image_dir : string) (page_num : nat).
Variables (header_limit footer_limit : float).

Local Abbreviation process := (process_image pdf_gcs_name image_dir page_num
                                   header_limit footer_limit).
Local Abbreviation extract := (try_extract pdf_gcs_name image_dir page_num).

(** Line 71: a zero or already processed identifier is passed over. *)
Lemma process_image_passed (img_info : ImageRef) (s : State) :
  img_xref img_info = 0%Z ∨ img_xref img_info ∈ processed_xrefs s →
  process img_info s = (Return (), s).
Proof.
  intros H. unfold process_image, bind, gets.
  destruct H as [H|H].
  - rewrite (bool_decide_eq_true_2 _ H). reflexivity.
  - rewrite (bool_decide_eq_true_2 _ H), orb_true_r. reflexivity.
Qed.

Lemma guard_false (img_info : ImageRef) (s : State) :
  img_xref img_info ≠ 0%Z → img_xref img_info ∉ processed_xrefs s →
  bool_decide (img_xref img_info = 0%Z)
  || bool_decide (img_xref img_info ∈ processed_xrefs s) = false.
Proof.
  intros H0 Hp.
  by rewrite (bool_decide_eq_false_2 _ H0), (bool_decide_eq_false_2 _ Hp).
Qed.

(** Lines 84-99 when the rectangles were retrieved. *)
Lemma process_image_rects (img_info : ImageRef) (rects : list Rect) (s : State) :
  img_xref img_info ≠ 0%Z → img_xref img_info ∉ processed_xrefs s →
  get_image_rects img_info = Return rects →
  process img_info s =
    if skipped header_limit footer_limit rects
    then (Return (), skip_state page_num img_info s)
    else extract img_info (keep_state page_num img_info s).
Proof.
  intros H0 Hp Hr. unfold process_image, bind, gets.
  rewrite (guard_false _ _ H0 Hp).
  unfold try_except, call. rewrite Hr.
  destruct (skipped header_limit footer_limit rects); reflexivity.
Qed.

(** Lines 78-81 and 92-99 when retrieving the rectangles raised. *)
Lemma process_image_rects_error (img_info : ImageRef) (e : exn) (s : State) :
  img_xref img_info ≠ 0%Z → img_xref img_info ∉ processed_xrefs s →
  get_image_rects img_info = Raise e → is_Exception e = true →
  process img_info s =
    extract img_info
      (add_processed (img_xref img_info)
         (emit (Print (WarnRects (img_xref img_info) (page_num + 1) e))
            (emit (GetImageRects page_num (img_xref img_info)) s))).
Proof.
  intros H0 Hp Hr He. unfold process_image, bind, gets.
  rewrite (guard_false _ _ H0 Hp).
  unfold try_except, call, except. rewrite Hr, He. reflexivity.
Qed.

(** Lines 76-77 when retrieving the rectangles raised what no clause
    catches: the exception leaves the loop. *)
Lemma process_image_rects_interrupt (img_info : ImageRef) (e : exn) (s : State) :
  img_xref img_info ≠ 0%Z → img_xref img_info ∉ processed_xrefs s →
  get_image_rects img_info = Raise e → is_Exception e = false →
  process img_info s
  = (Raise e, emit (GetImageRects page_num (img_xref img_info)) s).
Proof.
  intros H0 Hp Hr He. unfold process_image, bind, gets.
  rewrite (guard_false _ _ H0 Hp).
  unfold try_except, call, except. rewrite Hr, He. reflexivity.
Qed.

(** The [try] of line 100 starts with the call of [extract_image], and an
    exception raised inside it is handled there. *)
Lemma try_extract_calls (img_info : ImageRef) (s : State) :
  ∃ rest, trace (extract img_info s).2
          = (trace s ++ ExtractImage page_num (img_xref img_info) :: rest)%list.
Proof.
  run_try_extract img_info; rewrite <- ?app_assoc; by eexists.
Qed.

End Steps.

End ImageSteps.
Export ImageSteps.

(** ** The header/footer filter on a page *)

Module FilterTheorems.

Local Open Scope float_scope.

(** Lines 51-69 on a page that loads, has a height the test of line 53
    lets through, and gives its image list: the loop runs with the limits of
    lines 57-58. *)
Lemma process_page_valid
    (pdf_gcs_name image_dir : string) (hr fr : float) (doc : Document)
    (page_num : nat) (page : Page) (image_list : list ImageRef) (s : State) :
  getitem doc page_num = Return page →
  (height page <=? 0) = false →
  get_images page = Return image_list →
  process_page pdf_gcs_name image_dir hr fr doc page_num s
  = for_each image_list
      (process_image pdf_gcs_name image_dir page_num
         (height page * hr) (height page * (1.0 - fr)))
      (page_state page_num s).
Proof.
  intros Hp Hh Hl. unfold process_page, bind, call, try_except.
  rewrite Hp, Hh, Hl. reflexivity.
Qed.

(** The [try] of line 100 leaves the counter of skipped placements alone. *)
Lemma try_extract_skipped_counter
    (pdf_gcs_name image_dir : string) (page_num : nat) (img_info : ImageRef)
    (s : State) :
  skipped_header_footer (try_extract pdf_gcs_name image_dir page_num img_info s).2
  = skipped_header_footer s.
Proof.
  run_try_extract img_info; reflexivity.
Qed.

(** A skipped reference and an extracted one leave different states. *)
Lemma skip_is_not_keep
    (pdf_gcs_name image_dir : string) (page_num : nat) (img_info : ImageRef)
    (s : State) :
  try_extract pdf_gcs_name image_dir page_num img_info (keep_state page_num img_info s)
  ≠ (Return (), skip_state page_num img_info s).
Proof.
  intros Heq.
  pose proof (try_extract_skipped_counter pdf_gcs_name image_dir page_num
                img_info (keep_state page_num img_info s)) as Hk.
  rewrite Heq in Hk. simpl in Hk. lia.
Qed.

Lemma zone_or_band hl fl rects :
  ¬ Forall (in_zone hl fl) rects → Exists (in_band hl fl) rects.
Proof.
  intros Hn. apply scan_rects_Exists.
  destruct (scan_rects hl fl rects) eqn:E; [|reflexivity].
  apply scan_rects_Forall in E. contradiction.
Qed.

Lemma band_not_zone hl fl rects :
  Exists (in_band hl fl) rects → ¬ Forall (in_zone hl fl) rects.
Proof.
  intros Hb Hz. apply scan_rects_Exists in Hb. apply scan_rects_Forall in Hz.
  congruence.
Qed.

(** C1.  On a page of positive height, with the validated ratios, the loop
    over the image list runs with the limits [H * hr] and [H * (1 - fr)],
    and a reference that reaches the filter with a non-empty list of
    rectangles is skipped as a header/footer placement exactly when every
    rectangle has [y1 <= H * hr] or [y0 >= H * (1 - fr)]; as soon as one
    rectangle fails both tests the reference goes on to extraction. *)
Theorem header_footer_filter_exact
    (pdf_gcs_name image_dir : string) (header_ratio footer_ratio : float)
    (doc : Document) (page_num : nat) (page : Page) (image_list : list ImageRef) :
  getitem doc page_num = Return page →
  (height page <=? 0) = false →
  get_images page = Return image_list →
  let hr := validate_ratio header_ratio in
  let fr := validate_ratio footer_ratio in
  let hl := height page * hr in
  let fl := height page * (1.0 - fr) in
  (∀ s, process_page pdf_gcs_name image_dir hr fr doc page_num s
        = for_each image_list
            (process_image pdf_gcs_name image_dir page_num hl fl)
            (page_state page_num s))
  ∧ (∀ (img_info : ImageRef) (rects : list Rect) (s : State),
       img_xref img_info ≠ 0%Z →
       img_xref img_info ∉ processed_xrefs s →
       get_image_rects img_info = Return rects →
       rects ≠ [] →
       (Forall (λ rect, (y1 rect <=? hl) = true ∨ (fl <=? y0 rect) = true) rects
        ↔ process_image pdf_gcs_name image_dir page_num hl fl img_info s
          = (Return (), skip_state page_num img_info s))
       ∧ (Exists (λ rect, (y1 rect <=? hl) = false ∧ (fl <=? y0 rect) = false) rects
          ↔ process_image pdf_gcs_name image_dir page_num hl fl img_info s
            = try_extract pdf_gcs_name image_dir page_num img_info
                (keep_state page_num img_info s))).
Proof.
  intros Hp Hh Hl hr fr hl fl. split.
  - intros s. by apply process_page_valid.
  - intros img_info rects s H0 Hs Hr Hne.
    rewrite (process_image_rects pdf_gcs_name image_dir page_num hl fl
               img_info rects s H0 Hs Hr).
    change ((Forall (in_zone hl fl) rects ↔
            (if skipped hl fl rects
             then (Return (), skip_state page_num img_info s)
             else try_extract pdf_gcs_name image_dir page_num img_info
                    (keep_state page_num img_info s))
            = (Return (), skip_state page_num img_info s))
      ∧ (Exists (in_band hl fl) rects ↔
         (if skipped hl fl rects
          then (Return (), skip_state page_num img_info s)
          else try_extract pdf_gcs_name image_dir page_num img_info
                 (keep_state page_num img_info s))
         = try_extract pdf_gcs_name image_dir page_num img_info
             (keep_state page_num img_info s))).
    destruct (skipped hl fl rects) eqn:E.
    + apply skipped_true in E as [_ Hz]. split; split; try done.
      * intros Hb. by destruct (band_not_zone hl fl rects Hb).
      * intros Heq. symmetry in Heq. by apply skip_is_not_keep in Heq.
    + apply skipped_false in E as [->|Hb]; [done|]. split; split; try done.
      * intros Hz. by destruct (band_not_zone hl fl rects Hb).
      * intros Heq. by apply skip_is_not_keep in Heq.
Qed.

(** C6.  A reference for which no rectangle is retrievable (the list is
    empty, or retrieving it raised an error) is never counted as a
    header/footer placement: it goes on to the [try] of line 100, whose first
    step is the call of [extract_image]. *)
Theorem no_rectangles_never_skipped
    (pdf_gcs_name image_dir : string) (page_num : nat)
    (header_limit footer_limit : float) (img_info : ImageRef) (s : State) :
  img_xref img_info ≠ 0%Z →
  img_xref img_info ∉ processed_xrefs s →
  let run := process_image pdf_gcs_name image_dir page_num
               header_limit footer_limit img_info s in
  (get_image_rects img_info = Return [] →
     run = try_extract pdf_gcs_name image_dir page_num img_info
             (keep_state page_num img_info s))
  ∧ (∀ e, get_image_rects img_info = Raise e → is_Exception e = true →
       run = try_extract pdf_gcs_name image_dir page_num img_info
               (add_processed (img_xref img_info)
                  (emit (Print (WarnRects (img_xref img_info) (page_num + 1) e))
                     (emit (GetImageRects page_num (img_xref img_info)) s))))
  ∧ (get_image_rects img_info = Return []
     ∨ (∃ e, get_image_rects img_info = Raise e ∧ is_Exception e = true) →
     skipped_header_footer run.2 = skipped_header_footer s
     ∧ In (ExtractImage page_num (img_xref img_info)) (trace run.2)).
Proof.
  intros H0 Hs run.
  assert (Hnil : get_image_rects img_info = Return [] →
                 run = try_extract pdf_gcs_name image_dir page_num img_info
                         (keep_state page_num img_info s)).
  { intros Hr. unfold run.
    by rewrite (process_image_rects _ _ _ _ _ _ [] s H0 Hs Hr). }
  assert (Herr : ∀ e, get_image_rects img_info = Raise e → is_Exception e = true →
                 run = try_extract pdf_gcs_name image_dir page_num img_info
                         (add_processed (img_xref img_info)
                            (emit (Print (WarnRects (img_xref img_info) (page_num + 1) e))
                               (emit (GetImageRects page_num (img_xref img_info)) s)))).
  { intros e Hr He. unfold run. by apply process_image_rects_error. }
  split; [exact Hnil|]. split; [exact Herr|].
  intros [Hr|(e & Hr & He)].
  - rewrite (Hnil Hr). split.
    + by rewrite try_extract_skipped_counter.
    + destruct (try_extract_calls pdf_gcs_name image_dir page_num img_info
                  (keep_state page_num img_info s)) as [rest ->].
      apply in_or_app. right. by left.
  - rewrite (Herr e Hr He). split.
    + by rewrite try_extract_skipped_counter.
    + match goal with |- In _ (trace (try_extract _ _ _ _ ?st).2) =>
        destruct (try_extract_calls pdf_gcs_name image_dir page_num img_info st)
          as [rest ->] end.
      apply in_or_app. right. by left.
Qed.

End FilterTheorems.

Module FilterWitnesses.

Import FilterTheorems.
Local Open Scope float_scope.

Lemma header_footer_filter_exact_witness :
  process_image "report.pdf" "out" 0%nat
    (1000 * validate_ratio 0.1) (1000 * (1.0 - validate_ratio 0.1))
    (sample_image 5 0 50) initial
  = (Return (), skip_state 0%nat (sample_image 5 0 50) initial).
Proof.
  refine (proj1 (proj1 (proj2
    (header_footer_filter_exact "report.pdf" "out" 0.1 0.1 sample_doc 0%nat
       sample_page [sample_image 5 0 50; sample_image 6 400 600] _ _ _)
    (sample_image 5 0 50) [mkRect 0 0 100 50] initial _ _ _ _)) _).
  - reflexivity.
  - reflexivity.
  - reflexivity.
  - simpl. lia.
  - simpl. set_solver.
  - reflexivity.
  - discriminate.
  - constructor; [left; vm_compute; reflexivity | constructor].
Defined.

Lemma no_rectangles_never_skipped_witness :
  skipped_header_footer
    (process_image "report.pdf" "out" 0%nat 100 900 sample_no_rects initial).2
  = 0%nat
  ∧ In (ExtractImage 0 9)
       (trace (process_image "report.pdf" "out" 0%nat 100 900 sample_no_rects
                 initial).2).
Proof.
  refine (proj2 (proj2
    (no_rectangles_never_skipped "report.pdf" "out" 0%nat 100 900 sample_no_rects
       initial _ _)) _).
  - simpl. lia.
  - simpl. set_solver.
  - right. exists RuntimeError. split; reflexivity.
Defined.

End FilterWitnesses.

(** ** A program logic for [M] *)

Module Hoare.

Local Open Scope py_scope.

Lemma triple_ret {A} (P : State → Prop) (a : A) Q E :
  (∀ s, P s → Q a s) → triple P (ret a) Q E.
Proof. intros H s Hs. simpl. auto. Qed.

Lemma triple_bind {A B} (P : State → Prop) (m : M A) (k : A → M B)
    (R : A → State → Prop) Q E :
  triple P m R E → (∀ a, triple (R a) (k a) Q E) → triple P (bind m k) Q E.
Proof.
  intros Hm Hk s Hs. unfold bind. specialize (Hm s Hs).
  destruct (m s) as [[a|e] s']; [|exact Hm]. by apply Hk.
Qed.

Lemma triple_gets {A} (P : State → Prop) (f : State → A) Q E :
  (∀ s, P s → Q (f s) s) → triple P (gets f) Q E.
Proof. intros H s Hs. simpl. auto. Qed.

Lemma triple_modify (P : State → Prop) (f : State → State) Q E :
  (∀ s, P s → Q () (f s)) → triple P (modify f) Q E.
Proof. intros H s Hs. simpl. auto. Qed.

Lemma triple_print (P : State → Prop) (m : message) Q E :
  (∀ s, P s → Q () (emit (Print m) s)) → triple P (print m) Q E.
Proof. intros H. by apply triple_modify. Qed.

Lemma triple_call {A} (P : State → Prop) (ev : event) (outcome : result A) Q E :
  (∀ s a, P s → outcome = Return a → Q a (emit ev s)) →
  (∀ s e, P s → outcome = Raise e → E (emit ev s)) →
  triple P (call ev outcome) Q E.
Proof.
  intros HQ HE s Hs. unfold call. destruct outcome as [a|e]; eauto.
Qed.

Lemma triple_consequence {A} (P P' : State → Prop) (m : M A)
    (Q Q' : A → State → Prop) (E E' : State → Prop) :
  triple P' m Q' E' →
  (∀ s, P s → P' s) → (∀ a s, Q' a s → Q a s) → (∀ s, E' s → E s) →
  triple P m Q E.
Proof.
  intros H HP HQ HE s Hs. specialize (H s (HP s Hs)).
  destruct (m s) as [[a|e] s']; auto.
Qed.

(** A [try] whose body ends in [E'] when it raises: every clause starts
    there, and an exception no clause matches leaves with [E']. *)
Lemma triple_try_except {A} (P : State → Prop) (body : M A)
    (handlers : exn → option (M A)) Q (E' E : State → Prop) :
  triple P body Q E' →
  (∀ e h, handlers e = Some h → triple E' h Q E) →
  (∀ s, E' s → E s) →
  triple P (try_except body handlers) Q E.
Proof.
  intros Hb Hh HE s Hs. unfold try_except. specialize (Hb s Hs).
  destruct (body s) as [[a|e] s']; [exact Hb|].
  destruct (handlers e) as [h|] eqn:Hhe; [|by apply HE].
  by apply (Hh e h Hhe).
Qed.

(** A loop with an invariant indexed by the number of rounds done. *)
Lemma triple_for_each_from {X} (I : nat → State → Prop) (E : State → Prop)
    (body : X → M unit) (xs : list X) (n : nat) :
  (∀ i x, xs !! i = Some x → triple (I (n + i)) (body x) (λ _, I (S (n + i))) E) →
  triple (I n) (for_each xs body) (λ _, I (n + length xs)) E.
Proof.
  revert n. induction xs as [|x rest IH]; intros n Hbody.
  - apply triple_ret. intros s Hs. by rewrite Nat.add_0_r.
  - simpl. eapply triple_bind.
    + specialize (Hbody 0 x eq_refl). rewrite Nat.add_0_r in Hbody. exact Hbody.
    + intros u. eapply triple_consequence; [apply (IH (S n))|..].
      * intros i y Hy. specialize (Hbody (S i) y Hy).
        by replace (n + S i) with (S n + i) in Hbody by lia.
      * auto.
      * intros u' s Hs.
        by replace (n + S (length rest)) with (S n + length rest) by lia.
      * auto.
Qed.

(** A loop that keeps one invariant. *)
Lemma triple_for_each {X} (I E : State → Prop) (body : X → M unit) (xs : list X) :
  (∀ x, x ∈ xs → triple I (body x) (λ _, I) E) →
  triple I (for_each xs body) (λ _, I) E.
Proof.
  intros Hbody.
  apply (triple_for_each_from (λ _, I) E body xs 0).
  intros i x Hx. apply Hbody. by eapply list_elem_of_lookup_2.
Qed.

Lemma preserves_triple {A} (I : State → Prop) (m : M A) :
  preserves I m ↔ triple I m (λ _, I) I.
Proof.
  unfold preserves, triple. split; intros H s Hs; specialize (H s Hs).
  - by destruct (m s) as [[a|e] s'].
  - by destruct (m s) as [[a|e] s'].
Qed.

Lemma preserves_bind {A B} (I : State → Prop) (m : M A) (k : A → M B) :
  preserves I m → (∀ a, preserves I (k a)) → preserves I (bind m k).
Proof.
  rewrite !preserves_triple. intros Hm Hk.
  eapply triple_bind; [exact Hm|]. intros a. by apply preserves_triple.
Qed.

Lemma preserves_ret {A} (I : State → Prop) (a : A) : preserves I (ret a).
Proof. by intros s Hs. Qed.

Lemma preserves_gets {A} (I : State → Prop) (f : State → A) : preserves I (gets f).
Proof. by intros s Hs. Qed.

Lemma preserves_modify (I : State → Prop) (f : State → State) :
  (∀ s, I s → I (f s)) → preserves I (modify f).
Proof. intros H s Hs. by apply H. Qed.

Lemma preserves_call {A} (I : State → Prop) (ev : event) (outcome : result A) :
  (∀ s, I s → I (emit ev s)) → preserves I (call ev outcome).
Proof. intros H s Hs. by apply H. Qed.

Lemma preserves_when (I : State → Prop) (b : bool) (m : M unit) :
  preserves I m → preserves I (when b m).
Proof. destruct b; [done|]. intros _. apply preserves_ret. Qed.

Lemma preserves_try_except {A} (I : State → Prop) (body : M A)
    (handlers : exn → option (M A)) :
  preserves I body → (∀ e h, handlers e = Some h → preserves I h) →
  preserves I (try_except body handlers).
Proof.
  rewrite !preserves_triple. intros Hb Hh.
  eapply triple_try_except; [exact Hb| |auto].
  intros e h He. apply preserves_triple. by eapply Hh.
Qed.

Lemma preserves_except {A} (I : State → Prop) (C : exn → bool) (h : exn → M A) :
  (∀ e, preserves I (h e)) → ∀ e h', except C h e = Some h' → preserves I h'.
Proof.
  intros H e h'. unfold except. destruct (C e); [|done]. intros [= <-]. apply H.
Qed.

Lemma preserves_orelse {A} (I : State → Prop) (h1 h2 : exn → option (M A)) :
  (∀ e h, h1 e = Some h → preserves I h) →
  (∀ e h, h2 e = Some h → preserves I h) →
  ∀ e h, orelse h1 h2 e = Some h → preserves I h.
Proof.
  intros H1 H2 e h. unfold orelse. destruct (h1 e) as [h'|] eqn:E1.
  - intros [= <-]. by eapply H1.
  - by apply H2.
Qed.

Lemma preserves_try_finally {A} (I : State → Prop) (body : M A) (final : M unit) :
  preserves I body → preserves I final → preserves I (try_finally body final).
Proof.
  intros Hb Hf s Hs. unfold try_finally.
  specialize (Hb s Hs). destruct (body s) as [r s']. simpl in Hb.
  specialize (Hf s' Hb). by destruct (final s') as [[u|e] s''].
Qed.

Lemma preserves_for_each {X} (I : State → Prop) (body : X → M unit) (xs : list X) :
  (∀ x, x ∈ xs → preserves I (body x)) → preserves I (for_each xs body).
Proof.
  intros H. apply preserves_triple, triple_for_each.
  intros x Hx. by apply preserves_triple, H.
Qed.

Lemma triple_try_finally {A} (P R : State → Prop) (body : M A) (final : M unit) :
  triple P body (λ _, R) R → preserves R final →
  triple P (try_finally body final) (λ _, R) R.
Proof.
  intros Hb Hf s Hs. unfold try_finally. specialize (Hb s Hs).
  destruct (body s) as [r s'].
  assert (R s') as HR by (by destruct r).
  specialize (Hf s' HR). by destruct (final s') as [[u|e] s'']; destruct r.
Qed.

Lemma triple_final {A} (P : State → Prop) (m : M A) (R : State → Prop) (s : State) :
  triple P m (λ _, R) R → P s → R (m s).2.
Proof. intros H Hs. specialize (H s Hs). by destruct (m s) as [[a|e] s']. Qed.

End Hoare.
Export Hoare.

(** ** Decimal numerals in names *)

Module Decimal.

Lemma append_cons (c : ascii) (s t : string) : String c s ++ t = String c (s ++ t).
Proof. reflexivity. Qed.

Lemma append_assoc (s t u : string) : (s ++ t) ++ u = s ++ (t ++ u).
Proof. induction s as [|c s IH]; [done|]. by rewrite !append_cons, IH. Qed.

Lemma all_digits_app (s t : string) :
  all_digits (s ++ t) = all_digits s && all_digits t.
Proof.
  induction s as [|c s IH]; [done|].
  rewrite append_cons. simpl. by rewrite IH, andb_assoc.
Qed.

Lemma pretty_N_char_digit (x : N) : is_digit (pretty_N_char x) = true.
Proof. unfold pretty_N_char. repeat case_match; reflexivity. Qed.

Lemma pretty_N_go_digits (x : N) (s : string) :
  ∃ d, pretty_N_go x s = d ++ s ∧ all_digits d = true.
Proof.
  revert s. induction (N.lt_wf_0 x) as [x _ IH]; intros s.
  destruct (decide (x = 0)%N) as [->|Hx].
  - exists "". by rewrite pretty_N_go_0.
  - rewrite pretty_N_go_step by lia.
    destruct (IH (x `div` 10)%N) with (s := String (pretty_N_char (x `mod` 10)) s)
      as (d & Heq & Hd).
    { apply N.div_lt; lia. }
    exists (d ++ String (pretty_N_char (x `mod` 10)) "").
    rewrite Heq. split.
    + by rewrite append_assoc.
    + rewrite all_digits_app, Hd. simpl. by rewrite pretty_N_char_digit.
Qed.

Lemma of_nat_digits (n : nat) : all_digits (pretty n) = true.
Proof.
  unfold pretty, pretty_nat, pretty, pretty_N.
  case_decide; [reflexivity|].
  destruct (pretty_N_go_digits (N.of_nat n) "") as (d & Heq & Hd).
  rewrite Heq, all_digits_app, Hd. reflexivity.
Qed.

(** Two digit strings followed by characters that are not digits: equal
    wholes have equal parts. *)
Lemma digits_then_other (d1 d2 : string) (c1 c2 : ascii) (r1 r2 : string) :
  all_digits d1 = true → all_digits d2 = true →
  is_digit c1 = false → is_digit c2 = false →
  d1 ++ String c1 r1 = d2 ++ String c2 r2 → d1 = d2 ∧ String c1 r1 = String c2 r2.
Proof.
  revert d2. induction d1 as [|a d1 IH]; intros [|b d2];
    rewrite ?append_cons; simpl; intros H1 H2 Hc1 Hc2 Heq.
  - done.
  - injection Heq as -> _. apply andb_true_iff in H2 as [H2 _]. congruence.
  - injection Heq as <- _. apply andb_true_iff in H1 as [H1 _]. congruence.
  - injection Heq as -> Heq.
    apply andb_true_iff in H1 as [_ H1]. apply andb_true_iff in H2 as [_ H2].
    destruct (IH d2 H1 H2 Hc1 Hc2 Heq) as [-> ?]. done.
Qed.

End Decimal.

(** ** What one run writes to the bucket *)

Module Output.

Import Decimal.

Lemma final_image_name_inj (base : string) (p i q j : nat) :
  final_image_name base p i = final_image_name base q j → p = q ∧ i = j.
Proof.
  unfold final_image_name. intros H.
  apply (inj (String.append base)) in H.
  apply (inj (String.append "_page_")) in H.
  change ("_img_" ++ ?x) with (String "_" ("img_" ++ x)) in H.
  apply digits_then_other in H as [Hp H];
    [|apply of_nat_digits|apply of_nat_digits|reflexivity|reflexivity].
  injection H as H.
  apply (inj (String.append "")) in H.
  change (".jpg") with (String "." "jpg") in H.
  apply digits_then_other in H as [Hi _];
    [|apply of_nat_digits|apply of_nat_digits|reflexivity|reflexivity].
  apply (inj pretty) in Hp. apply (inj pretty) in Hi. lia.
Qed.

Lemma written_blob_path_inj (image_dir base : string) (i j : nat) (w w' : Written) :
  blob_path (written_blob image_dir base i w)
  = blob_path (written_blob image_dir base j w') → i = j.
Proof.
  unfold written_blob, jpeg_blob, final_blob_path. simpl. intros H.
  apply (inj (String.append (Str.strip "/" image_dir))) in H.
  apply (inj (String.append "/")) in H.
  by apply final_image_name_inj in H as [_ ?].
Qed.

(** Images written in one run have pairwise different paths. *)
Lemma written_paths_NoDup (image_dir base : string) (ws : list Written) :
  NoDup (map blob_path (imap (written_blob image_dir base) ws)).
Proof.
  apply NoDup_alt. intros i j path Hi Hj.
  rewrite list_lookup_fmap, list_lookup_imap in Hi, Hj.
  destruct (ws !! i) as [w|]; [|done]. destruct (ws !! j) as [w'|]; [|done].
  simpl in Hi, Hj.
  apply (written_blob_path_inj image_dir base i j w w').
  unfold written_blob, jpeg_blob. simpl. congruence.
Qed.

Section Run.

Variables (pdf_gcs_name image_dir : string) (pages : nat) (b0 : list Blob).

Local Abbreviation inv :=
  (writes image_dir (pdf_filename_base pdf_gcs_name) pages b0).

Lemma writes_store (s : State) (w : Written) :
  inv s → valid_written pages w →
  inv (set_image_count (image_count s + 1)
         (store (written_blob image_dir (pdf_filename_base pdf_gcs_name)
                   (image_count s) w) s)).
Proof.
  intros (ws & Hb & Hc & Hv) Hw. exists (ws ++ [w])%list. simpl.
  rewrite Hb, Hc, imap_app, length_app, Forall_app. simpl.
  rewrite Nat.add_0_r, <- app_assoc. repeat split; [done|].
  by constructor.
Qed.

Lemma try_extract_writes (page_num : nat) (img_info : ImageRef) :
  page_num < pages →
  preserves inv (try_extract pdf_gcs_name image_dir page_num img_info).
Proof.
  intros Hp s Hs. run_try_extract img_info; try exact Hs.
  match goal with
  | Hm : mode_in (mode (normalize (Opened ?data ?m ?sz))) jpeg_modes = true
    |- inv (set_image_count _ (store _ ?s')) =>
    apply (writes_store s' (mkWritten page_num data m sz)); [exact Hs|by split]
  end.
Qed.

Lemma process_image_writes (page_num : nat) (hl fl : float) (img_info : ImageRef) :
  page_num < pages →
  preserves inv (process_image pdf_gcs_name image_dir page_num hl fl img_info).
Proof.
  intros Hp. unfold process_image.
  apply preserves_bind; [apply preserves_gets|]. intros processed.
  destruct (_ || _); [apply preserves_ret|].
  apply preserves_bind.
  { apply preserves_try_except; [by apply preserves_call|].
    apply preserves_except. intros e.
    apply preserves_bind; [by apply preserves_modify|].
    intros u. apply preserves_ret. }
  intros image_rects. destruct (skipped hl fl image_rects).
  - apply preserves_bind; [by apply preserves_modify|].
    intros u. by apply preserves_modify.
  - apply preserves_bind; [by apply preserves_modify|].
    intros u. by apply try_extract_writes.
Qed.

Lemma process_page_writes (hr fr : float) (doc : Document) (page_num : nat) :
  page_num < pages →
  preserves inv (process_page pdf_gcs_name image_dir hr fr doc page_num).
Proof.
  intros Hp. unfold process_page.
  apply preserves_bind; [by apply preserves_call|]. intros page.
  destruct (_ <=? _)%float; [by apply preserves_modify|].
  apply preserves_bind.
  { apply preserves_try_except.
    - apply preserves_bind; [by apply preserves_call|].
      intros l. apply preserves_ret.
    - apply preserves_except. intros e.
      apply preserves_bind; [by apply preserves_modify|].
      intros u. apply preserves_ret. }
  intros [image_list|]; [|apply preserves_ret].
  apply preserves_bind; [by apply preserves_modify|]. intros u.
  apply preserves_for_each. intros img_info _. by apply process_image_writes.
Qed.

(** Lines 50-147, from the state in which the counters were set. *)
Lemma pages_write (hr fr : float) (doc : Document) :
  (page_count doc ≤ pages)%nat →
  preserves inv
    (for_each (seq 0 (page_count doc))
              (process_page pdf_gcs_name image_dir hr fr doc) ;;
     count <- gets image_count ;;
     print (Extracted count pdf_gcs_name image_dir) ;;
     n <- gets skipped_header_footer ;;
     when (bool_decide (0 < n)) (print (SkippedPlacements n)))%py.
Proof.
  intros Hpc. apply preserves_bind.
  { apply preserves_for_each. intros page_num Hin.
    apply process_page_writes. apply elem_of_seq in Hin. lia. }
  intros u. apply preserves_bind; [apply preserves_gets|]. intros count.
  apply preserves_bind; [by apply preserves_modify|]. intros u'.
  apply preserves_bind; [apply preserves_gets|]. intros n.
  apply preserves_when. by apply preserves_modify.
Qed.

(** The handlers of lines 149-153 and the [finally] block write nothing. *)
Lemma handlers_keep (I : State → Prop) :
  (∀ m s, I s → I (emit (Print m) s)) →
  ∀ e h,
    orelse
      (except is_RuntimeError (λ fe, print (RuntimeErrorPdf pdf_gcs_name fe)))
      (except is_Exception (λ e, print (GeneralErrorPdf pdf_gcs_name e))) e
    = Some h →
    preserves I h.
Proof.
  intros HI. apply preserves_orelse; apply preserves_except; intros e;
    apply preserves_modify; intros s; apply HI.
Qed.

Lemma release_keeps (I : State → Prop) :
  (∀ m s, I s → I (emit (Print m) s)) → (∀ s, I s → I (emit Close s)) →
  preserves I (release pdf_gcs_name).
Proof.
  intros HI HC. unfold release.
  apply preserves_bind; [apply preserves_gets|]. intros [doc|]; [|apply preserves_ret].
  destruct (truthy doc); [|apply preserves_ret].
  apply preserves_try_except; [by apply preserves_call|].
  apply preserves_except. intros e. apply preserves_modify. intros s. apply HI.
Qed.

End Run.

(** What a run of [extract_images_from_pdf] adds to the bucket. *)
Lemma extract_images_writes (opened : result Document)
    (pdf_gcs_name image_dir : string) (hr fr : float) (s : State) :
  ∃ ws : list Written,
    bucket (extract_images_from_pdf opened pdf_gcs_name image_dir hr fr s).2
    = (bucket s
       ++ imap (written_blob image_dir (pdf_filename_base pdf_gcs_name)) ws)%list
    ∧ Forall (valid_written (pages_of opened)) ws
    ∧ (returned opened = true →
       image_count (extract_images_from_pdf opened pdf_gcs_name image_dir hr fr s).2
       = length ws).
Proof.
  destruct opened as [doc|e].
  - set (I := writes image_dir (pdf_filename_base pdf_gcs_name) (page_count doc)
                (bucket s)).
    assert (I (extract_images_from_pdf (Return doc) pdf_gcs_name image_dir hr fr s).2)
      as (ws & Hb & Hc & Hv); [|by exists ws].
    apply (triple_final (λ s', bucket s' = bucket s)); [|done].
    unfold extract_images_from_pdf.
    eapply triple_bind with (R := λ _ s', bucket s' = bucket s).
    { destruct (_ <=? _)%float; simpl; [by apply triple_modify|by apply triple_ret]. }
    intros u. eapply triple_bind with (R := λ _ s', bucket s' = bucket s).
    { by apply triple_modify. }
    intros u'. apply triple_try_finally; [|by apply release_keeps].
    eapply triple_try_except with (E' := I); [| |done].
    + unfold process_document.
      eapply triple_bind with (R := λ d s', d = doc ∧ bucket s' = bucket s).
      { apply triple_call; [|done]. by intros s' a Hs [= <-]. }
      intros d. eapply triple_bind with (R := λ _ s', d = doc ∧ bucket s' = bucket s).
      { by apply triple_modify. }
      intros u1. eapply triple_bind with (R := λ _ s', d = doc ∧ I s').
      { apply triple_modify. intros s' [-> Hs]. split; [done|].
        exists []. simpl. by rewrite Hs, app_nil_r. }
      intros u2. eapply triple_bind with (R := λ _ s', d = doc ∧ I s').
      { by apply triple_modify. }
      intros u3. eapply triple_bind with (R := λ _ s', d = doc ∧ I s').
      { by apply triple_modify. }
      intros u4 s' [-> Hs']. revert s' Hs'.
      refine (proj1 (preserves_triple I _) _).
      by apply pages_write.
    + intros e h He. apply preserves_triple. revert e h He.
      by apply handlers_keep.
  - exists []. simpl. rewrite app_nil_r. split; [|done].
    unfold extract_images_from_pdf, when, bind, modify, print, try_finally,
      try_except, process_document, call, orelse, except, release, gets.
    destruct (_ <=? _)%float; destruct e; reflexivity.
Qed.

End Output.

(** ** Stripping the directory *)

Module StripFacts.

Import Decimal.

Lemma append_nil_r (s : string) : s ++ "" = s.
Proof. induction s as [|c s IH]; [done|]. by rewrite append_cons, IH. Qed.

Lemma rev_app_rev_app (s t u : string) :
  String.rev_app (String.rev_app s t) u = String.rev_app t (s ++ u).
Proof.
  revert t u. induction s as [|a s IH]; intros t u; simpl; [done|].
  by rewrite IH.
Qed.

Lemma rev_involutive (s : string) : String.rev (String.rev s) = s.
Proof.
  unfold String.rev. rewrite rev_app_rev_app. simpl. apply append_nil_r.
Qed.

Lemma lstrip_id (c : ascii) (s : string) :
  Str.startswith s (String c "") = false → Str.lstrip c s = s.
Proof.
  destruct s as [|a s]; simpl; [done|].
  rewrite Ascii.eqb_sym. destruct (Ascii.eqb a c); simpl; [|done].
  by destruct s.
Qed.

(** A directory that neither starts nor ends with the slash is kept as it
    is. *)
Lemma strip_id (s : string) :
  Str.startswith s "/" = false → Str.endswith s "/" = false →
  Str.strip "/" s = s.
Proof.
  intros Hs He. unfold Str.strip, Str.rstrip. rewrite (lstrip_id _ _ Hs).
  unfold Str.endswith in He. change (String.rev "/") with "/" in He.
  rewrite (lstrip_id _ _ He). apply rev_involutive.
Qed.

End StripFacts.

(** ** Names, counter and encoding of the written images *)

Module OutputTheorems.

Import Output StripFacts.

Lemma jpeg_mode_plain (m : string) :
  mode_in m jpeg_modes = true → has_alpha m = false ∧ has_palette m = false.
Proof.
  unfold mode_in, jpeg_modes. simpl. intros H.
  repeat (apply orb_true_iff in H as [H|H];
          [apply String.eqb_eq in H; subst m; by split|]).
  discriminate.
Qed.

(** C3.  The images a run writes are numbered 1, 2, 3, ... in the order of
    writing, through all the pages of the document: the image written after
    [i] others carries the counter [i + 1] in its name.  The counter
    [image_count] ends as the number of images written, and the written
    images have pairwise different paths. *)
Theorem running_counter_is_document_wide (opened : result Document)
    (pdf_gcs_name image_dir : string) (header_ratio footer_ratio : float)
    (s : State) :
  ∃ ws : list Written,
    bucket (extract_images_from_pdf opened pdf_gcs_name image_dir
              header_ratio footer_ratio s).2
    = (bucket s ++ added image_dir (pdf_filename_base pdf_gcs_name) ws)%list
    ∧ (returned opened = true →
       image_count (extract_images_from_pdf opened pdf_gcs_name image_dir
                      header_ratio footer_ratio s).2
       = length ws)
    ∧ (∀ (i : nat) (b : Blob),
         added image_dir (pdf_filename_base pdf_gcs_name) ws !! i = Some b →
         ∃ page_num : nat,
           blob_path b
           = final_blob_path image_dir
               (pdf_filename_base pdf_gcs_name ++ "_page_"
                  ++ Str.of_nat (page_num + 1) ++ "_img_" ++ Str.of_nat (i + 1)
                  ++ ".jpg"))
    ∧ NoDup (map blob_path (added image_dir (pdf_filename_base pdf_gcs_name) ws)).
Proof.
  destruct (extract_images_writes opened pdf_gcs_name image_dir
              header_ratio footer_ratio s) as (ws & Hb & Hv & Hc).
  exists ws. split; [exact Hb|]. split; [exact Hc|]. split.
  - intros i b Hi. unfold added in Hi. rewrite list_lookup_imap in Hi.
    destruct (ws !! i) as [w|]; [|done]. injection Hi as <-.
    by exists (w_page_num w).
  - apply written_paths_NoDup.
Qed.

(** C4, as the code has it.  Every image a run writes is stored as the JPEG
    encoding at quality 85 of the normalised image, with content type
    image/jpeg, under the path
    [{image_dir.strip('/')}/{base}_page_{N}_img_{M}.jpg], where [N] is the
    1-based number of a page of the document and [M] the 1-based position
    among the written images; the extension the library reported plays no
    part.  When the directory neither starts nor ends with a slash, this is
    [{image_dir}/{base}_page_{N}_img_{M}.jpg].  Conversely, a reference that
    enters the [try] of line 100 with image bytes and meets no failure is
    written in this way, with the counter at that moment. *)
Theorem written_objects_are_jpeg (opened : result Document)
    (pdf_gcs_name image_dir : string) (header_ratio footer_ratio : float)
    (s : State) :
  ∃ ws : list Written,
    bucket (extract_images_from_pdf opened pdf_gcs_name image_dir
              header_ratio footer_ratio s).2
    = (bucket s ++ added image_dir (pdf_filename_base pdf_gcs_name) ws)%list
    ∧ (∀ (i : nat) (b : Blob),
        added image_dir (pdf_filename_base pdf_gcs_name) ws !! i = Some b →
        ∃ (page_num : nat) (im : image),
          page_num < pages_of opened
          ∧ blob_data b = Encode "JPEG" 85 (normalize im)
          ∧ blob_content_type b = "image/jpeg"
          ∧ blob_path b
            = Str.strip "/" image_dir ++ "/" ++ pdf_filename_base pdf_gcs_name
                ++ "_page_" ++ Str.of_nat (page_num + 1)
                ++ "_img_" ++ Str.of_nat (i + 1) ++ ".jpg"
          ∧ (Str.startswith image_dir "/" = false →
             Str.endswith image_dir "/" = false →
             blob_path b
             = image_dir ++ "/" ++ pdf_filename_base pdf_gcs_name
                 ++ "_page_" ++ Str.of_nat (page_num + 1)
                 ++ "_img_" ++ Str.of_nat (i + 1) ++ ".jpg"))
    ∧ ∀ (page_num : nat) (img_info : ImageRef) (base_image : BaseImage)
        (image_bytes : list Byte.byte) (opened_image : string * (N * N))
        (s0 : State),
        extract_image img_info = Return (Some base_image) →
        bi_image base_image = Some image_bytes →
        image_bytes ≠ [] →
        first_failure img_info = None →
        image_open img_info = Return opened_image →
        try_extract pdf_gcs_name image_dir page_num img_info s0
        = (Return (),
           set_image_count (image_count s0 + 1)
             (store
                (jpeg_blob image_dir (pdf_filename_base pdf_gcs_name) page_num
                   (image_count s0)
                   (normalize
                      (Opened image_bytes opened_image.1 opened_image.2)))
                (emit
                   (UploadFromFile
                      (final_blob_path image_dir
                         (final_image_name (pdf_filename_base pdf_gcs_name)
                            page_num (image_count s0))))
                   (emit (ExtractImage page_num (img_xref img_info)) s0)))).
Proof.
  destruct (extract_images_writes opened pdf_gcs_name image_dir
              header_ratio footer_ratio s) as (ws & Hb & Hv & Hc).
  exists ws. split; [exact Hb|]. split.
  2: { intros page_num img_info base_image image_bytes opened_image s0
         He Hi Hne Hf Ho.
       unfold first_failure in Hf. rewrite He, Hi, Ho in Hf.
       unfold try_extract, try_except, extract_and_save, bind, call, pure_call,
         upload, gets, modify.
       rewrite He, Hi, Ho. destruct image_bytes as [|b bytes]; [done|]. simpl.
       destruct (save_jpeg _ _) as [u|e]; [|done]. simpl.
       by destruct (upload_from_file img_info) as [u'|e]. }
  intros i b Hi. unfold added in Hi. rewrite list_lookup_imap in Hi.
  destruct (ws !! i) as [w|] eqn:Hw; [|done]. injection Hi as <-.
  exists (w_page_num w), (decoded w).
  rewrite Forall_lookup in Hv. destruct (Hv i w Hw) as [Hp _].
  repeat split; try done.
  intros H1 H2. unfold written_blob, jpeg_blob, final_blob_path. simpl.
  by rewrite (strip_id image_dir H1 H2).
Qed.

(** C4 as stated fails: with the directory "/out/" the image goes to
    "out/report_page_1_img_1.jpg", which is not "/out/" followed by "/" and
    the name. *)
Lemma output_path_is_stripped :
  map blob_path (bucket sample_run.2)
  = ["out/report_page_1_img_1.jpg"; "out/report_page_2_img_2.jpg"]
  ∧ "out/report_page_1_img_1.jpg" ≠ "/out/" ++ "/" ++ "report_page_1_img_1.jpg".
Proof. split; [vm_compute; reflexivity | discriminate]. Qed.

(** C5, as the code has it.  An image decoded in mode RGBA or LA is pasted,
    with its last band as the mask, onto a new white RGB image of the same
    size; an image in mode P is converted to RGB; in both cases the result
    has mode RGB, without alpha band or palette.  An image in any other mode
    is handed to the encoder as it is.  Whatever the mode, an image that a
    run writes has neither an alpha band nor a palette, the JPEG encoder
    refusing the others. *)
Theorem normalization_by_mode (pil_image : image) :
  (mode_in (mode pil_image) ["RGBA"; "LA"] = true →
     normalize pil_image
     = Pasted (New "RGB" (size pil_image) white) pil_image (LastBand pil_image)
     ∧ size (normalize pil_image) = size pil_image
     ∧ mode (normalize pil_image) = "RGB")
  ∧ (mode pil_image = "P" →
       normalize pil_image = Converted pil_image "RGB"
       ∧ size (normalize pil_image) = size pil_image
       ∧ mode (normalize pil_image) = "RGB")
  ∧ (mode_in (mode pil_image) ["RGBA"; "P"; "LA"] = false →
       normalize pil_image = pil_image)
  ∧ has_alpha "RGB" = false ∧ has_palette "RGB" = false
  ∧ ∀ (opened : result Document) (pdf_gcs_name image_dir : string)
      (header_ratio footer_ratio : float) (s : State),
      ∃ ws : list Written,
        bucket (extract_images_from_pdf opened pdf_gcs_name image_dir
                  header_ratio footer_ratio s).2
        = (bucket s ++ added image_dir (pdf_filename_base pdf_gcs_name) ws)%list
        ∧ ∀ b, b ∈ added image_dir (pdf_filename_base pdf_gcs_name) ws →
            ∃ im, blob_data b = Encode "JPEG" 85 (normalize im)
                  ∧ has_alpha (mode (normalize im)) = false
                  ∧ has_palette (mode (normalize im)) = false.
Proof.
  split; [|split; [|split; [|split; [|split]]]]; try reflexivity.
  - unfold normalize, mode_in. simpl. intros H.
    apply orb_true_iff in H as [H|H].
    + apply String.eqb_eq in H. rewrite H. by simpl.
    + rewrite orb_false_r in H. apply String.eqb_eq in H. rewrite H. by simpl.
  - unfold normalize. intros ->. by simpl.
  - unfold normalize. by intros ->.
  - intros opened pdf_gcs_name image_dir header_ratio footer_ratio s.
    destruct (extract_images_writes opened pdf_gcs_name image_dir
                header_ratio footer_ratio s) as (ws & Hb & Hv & Hc).
    exists ws. split; [exact Hb|]. intros b Hin.
    apply list_elem_of_lookup_1 in Hin as [i Hi].
    unfold added in Hi. rewrite list_lookup_imap in Hi.
    destruct (ws !! i) as [w|] eqn:Hw; [|done]. injection Hi as <-.
    exists (decoded w). split; [done|].
    rewrite Forall_lookup in Hv. destruct (Hv i w Hw) as [_ Hm].
    by apply jpeg_mode_plain.
Qed.

(** C5 as stated fails: mode "PA" carries an alpha band and a palette, and
    an image decoded in it is not composited; it leaves the normalisation as
    it entered, with both. *)
Lemma alpha_palette_mode_left_alone :
  has_alpha (mode sample_pa) = true
  ∧ normalize sample_pa = sample_pa
  ∧ normalize sample_pa
    ≠ Pasted (New "RGB" (size sample_pa) white) sample_pa (LastBand sample_pa)
  ∧ has_alpha (mode (normalize sample_pa)) = true
  ∧ has_palette (mode (normalize sample_pa)) = true.
Proof. repeat split; try reflexivity. discriminate. Qed.

End OutputTheorems.

(** ** Ratios that add up to one or more *)

Module OverlapTheorems.

Import FloatFacts FilterTheorems.
Local Open Scope float_scope.

(** Away from NaN, a rectangle reaches into the band exactly when its bottom
    edge is below the header limit and its top edge above the footer limit. *)
Lemma in_band_strict (hl fl : float) (rect : Rect) :
  is_nan hl = false → is_nan fl = false →
  is_nan (y0 rect) = false → is_nan (y1 rect) = false →
  in_band hl fl rect ↔ (hl <? y1 rect) = true ∧ (y0 rect <? fl) = true.
Proof.
  intros Hhl Hfl H0 H1. unfold in_band.
  rewrite (leb_negb_ltb (y1 rect) hl H1 Hhl), (leb_negb_ltb fl (y0 rect) Hfl H0).
  by rewrite !negb_false_iff.
Qed.

(** C10 as stated fails on its first part: with height 1000 and the ratios
    0.58 and 0.42, both in [0, 1) and of sum 1.0 as line 38 adds them in
    binary64, the header limit is 580.0 and the footer limit
    580.00000000000011, so the header limit is below the footer limit. *)
Lemma overlap_limits_not_ordered :
  validate_ratio 0.58 = 0.58
  ∧ validate_ratio 0.42 = 0.42
  ∧ (1.0 <=? 0.58 + 0.42) = true
  ∧ (0 <? 1000) = true
  ∧ (footer_limit 1000 0.42 <=? header_limit 1000 0.58) = false
  ∧ (header_limit 1000 0.58 <? footer_limit 1000 0.42) = true.
Proof. repeat split; vm_compute; reflexivity. Qed.

(** C10, as the code has it.  Whatever the ratios, and so also when the
    test of line 38 finds their sum to be 1 or more, a reference that reaches
    the filter with a non-empty list of rectangles goes on to extraction
    exactly when one of its rectangles fails both tests [y1 <= H * hr] and
    [y0 >= H * (1 - fr)], and is skipped otherwise.  For limits and edges
    that are not NaN, failing both tests is [y1 > H * hr] and
    [y0 < H * (1 - fr)].  With height 1000 and both ratios 0.6 the rectangle
    from 450 to 550 is skipped and the one from 300 to 700 is kept: the
    filter neither keeps nor skips everything.  The test of line 38 does not
    put the limits in order: with height 1000 and the ratios 0.58 and 0.42,
    both left as they are by lines 36-37, the test holds and the header limit
    is below the footer limit. *)
Theorem overlapping_zones_keep_band
    (pdf_gcs_name image_dir : string) (page_num : nat)
    (page_height header_ratio footer_ratio : float)
    (img_info : ImageRef) (rects : list Rect) (s : State) :
  img_xref img_info ≠ 0%Z →
  img_xref img_info ∉ processed_xrefs s →
  get_image_rects img_info = Return rects →
  rects ≠ [] →
  let hl := header_limit page_height header_ratio in
  let fl := footer_limit page_height footer_ratio in
  let run := process_image pdf_gcs_name image_dir page_num hl fl img_info s in
  let kept := try_extract pdf_gcs_name image_dir page_num img_info
                (keep_state page_num img_info s) in
  (Exists (λ rect, (y1 rect <=? hl) = false ∧ (fl <=? y0 rect) = false) rects
   ↔ run = kept)
  ∧ (¬ Exists (λ rect, (y1 rect <=? hl) = false ∧ (fl <=? y0 rect) = false) rects
     ↔ run = (Return (), skip_state page_num img_info s))
  ∧ (is_nan hl = false → is_nan fl = false →
     Forall (λ rect, is_nan (y0 rect) = false ∧ is_nan (y1 rect) = false) rects →
     (Exists (λ rect, (hl <? y1 rect) = true ∧ (y0 rect <? fl) = true) rects
      ↔ run = kept))
  ∧ ((1.0 <=? 0.6 + 0.6) = true
     ∧ skipped (header_limit 1000 0.6) (footer_limit 1000 0.6)
               [mkRect 0 450 100 550] = true
     ∧ skipped (header_limit 1000 0.6) (footer_limit 1000 0.6)
               [mkRect 0 300 100 700] = false)
  ∧ (validate_ratio 0.58 = 0.58
     ∧ validate_ratio 0.42 = 0.42
     ∧ (0 <? 1000) = true
     ∧ (1.0 <=? 0.58 + 0.42) = true
     ∧ (header_limit 1000 0.58 <? footer_limit 1000 0.42) = true).
Proof.
  intros H0 Hs Hr Hne hl fl run kept.
  assert (Hrun : run = if skipped hl fl rects
                       then (Return (), skip_state page_num img_info s)
                       else kept).
  { unfold run. by apply process_image_rects. }
  assert (Hband : Exists (in_band hl fl) rects ↔ run = kept).
  { rewrite Hrun. destruct (skipped hl fl rects) eqn:E.
    - apply skipped_true in E as [_ Hz]. split.
      + intros Hb. by destruct (band_not_zone hl fl rects Hb).
      + intros Heq. symmetry in Heq. by apply skip_is_not_keep in Heq.
    - apply skipped_false in E as [->|Hb]; done. }
  split; [exact Hband|]. split; [|split; [|split]].
  - change (¬ Exists (in_band hl fl) rects
            ↔ run = (Return (), skip_state page_num img_info s)).
    rewrite Hrun. destruct (skipped hl fl rects) eqn:E.
    + apply skipped_true in E as [_ Hz]. split; [done|].
      intros _ Hb. by destruct (band_not_zone hl fl rects Hb).
    + apply skipped_false in E as [->|Hb]; [done|]. split; [done|].
      intros Heq. by apply skip_is_not_keep in Heq.
  - intros Hhl Hfl Hnan. rewrite <- Hband.
    rewrite !Exists_exists. rewrite Forall_forall in Hnan.
    split; intros (rect & Hin & Hrect); exists rect; (split; [exact Hin|]);
      destruct (Hnan rect Hin) as [Hy0 Hy1].
    + by apply in_band_strict.
    + by apply (in_band_strict hl fl rect Hhl Hfl Hy0 Hy1).
  - repeat split; vm_compute; reflexivity.
  - repeat split; vm_compute; reflexivity.
Qed.

Lemma overlapping_zones_keep_band_witness :
  process_image "report.pdf" "out" 0%nat
    (header_limit 1000 0.6) (footer_limit 1000 0.6)
    (sample_image 6 300 700) initial
  = try_extract "report.pdf" "out" 0%nat (sample_image 6 300 700)
      (keep_state 0%nat (sample_image 6 300 700) initial).
Proof.
  refine (proj1 (proj1
    (overlapping_zones_keep_band "report.pdf" "out" 0%nat 1000 0.6 0.6
       (sample_image 6 300 700) [mkRect 0 300 100 700] initial _ _ _ _)) _).
  - simpl. lia.
  - simpl. set_solver.
  - reflexivity.
  - discriminate.
  - constructor. split; vm_compute; reflexivity.
Defined.

End OverlapTheorems.

(** ** Failures stay where they happen *)

Module Containment.

Local Open Scope float_scope.

(** A round of a loop that returns lets the loop go on with the rest. *)
Lemma for_each_continue {X} (body : X → M unit) (x : X) (rest : list X)
    (s s' : State) :
  body x s = (Return (), s') →
  for_each (x :: rest) body s = for_each rest body s'.
Proof. intros H. simpl. unfold bind. by rewrite H. Qed.

(** A round that raises ends the loop. *)
Lemma for_each_abort {X} (body : X → M unit) (x : X) (rest : list X)
    (s s' : State) (e : exn) :
  body x s = (Raise e, s') →
  for_each (x :: rest) body s = (Raise e, s').
Proof. intros H. simpl. unfold bind. by rewrite H. Qed.

(** A failure inside the [try] of line 100 is printed; nothing is written
    and the counter stays. *)
Lemma try_extract_failure (pdf_gcs_name image_dir : string) (page_num : nat)
    (img_info : ImageRef) (e : exn) (s : State) :
  first_failure img_info = Some e → is_Exception e = true →
  ∃ (s' : State) (mid : list event),
    try_extract pdf_gcs_name image_dir page_num img_info s = (Return (), s')
    ∧ bucket s' = bucket s
    ∧ image_count s' = image_count s
    ∧ skipped_header_footer s' = skipped_header_footer s
    ∧ processed_xrefs s' = processed_xrefs s
    ∧ pdf_document s' = pdf_document s
    ∧ trace s'
      = (trace s ++ ExtractImage page_num (img_xref img_info) :: mid
           ++ [Print (ErrorImage (img_xref img_info) (page_num + 1)
                        pdf_gcs_name e)])%list.
Proof.
  unfold first_failure, try_extract, try_except, extract_and_save, bind, call,
    except, pure_call, upload, gets, modify, print.
  intros Hf He.
  destruct (extract_image img_info) as [[base|]|e1]; simpl in *;
    [|discriminate|].
  - destruct (bi_image base) as [[|b bytes]|]; simpl in *; try discriminate.
    destruct (image_open img_info) as [opened|e2]; simpl in *.
    + destruct (save_jpeg _ _) as [u|e3]; simpl in *.
      * destruct (upload_from_file img_info) as [u'|e4]; simpl in *;
          [discriminate|].
        injection Hf as ->. rewrite He. simpl.
        eexists _, [_]. repeat split. simpl. by rewrite <- !app_assoc.
      * injection Hf as ->. rewrite He. simpl.
        eexists _, []. repeat split. simpl. by rewrite <- !app_assoc.
    + injection Hf as ->. rewrite He. simpl.
      eexists _, []. repeat split. simpl. by rewrite <- !app_assoc.
  - injection Hf as ->. rewrite He. simpl.
    eexists _, []. repeat split. simpl. by rewrite <- !app_assoc.
Qed.

(** A reference that passes the filter enters the [try] of line 100, marked
    as processed. *)
Lemma process_image_enters (pdf_gcs_name image_dir : string) (page_num : nat)
    (hl fl : float) (img_info : ImageRef) (s : State) :
  img_xref img_info ≠ 0%Z → img_xref img_info ∉ processed_xrefs s →
  passes_filter hl fl img_info →
  ∃ (s0 : State) (pre : list event),
    process_image pdf_gcs_name image_dir page_num hl fl img_info s
    = try_extract pdf_gcs_name image_dir page_num img_info s0
    ∧ bucket s0 = bucket s
    ∧ image_count s0 = image_count s
    ∧ skipped_header_footer s0 = skipped_header_footer s
    ∧ processed_xrefs s0 = {[ img_xref img_info ]} ∪ processed_xrefs s
    ∧ pdf_document s0 = pdf_document s
    ∧ trace s0 = (trace s ++ pre)%list.
Proof.
  intros H0 Hs Hp. unfold passes_filter in Hp.
  destruct (get_image_rects img_info) as [rects|e] eqn:Hr.
  - rewrite (process_image_rects _ _ _ _ _ _ rects s H0 Hs Hr), Hp.
    by eexists _, [_].
  - rewrite (process_image_rects_error _ _ _ _ _ _ e s H0 Hs Hr Hp).
    eexists _, [_; _]. repeat split. simpl. by rewrite <- app_assoc.
Qed.

(** C8.  (1) When retrieving the image list of a page raises an error, the
    page ends there, with the error printed and nothing else changed, and
    the loop over the pages goes on with the following pages.  (2) When
    extracting, decoding, encoding or uploading one reference raises an
    error, the round for that reference ends normally, with the error
    printed, nothing written and the counter unchanged, and the loop over
    the image list goes on with the following references.  In neither case
    does the exception leave the loop. *)
Theorem failures_are_contained
    (pdf_gcs_name image_dir : string) (header_ratio footer_ratio : float)
    (doc : Document) (page_num : nat) (e : exn) :
  is_Exception e = true →
  (∀ (page : Page) (s : State),
     getitem doc page_num = Return page →
     (height page <=? 0) = false →
     get_images page = Raise e →
     let s' := emit (Print (ErrorImageList (page_num + 1) pdf_gcs_name e))
                 (emit (GetImages page_num) (emit (LoadPage page_num) s)) in
     process_page pdf_gcs_name image_dir header_ratio footer_ratio doc page_num s
     = (Return (), s')
     ∧ ∀ rest,
         for_each (page_num :: rest)
           (process_page pdf_gcs_name image_dir header_ratio footer_ratio doc) s
         = for_each rest
             (process_page pdf_gcs_name image_dir header_ratio footer_ratio doc) s')
  ∧ (∀ (hl fl : float) (img_info : ImageRef) (s : State),
       img_xref img_info ≠ 0%Z →
       img_xref img_info ∉ processed_xrefs s →
       passes_filter hl fl img_info →
       first_failure img_info = Some e →
       ∃ (s' : State) (events : list event),
         process_image pdf_gcs_name image_dir page_num hl fl img_info s
         = (Return (), s')
         ∧ bucket s' = bucket s
         ∧ image_count s' = image_count s
         ∧ skipped_header_footer s' = skipped_header_footer s
         ∧ pdf_document s' = pdf_document s
         ∧ trace s'
           = (trace s ++ events
                ++ [Print (ErrorImage (img_xref img_info) (page_num + 1)
                             pdf_gcs_name e)])%list
         ∧ ∀ rest,
             for_each (img_info :: rest)
               (process_image pdf_gcs_name image_dir page_num hl fl) s
             = for_each rest
                 (process_image pdf_gcs_name image_dir page_num hl fl) s').
Proof.
  intros He. split.
  - intros page s Hp Hh Hl s'.
    assert (Hrun : process_page pdf_gcs_name image_dir header_ratio footer_ratio
                     doc page_num s = (Return (), s')).
    { unfold process_page, bind, call, try_except, except, print, modify.
      rewrite Hp, Hh, Hl, He. reflexivity. }
    split; [exact Hrun|]. intros rest. by apply for_each_continue.
  - intros hl fl img_info s H0 Hs Hp Hf.
    destruct (process_image_enters pdf_gcs_name image_dir page_num hl fl
                img_info s H0 Hs Hp)
      as (s0 & pre & Hrun & Hb & Hc & Hk & Hx & Hd & Ht).
    destruct (try_extract_failure pdf_gcs_name image_dir page_num img_info e s0
                Hf He) as (s' & mid & Htry & Hb' & Hc' & Hk' & Hx' & Hd' & Ht').
    exists s', (pre ++ ExtractImage page_num (img_xref img_info) :: mid)%list.
    rewrite Hrun, Htry. repeat split; try congruence.
    + rewrite Ht', Ht. by rewrite <- !app_assoc.
    + intros rest. apply for_each_continue. by rewrite Hrun.
Qed.

Lemma failures_are_contained_witness :
  process_page "report.pdf" "out" 0.1 0.1 sample_doc_unlisted 0%nat initial
  = (Return (),
     emit (Print (ErrorImageList 1 "report.pdf" RuntimeError))
       (emit (GetImages 0) (emit (LoadPage 0) initial))).
Proof.
  refine (proj1 (proj1
    (failures_are_contained "report.pdf" "out" 0.1 0.1 sample_doc_unlisted 0%nat
       RuntimeError _) sample_unlisted initial _ _ _)); reflexivity.
Defined.

End Containment.

(** ** The validation gate of the trigger *)

Module Gate.

Import Decimal StripFacts.

Lemma startswith_spec (s p : string) :
  Str.startswith s p = true ↔ ∃ r, s = p ++ r.
Proof.
  revert s. induction p as [|a p IH]; intros [|b s]; simpl.
  - split; [by exists "" | done].
  - split; [intros _; by exists (String b s) | done].
  - split; [done | by intros [r ?]].
  - rewrite andb_true_iff, IH, Ascii.eqb_eq. split.
    + intros [-> [r ->]]. by exists r.
    + intros [r Hr]. rewrite append_cons in Hr. injection Hr as -> ->.
      split; [done | by exists r].
Qed.

Lemma rev_app_append (s t : string) : String.rev_app s t = String.rev s ++ t.
Proof.
  unfold String.rev. revert t. induction s as [|a s IH]; intros t; simpl; [done|].
  rewrite (IH (String a t)), (IH (String a "")). by rewrite append_assoc.
Qed.

Lemma rev_append (s t : string) :
  String.rev (s ++ t) = String.rev t ++ String.rev s.
Proof.
  induction s as [|a s IH].
  - simpl. change ("" ++ t) with t. by rewrite append_nil_r.
  - rewrite append_cons. unfold String.rev at 1 3. simpl.
    rewrite !rev_app_append, IH. by rewrite append_assoc.
Qed.

Lemma endswith_spec (s p : string) :
  Str.endswith s p = true ↔ ∃ r, s = r ++ p.
Proof.
  unfold Str.endswith. rewrite startswith_spec. split.
  - intros [r Hr]. exists (String.rev r).
    rewrite <- (rev_involutive s), Hr, rev_append. by rewrite rev_involutive.
  - intros [r ->]. exists (String.rev r). apply rev_append.
Qed.

Section Decide.

Variables (cfg : Config) (cloud : Cloud).

(** The gate of lines 193-205 for an event that carries the five keys. *)
Lemma handle_event_gate (ev : CloudEvent)
    (bucket_name name metageneration timeCreated updated : string) (s : State) :
  data ev !! "bucket" = Some bucket_name →
  data ev !! "name" = Some name →
  data ev !! "metageneration" = Some metageneration →
  data ev !! "timeCreated" = Some timeCreated →
  data ev !! "updated" = Some updated →
  let s' := announced ev bucket_name name metageneration timeCreated updated s in
  handle_event cfg cloud ev s =
    if not_pdf name then (Return (), emit (Print (IgnoringNonPdf name)) s')
    else if own_output cfg bucket_name name
    then (Return (), emit (Print (IgnoringOutput name)) s')
    else process_object cfg cloud bucket_name name s'.
Proof.
  intros Hb Hn Hm Ht Hu s'. unfold handle_event, bind, item, print, modify.
  rewrite Hb, Hn, Hm, Ht, Hu.
  destruct (not_pdf name); [reflexivity|].
  destruct (own_output cfg bucket_name name); reflexivity.
Qed.

(** An event that lacks one of the five keys is answered with a print. *)
Lemma missing_key_ignored (ev : CloudEvent) (s : State) :
  (data ev !! "bucket" = None ∨ data ev !! "name" = None
   ∨ data ev !! "metageneration" = None ∨ data ev !! "timeCreated" = None
   ∨ data ev !! "updated" = None) →
  ignored s (extract_images_from_pdf_gcs_trigger cfg cloud ev s).
Proof.
  intros H.
  unfold extract_images_from_pdf_gcs_trigger, try_except, handle_event, bind,
    item, outer_handlers, orelse, except, print, modify.
  destruct (data ev !! "bucket") as [b|]; simpl;
    [|repeat split; eexists; split; [reflexivity|by repeat constructor]].
  destruct (data ev !! "name") as [n|]; simpl;
    [|repeat split; eexists; split; [reflexivity|by repeat constructor]].
  destruct (data ev !! "metageneration") as [m|]; simpl;
    [|repeat split; eexists; split; [reflexivity|by repeat constructor]].
  destruct (data ev !! "timeCreated") as [t|]; simpl;
    [|repeat split; eexists; split; [reflexivity|by repeat constructor]].
  destruct (data ev !! "updated") as [u|]; simpl;
    [|repeat split; eexists; split; [reflexivity|by repeat constructor]].
  destruct H as [H|[H|[H|[H|H]]]]; discriminate.
Qed.

(** When the gate stops an event the run is a sequence of prints. *)
Lemma stopped_ignored (ev : CloudEvent) (name : string) (s : State) :
  data ev !! "name" = Some name →
  (∀ bucket_name, data ev !! "bucket" = Some bucket_name →
     not_pdf name || own_output cfg bucket_name name = true) →
  ignored s (extract_images_from_pdf_gcs_trigger cfg cloud ev s).
Proof.
  intros Hn Hstop.
  destruct (data ev !! "bucket") as [b|] eqn:Hb;
    [|apply missing_key_ignored; by left].
  destruct (data ev !! "metageneration") as [m|] eqn:Hm;
    [|apply missing_key_ignored; by right; right; left].
  destruct (data ev !! "timeCreated") as [t|] eqn:Ht;
    [|apply missing_key_ignored; by right; right; right; left].
  destruct (data ev !! "updated") as [u|] eqn:Hu;
    [|apply missing_key_ignored; by right; right; right; right].
  unfold extract_images_from_pdf_gcs_trigger, try_except.
  rewrite (handle_event_gate ev b name m t u s Hb Hn Hm Ht Hu).
  specialize (Hstop b eq_refl).
  destruct (not_pdf name); simpl in *.
  - repeat split. eexists.
    split; [simpl; rewrite <- !app_assoc; reflexivity | by repeat constructor].
  - rewrite Hstop. repeat split. eexists.
    split; [simpl; rewrite <- !app_assoc; reflexivity | by repeat constructor].
Qed.

End Decide.

End Gate.

(** ** Properties of the state that no step of the extraction disturbs *)

Module Frame.

Local Open Scope py_scope.

Section Stable.

Variables (I : State → Prop) (HI : stable I).
Variables (pdf_gcs_name image_dir : string).

Lemma preserves_print (m : message) : preserves I (print m).
Proof. apply preserves_modify. intros s. apply (stable_emit I HI). Qed.

Lemma preserves_library_call {A} (ev : event) (outcome : result A) :
  preserves I (call ev outcome).
Proof. apply preserves_call. intros s. apply (stable_emit I HI). Qed.

Lemma preserves_pure_call {A} (outcome : result A) : preserves I (pure_call outcome).
Proof. by intros s Hs. Qed.

Lemma preserves_upload (b : Blob) (outcome : result unit) :
  preserves I (upload b outcome).
Proof.
  intros s Hs. unfold upload. destruct outcome; simpl.
  - by apply (stable_store I HI), (stable_emit I HI).
  - by apply (stable_emit I HI).
Qed.

Lemma try_extract_stable (page_num : nat) (img_info : ImageRef) :
  preserves I (try_extract pdf_gcs_name image_dir page_num img_info).
Proof.
  unfold try_extract. apply preserves_try_except.
  - unfold extract_and_save.
    apply preserves_bind; [apply preserves_library_call|].
    intros [base|]; [|apply preserves_ret].
    destruct (bi_image base) as [[|b bytes]|]; try apply preserves_ret.
    apply preserves_bind; [apply preserves_pure_call|]. intros opened.
    apply preserves_bind; [apply preserves_pure_call|]. intros u.
    apply preserves_bind; [apply preserves_gets|]. intros count.
    apply preserves_bind; [apply preserves_upload|]. intros u'.
    apply preserves_modify. intros s. apply (stable_image_count I HI).
  - apply preserves_except. intros e. apply preserves_print.
Qed.

Lemma process_image_stable (page_num : nat) (hl fl : float) (img_info : ImageRef) :
  preserves I (process_image pdf_gcs_name image_dir page_num hl fl img_info).
Proof.
  unfold process_image.
  apply preserves_bind; [apply preserves_gets|]. intros processed.
  destruct (_ || _); [apply preserves_ret|].
  apply preserves_bind.
  { apply preserves_try_except; [apply preserves_library_call|].
    apply preserves_except. intros e.
    apply preserves_bind; [apply preserves_print|].
    intros u. apply preserves_ret. }
  intros image_rects. destruct (skipped hl fl image_rects).
  - apply preserves_bind.
    + apply preserves_modify. intros s. apply (stable_skipped I HI).
    + intros u. apply preserves_modify. intros s. apply (stable_processed I HI).
  - apply preserves_bind.
    + apply preserves_modify. intros s. apply (stable_processed I HI).
    + intros u. apply try_extract_stable.
Qed.

Lemma process_page_stable (hr fr : float) (doc : Document) (page_num : nat) :
  preserves I (process_page pdf_gcs_name image_dir hr fr doc page_num).
Proof.
  unfold process_page.
  apply preserves_bind; [apply preserves_library_call|]. intros page.
  destruct (_ <=? _)%float; [apply preserves_print|].
  apply preserves_bind.
  { apply preserves_try_except.
    - apply preserves_bind; [apply preserves_library_call|].
      intros l. apply preserves_ret.
    - apply preserves_except. intros e.
      apply preserves_bind; [apply preserves_print|].
      intros u. apply preserves_ret. }
  intros [image_list|]; [|apply preserves_ret].
  apply preserves_bind.
  { apply preserves_modify. intros s. apply (stable_processed I HI). }
  intros u. apply preserves_for_each. intros img_info _.
  apply process_image_stable.
Qed.

(** Lines 48-147, after the document was opened and the counters set. *)
Lemma pages_stable (hr fr : float) (doc : Document) :
  preserves I
    (print (Processing (page_count doc) pdf_gcs_name) ;;
     for_each (seq 0 (page_count doc))
              (process_page pdf_gcs_name image_dir hr fr doc) ;;
     count <- gets image_count ;;
     print (Extracted count pdf_gcs_name image_dir) ;;
     n <- gets skipped_header_footer ;;
     when (bool_decide (0 < n)) (print (SkippedPlacements n))).
Proof.
  apply preserves_bind; [apply preserves_print|]. intros u0.
  apply preserves_bind.
  { apply preserves_for_each. intros page_num _. apply process_page_stable. }
  intros u. apply preserves_bind; [apply preserves_gets|]. intros count.
  apply preserves_bind; [apply preserves_print|]. intros u'.
  apply preserves_bind; [apply preserves_gets|]. intros n.
  apply preserves_when, preserves_print.
Qed.

Hypothesis stable_document : ∀ d s, I s → I (set_pdf_document d s).

(** The whole of [extract_images_from_pdf]. *)
Lemma extract_images_stable (opened : result Document) (hr fr : float) :
  preserves I (extract_images_from_pdf opened pdf_gcs_name image_dir hr fr).
Proof.
  unfold extract_images_from_pdf.
  apply preserves_bind; [apply preserves_when, preserves_print|]. intros u.
  apply preserves_bind.
  { apply preserves_modify. intros s. apply stable_document. }
  intros u'.
  apply preserves_try_finally;
    [|apply Output.release_keeps; intros; by apply (stable_emit I HI)].
  apply preserves_try_except;
    [|apply Output.handlers_keep; intros; by apply (stable_emit I HI)].
  unfold process_document.
  apply preserves_bind; [apply preserves_library_call|]. intros doc.
  apply preserves_bind.
  { apply preserves_modify. intros s. apply stable_document. }
  intros u1.
  apply preserves_bind.
  { apply preserves_modify. intros s. apply (stable_image_count I HI). }
  intros u2. apply preserves_bind.
  { apply preserves_modify. intros s. apply (stable_skipped I HI). }
  intros u3. apply pages_stable.
Qed.

End Stable.

(** The events so far stay in the trace. *)
Lemma trace_keeps (ev : event) : stable (λ s, In ev (trace s)).
Proof.
  split; simpl; try done. intros ev' s H. apply in_or_app. by left.
Qed.

End Frame.

Module GateTheorems.

Import Gate Frame.
Local Open Scope py_scope.

Section Accepted.

Variables (cfg : Config) (cloud : Cloud).
Variables (I : State → Prop) (HI : stable I).
Hypothesis stable_document : ∀ d s, I s → I (set_pdf_document d s).
Hypothesis stable_stream : ∀ b s, I s → I (set_pdf_stream b s).

Lemma download_and_process_stable (input_bucket_name input_file_name : string) :
  preserves I (download_and_process cfg cloud input_bucket_name input_file_name).
Proof.
  unfold download_and_process.
  apply preserves_bind.
  { apply preserves_modify. intros s. apply stable_stream. }
  intros u. apply preserves_try_finally.
  - apply preserves_try_except.
    + apply preserves_bind; [by apply preserves_print|]. intros u1.
      apply preserves_bind; [by apply preserves_library_call|]. intros pdf_bytes.
      apply preserves_bind.
      { apply preserves_modify. intros s. apply stable_stream. }
      intros u2. apply preserves_bind; [by apply extract_images_stable|].
      intros u3. by apply preserves_print.
    + apply preserves_orelse; apply preserves_except; intros e;
        by apply preserves_print.
  - apply preserves_bind; [apply preserves_gets|].
    intros [bytes|]; [|apply preserves_ret].
    apply preserves_modify. intros s. apply (stable_emit I HI).
Qed.

Lemma outer_handlers_stable (e : exn) (h : M unit) :
  outer_handlers e = Some h → preserves I h.
Proof.
  revert e h. unfold outer_handlers.
  repeat apply preserves_orelse; apply preserves_except; intros e;
    by apply preserves_print.
Qed.

End Accepted.

(** C7.  (1) An event whose object name does not end in ".pdf" once put in
    lower case is ignored: the trigger returns without raising, having only
    printed.  (2) So is an event whose bucket is the configured output bucket
    and whose object name starts with the configured output directory
    followed by a slash.  (3) An event that carries its five keys, whose name
    ends in ".pdf" whatever the case of its letters (as "report.PDF" does)
    and whose bucket is not the output bucket, passes the gate: the trigger
    goes on to the storage client. *)
Theorem gate_ignores_and_accepts (cfg : Config) (cloud : Cloud)
    (ev : CloudEvent) (s : State) :
  (∀ name : string,
     data ev !! "name" = Some name →
     Str.endswith (Str.lower name) ".pdf" = false →
     ignored s (extract_images_from_pdf_gcs_trigger cfg cloud ev s))
  ∧ (∀ bucket_name name : string,
       data ev !! "bucket" = Some bucket_name →
       data ev !! "name" = Some name →
       bucket_name = OUTPUT_BUCKET_NAME cfg →
       Str.startswith name (Str.strip "/" (OUTPUT_IMAGE_DIR cfg) ++ "/") = true →
       ignored s (extract_images_from_pdf_gcs_trigger cfg cloud ev s))
  ∧ (∀ bucket_name name metageneration timeCreated updated : string,
       data ev !! "bucket" = Some bucket_name →
       data ev !! "name" = Some name →
       data ev !! "metageneration" = Some metageneration →
       data ev !! "timeCreated" = Some timeCreated →
       data ev !! "updated" = Some updated →
       Str.endswith (Str.lower name) ".pdf" = true →
       bucket_name ≠ OUTPUT_BUCKET_NAME cfg →
       extract_images_from_pdf_gcs_trigger cfg cloud ev s
       = try_except (process_object cfg cloud bucket_name name) outer_handlers
           (announced ev bucket_name name metageneration timeCreated updated s)
       ∧ In StorageClient
            (trace (extract_images_from_pdf_gcs_trigger cfg cloud ev s).2))
  ∧ Str.endswith (Str.lower "report.PDF") ".pdf" = true.
Proof.
  split; [|split; [|split]].
  - intros name Hn Hpdf. apply (stopped_ignored cfg cloud ev name s Hn).
    intros b _. unfold not_pdf. by rewrite Hpdf, orb_true_r.
  - intros b name Hb Hn -> Hpre. apply (stopped_ignored cfg cloud ev name s Hn).
    intros b' Hb'. rewrite Hb in Hb'. injection Hb' as <-.
    unfold own_output. by rewrite String.eqb_refl, Hpre, orb_true_r.
  - intros b name m t u Hb Hn Hm Ht Hu Hpdf Hbucket.
    assert (Hrun : extract_images_from_pdf_gcs_trigger cfg cloud ev s
                   = try_except (process_object cfg cloud b name) outer_handlers
                       (announced ev b name m t u s)).
    { unfold extract_images_from_pdf_gcs_trigger, try_except.
      rewrite (handle_event_gate cfg cloud ev b name m t u s Hb Hn Hm Ht Hu).
      assert (not_pdf name = false) as ->.
      { unfold not_pdf. rewrite Hpdf. simpl. rewrite orb_false_r.
        destruct name; [discriminate Hpdf | reflexivity]. }
      assert (own_output cfg b name = false) as ->; [|reflexivity].
      unfold own_output. apply String.eqb_neq in Hbucket. by rewrite Hbucket. }
    split; [exact Hrun|]. rewrite Hrun.
    set (I := λ s' : State, In StorageClient (trace s')).
    apply (triple_final (λ _, True) _ I); [|done].
    eapply triple_try_except with (E' := I); [| |done].
    + unfold process_object. eapply triple_bind with (R := λ _, I).
      * apply triple_call; intros; unfold I; simpl; apply in_or_app; right;
          by left.
      * intros u1. apply preserves_triple. apply preserves_bind.
        { apply preserves_library_call, trace_keeps. }
        intros u2. apply download_and_process_stable; try done.
        apply trace_keeps.
    + intros e h He. apply preserves_triple.
      apply (outer_handlers_stable I (trace_keeps StorageClient) e h He).
  - vm_compute. reflexivity.
Qed.

Lemma gate_ignores_and_accepts_witness :
  ignored initial
    (extract_images_from_pdf_gcs_trigger deployed sample_cloud sample_text_event
       initial).
Proof.
  refine (proj1
    (gate_ignores_and_accepts deployed sample_cloud sample_text_event initial)
    "notes.txt" _ _).
  - vm_compute. reflexivity.
  - vm_compute. reflexivity.
Defined.

End GateTheorems.

(** ** Each reference once per page *)

Module Dedup.

Import Frame.
Local Open Scope py_scope.
Local Open Scope list_scope.
Local Open Scope nat_scope.

Lemma count_emit (ev e : event) (s : State) :
  count ev (emit e s) = count ev s + (if decide (e = ev) then 1 else 0).
Proof.
  unfold count. simpl. rewrite count_occ_app. simpl.
  destruct (event_eq_dec e ev), (decide (e = ev)); congruence.
Qed.

Lemma count_emit_other (ev e : event) (s : State) :
  e ≠ ev → count ev (emit e s) = count ev s.
Proof.
  intros H. rewrite count_emit. destruct (decide (e = ev)); [done|lia].
Qed.

Lemma fresh_mono (page_num : nat) (P Q : gset Z) (ev : event) :
  P ⊆ Q → fresh page_num Q ev ≤ fresh page_num P ev.
Proof.
  intros HPQ. unfold fresh. destruct ev; try lia.
  all: repeat case_bool_decide; try lia.
  all: match goal with
       | H : ¬ _, H' : _ ∧ _ ∧ _ |- _ =>
         destruct H' as (? & ? & HQ); destruct H; repeat split; auto;
         intros HP; by apply HQ, HPQ
       end.
Qed.

Lemma fresh_le_1 (page_num : nat) (P : gset Z) (ev : event) : fresh page_num P ev ≤ 1.
Proof. unfold fresh. destruct ev; try lia; case_bool_decide; lia. Qed.

(** Processing the reference [xref] uses up what was allowed for it. *)
Lemma fresh_after (page_num : nat) (ev : event) (xref : Z) (P : gset Z) :
  xref ≠ 0%Z → xref ∉ P →
  (if decide (GetImageRects page_num xref = ev) then 1 else 0)
  + (if decide (ExtractImage page_num xref = ev) then 1 else 0)
  + fresh page_num ({[ xref ]} ∪ P) ev
  ≤ fresh page_num P ev.
Proof.
  intros H0 HP.
  pose proof (fresh_mono page_num P ({[ xref ]} ∪ P) ev) as Hm.
  assert (Hsub : P ⊆ {[ xref ]} ∪ P) by (intros y Hy; apply elem_of_union; by right).
  specialize (Hm Hsub).
  assert (HA : ¬ (page_num = page_num ∧ xref ≠ 0%Z ∧ xref ∉ {[ xref ]} ∪ P)).
  { intros (_ & _ & Hn). apply Hn, elem_of_union. left. by apply elem_of_singleton. }
  assert (HB : page_num = page_num ∧ xref ≠ 0%Z ∧ xref ∉ P) by done.
  destruct (decide (GetImageRects page_num xref = ev)) as [H1|H1];
    destruct (decide (ExtractImage page_num xref = ev)) as [H2|H2];
    try congruence; try subst ev; simpl in *; [| |lia].
  - rewrite (bool_decide_eq_false_2 _ HA), (bool_decide_eq_true_2 _ HB). lia.
  - rewrite (bool_decide_eq_false_2 _ HA), (bool_decide_eq_true_2 _ HB). lia.
Qed.

Section Page.

Variables (pdf_gcs_name image_dir : string) (page_num : nat) (ev : event).
Hypothesis Hev : tracked ev.

(** The [try] of line 100 calls [extract_image] once and leaves
    [processed_xrefs] alone. *)
Lemma try_extract_count (img_info : ImageRef) (s : State) :
  count ev (try_extract pdf_gcs_name image_dir page_num img_info s).2
  = count ev s
    + (if decide (ExtractImage page_num (img_xref img_info) = ev) then 1 else 0)
  ∧ processed_xrefs (try_extract pdf_gcs_name image_dir page_num img_info s).2
    = processed_xrefs s.
Proof.
  destruct ev; try done.
  all: run_try_extract img_info; unfold count; simpl;
    rewrite ?count_occ_app; simpl;
    repeat match goal with
           | |- context [event_eq_dec ?a ?b] => destruct (event_eq_dec a b)
           | |- context [decide (?a = ?b)] => destruct (decide (a = b))
           end; try congruence; split; (lia || reflexivity).
Qed.

(** One round of the loop over the image list does not raise the
    potential; when it raises an exception, the calls made stay within the
    potential it started with. *)
Lemma process_image_potential (hl fl : float) (img_info : ImageRef) (c : nat) :
  triple (λ s, potential page_num ev s ≤ c)
         (process_image pdf_gcs_name image_dir page_num hl fl img_info)
         (λ _ s, potential page_num ev s ≤ c)
         (λ s, count ev s ≤ c).
Proof.
  intros s Hs. unfold potential in *.
  destruct (decide (img_xref img_info = 0%Z ∨ img_xref img_info ∈ processed_xrefs s))
    as [Hpass|Hgo].
  { by rewrite (process_image_passed _ _ _ _ _ _ s Hpass). }
  assert (H0 : img_xref img_info ≠ 0%Z) by tauto.
  assert (Hp : img_xref img_info ∉ processed_xrefs s) by tauto.
  pose proof (fresh_after page_num ev (img_xref img_info) (processed_xrefs s)
                H0 Hp) as Hf.
  assert (Hkeep : ∀ s0,
            processed_xrefs s0 = {[ img_xref img_info ]} ∪ processed_xrefs s →
            count ev s0
            = count ev s
              + (if decide (GetImageRects page_num (img_xref img_info) = ev)
                 then 1 else 0) →
            match try_extract pdf_gcs_name image_dir page_num img_info s0 with
            | (Return _, s') =>
              count ev s' + fresh page_num (processed_xrefs s') ev ≤ c
            | (Raise _, s') => count ev s' ≤ c
            end).
  { intros s0 HP0 Hc0.
    destruct (try_extract_count img_info s0) as [Hc Hx].
    destruct (try_extract pdf_gcs_name image_dir page_num img_info s0)
      as [[u|e] s']; simpl in Hc, Hx; rewrite Hc, ?Hx, ?HP0, Hc0; lia. }
  destruct (get_image_rects img_info) as [rects|e] eqn:Hr.
  - rewrite (process_image_rects _ _ _ _ _ _ rects s H0 Hp Hr).
    destruct (skipped hl fl rects).
    + unfold skip_state. simpl.
      change (count ev (emit (GetImageRects page_num (img_xref img_info)) s)
              + fresh page_num ({[ img_xref img_info ]} ∪ processed_xrefs s) ev
              ≤ c).
      rewrite count_emit. lia.
    + apply Hkeep; [reflexivity|]. unfold keep_state.
      change (count ev (emit (GetImageRects page_num (img_xref img_info)) s)
              = count ev s
                + (if decide (GetImageRects page_num (img_xref img_info) = ev)
                   then 1 else 0)).
      by rewrite count_emit.
  - destruct (is_Exception e) eqn:He.
    + rewrite (process_image_rects_error _ _ _ _ _ _ e s H0 Hp Hr He).
      apply Hkeep; [reflexivity|].
      change (count ev
                (emit (Print (WarnRects (img_xref img_info) (page_num + 1) e))
                   (emit (GetImageRects page_num (img_xref img_info)) s))
              = count ev s
                + (if decide (GetImageRects page_num (img_xref img_info) = ev)
                   then 1 else 0)).
      rewrite count_emit_other, count_emit; [done|]. by destruct ev.
    + rewrite (process_image_rects_interrupt _ _ _ _ _ _ e s H0 Hp Hr He).
      rewrite count_emit. lia.
Qed.

(** The loop over the image list of a page. *)
Lemma image_loop_count (hl fl : float) (image_list : list ImageRef) (s : State) :
  count ev (for_each image_list
              (process_image pdf_gcs_name image_dir page_num hl fl) s).2
  ≤ count ev s + fresh page_num (processed_xrefs s) ev.
Proof.
  apply (triple_final (λ s', potential page_num ev s' ≤ potential page_num ev s) _
                      (λ s', count ev s' ≤ potential page_num ev s)); [|done].
  eapply triple_consequence.
  - apply (triple_for_each (λ s', potential page_num ev s' ≤ potential page_num ev s)
                           (λ s', count ev s' ≤ potential page_num ev s)).
    intros img_info _. apply process_image_potential.
  - done.
  - intros u s' Hs'. unfold potential in *. lia.
  - done.
Qed.

(** A page adds at most the one call allowed for a reference of that
    page. *)
Lemma process_page_count (hr fr : float) (doc : Document) (s : State) :
  count ev (process_page pdf_gcs_name image_dir hr fr doc page_num s).2
  ≤ count ev s + fresh page_num ∅ ev.
Proof.
  assert (Hother : ∀ e s', ¬ tracked e → count ev (emit e s') = count ev s').
  { intros e s' He. apply count_emit_other. intros ->. by apply He. }
  unfold process_page, bind, call, try_except, except, print, modify.
  destruct (getitem doc page_num) as [page|e]; simpl;
    [|rewrite Hother by (by intros []); lia].
  destruct (height page <=? 0)%float; simpl;
    [rewrite !Hother by (by intros []); lia|].
  destruct (get_images page) as [image_list|e]; simpl.
  - etrans; [apply image_loop_count|]. simpl.
    change (count ev (set_processed_xrefs ∅
                        (emit (GetImages page_num) (emit (LoadPage page_num) s))))
      with (count ev (emit (GetImages page_num) (emit (LoadPage page_num) s))).
    rewrite !Hother by (by intros []). lia.
  - destruct (is_Exception e); simpl; rewrite !Hother by (by intros []); lia.
Qed.

End Page.

Lemma within_step (i : nat) (ev : event) :
  within i ev + fresh i ∅ ev ≤ within (S i) ev.
Proof.
  unfold within, fresh. destruct ev; try lia.
  all: repeat case_bool_decide; try lia.
  all: repeat match goal with H : _ ∧ _ |- _ => destruct H end;
    match goal with H : ¬ _ |- _ => destruct H; split; [lia|done] end.
Qed.

Lemma within_mono (i k : nat) (ev : event) : i ≤ k → within i ev ≤ within k ev.
Proof.
  intros Hik. unfold within. destruct ev; try lia.
  all: repeat case_bool_decide; try lia.
  all: repeat match goal with H : _ ∧ _ |- _ => destruct H end;
    match goal with H : ¬ _ |- _ => destruct H; split; [lia|done] end.
Qed.

Lemma within_le_1 (k : nat) (ev : event) : within k ev ≤ 1.
Proof. unfold within. destruct ev; try lia; case_bool_decide; lia. Qed.

Lemma within_zero (k page_num : nat) :
  within k (GetImageRects page_num 0) = 0 ∧ within k (ExtractImage page_num 0) = 0.
Proof. unfold within. split; by rewrite bool_decide_eq_false_2 by (by intros [_ ?]). Qed.

Section Document.

Variables (pdf_gcs_name image_dir : string) (ev : event).
Hypothesis Hev : tracked ev.

(** The loop over the pages. *)
Lemma pages_count (hr fr : float) (doc : Document) (s : State) :
  count ev (for_each (seq 0 (page_count doc))
              (process_page pdf_gcs_name image_dir hr fr doc) s).2
  ≤ count ev s + within (page_count doc) ev.
Proof.
  set (k := page_count doc). set (c := count ev s).
  apply (triple_final (λ s', count ev s' ≤ c + within 0 ev) _
                      (λ s', count ev s' ≤ c + within k ev)).
  - eapply triple_consequence.
    + apply (triple_for_each_from (λ i s', count ev s' ≤ c + within i ev)
               (λ s', count ev s' ≤ c + within k ev) _ (seq 0 k) 0).
      intros i page_num Hi s' Hs'. simpl in Hs'.
      apply lookup_seq in Hi as [-> Hlt]. simpl.
      pose proof (process_page_count pdf_gcs_name image_dir i ev Hev hr fr doc s')
        as Hpage.
      pose proof (within_step i ev). pose proof (within_mono (S i) k ev Hlt).
      destruct (process_page pdf_gcs_name image_dir hr fr doc i s')
        as [[u|e] s'']; simpl in *; lia.
    + done.
    + intros u s' Hs'. simpl in Hs'. by rewrite length_seq in Hs'.
    + done.
  - unfold c. assert (within 0 ev = 0) as ->; [|lia].
    unfold within. destruct ev; try done; by rewrite bool_decide_eq_false_2 by lia.
Qed.

(** The whole of [extract_images_from_pdf]. *)
Lemma extract_images_count (opened : result Document) (hr fr : float) (s : State) :
  count ev (extract_images_from_pdf opened pdf_gcs_name image_dir hr fr s).2
  ≤ count ev s + within (pages_of opened) ev.
Proof.
  assert (Hother : ∀ e s', ¬ tracked e → count ev (emit e s') = count ev s').
  { intros e s' He. apply count_emit_other. intros ->. by apply He. }
  set (c := count ev s).
  set (B := λ s', count ev s' ≤ c + within (pages_of opened) ev).
  assert (HBprint : ∀ m s', B s' → B (emit (Print m) s')).
  { intros m s' Hs'. unfold B. by rewrite Hother by (by intros []). }
  apply (triple_final (λ s', count ev s' ≤ c) _ B); [|done].
  unfold extract_images_from_pdf.
  eapply triple_bind with (R := λ _ s', count ev s' ≤ c).
  { destruct (_ <=? _)%float; simpl; [|by apply triple_ret].
    apply triple_modify. intros s' Hs'. by rewrite Hother by (by intros []). }
  intros u. eapply triple_bind with (R := λ _ s', count ev s' ≤ c).
  { by apply triple_modify. }
  intros u'. apply triple_try_finally.
  2: { apply Output.release_keeps; [exact HBprint|].
       intros s' Hs'. unfold B. by rewrite Hother by (by intros []). }
  eapply triple_try_except with (E' := B); [| |done].
  2: { intros e h He. apply preserves_triple. revert e h He.
       by apply Output.handlers_keep. }
  destruct opened as [doc|e]; unfold process_document.
  - eapply triple_bind with (R := λ d s', d = doc ∧ count ev s' ≤ c).
    { apply triple_call; [|done]. intros s' a Hs' [= <-].
      by rewrite Hother by (by intros []). }
    intros d. eapply triple_bind with (R := λ _ s', d = doc ∧ count ev s' ≤ c).
    { by apply triple_modify. }
    intros u1. eapply triple_bind with (R := λ _ s', d = doc ∧ count ev s' ≤ c).
    { by apply triple_modify. }
    intros u2. eapply triple_bind with (R := λ _ s', d = doc ∧ count ev s' ≤ c).
    { by apply triple_modify. }
    intros u3. eapply triple_bind with (R := λ _ s', d = doc ∧ count ev s' ≤ c).
    { apply triple_modify. intros s' [-> Hs']. split; [done|].
      by rewrite Hother by (by intros []). }
    intros u4. eapply triple_bind with (R := λ _, B).
    { intros s' [-> Hs'].
      pose proof (pages_count (validate_ratio hr) (validate_ratio fr) doc s')
        as Hp.
      destruct (for_each _ _ s') as [[u5|e5] s'']; unfold B; simpl in *; lia. }
    intros u5. apply preserves_triple.
    apply preserves_bind; [apply preserves_gets|]. intros n.
    apply preserves_bind.
    { apply preserves_modify. intros s'. apply HBprint. }
    intros u6. apply preserves_bind; [apply preserves_gets|]. intros n'.
    apply preserves_when, preserves_modify. intros s'. apply HBprint.
  - eapply triple_bind with (R := λ _ _, False).
    + apply triple_call; [done|]. intros s' e' Hs' _. unfold B.
      rewrite Hother by (by intros []). lia.
    + by intros d s' Hs'.
Qed.

(** Calls are never taken back. *)
Lemma extract_images_count_grows (opened : result Document) (hr fr : float)
    (s : State) :
  count ev s
  ≤ count ev (extract_images_from_pdf opened pdf_gcs_name image_dir hr fr s).2.
Proof.
  apply (extract_images_stable (λ s', count ev s ≤ count ev s')); [|done|done].
  split; try done. intros e s' Hs'. rewrite count_emit. lia.
Qed.

End Document.

End Dedup.

Module DedupTheorems.

Import Dedup.
Local Open Scope list_scope.
Local Open Scope nat_scope.

(** A round that returns leaves a non-zero identifier among the processed
    ones. *)
Lemma process_image_marks (pdf_gcs_name image_dir : string) (page_num : nat)
    (hl fl : float) (img_info : ImageRef) (s s' : State) :
  process_image pdf_gcs_name image_dir page_num hl fl img_info s = (Return (), s') →
  img_xref img_info ≠ 0%Z →
  img_xref img_info ∈ processed_xrefs s'.
Proof.
  intros Hrun H0.
  destruct (decide (img_xref img_info ∈ processed_xrefs s)) as [Hin|Hp].
  { rewrite process_image_passed in Hrun by (by right). by injection Hrun as <-. }
  assert (Hkeep : ∀ s0,
            processed_xrefs s0 = {[ img_xref img_info ]} ∪ processed_xrefs s →
            try_extract pdf_gcs_name image_dir page_num img_info s0 = (Return (), s') →
            img_xref img_info ∈ processed_xrefs s').
  { intros s0 HP0 Htry.
    destruct (try_extract_count pdf_gcs_name image_dir page_num
                (ExtractImage 0 0) I img_info s0) as [_ Hx].
    rewrite Htry in Hx. simpl in Hx. rewrite Hx, HP0.
    apply elem_of_union. left. by apply elem_of_singleton. }
  destruct (get_image_rects img_info) as [rects|e] eqn:Hr.
  - rewrite (process_image_rects _ _ _ _ _ _ rects s H0 Hp Hr) in Hrun.
    destruct (skipped hl fl rects).
    + injection Hrun as <-. simpl.
      apply elem_of_union. left. by apply elem_of_singleton.
    + by eapply Hkeep; [|exact Hrun].
  - destruct (is_Exception e) eqn:He.
    + rewrite (process_image_rects_error _ _ _ _ _ _ e s H0 Hp Hr He) in Hrun.
      by eapply Hkeep; [|exact Hrun].
    + by rewrite (process_image_rects_interrupt _ _ _ _ _ _ e s H0 Hp Hr He)
        in Hrun.
Qed.

(** C2.  In one run, for every page and every identifier, the rectangles of
    the reference are asked for at most once and the image is extracted at
    most once, however often the identifier stands in the image list of the
    page; for the identifier 0 neither call is ever made.  (A reference is
    counted as a header/footer placement, or extracted, only after its
    rectangles were asked for.)  The loop passes over an entry whose
    identifier is 0 or already among the processed ones of the page, and an
    entry with a non-zero identifier is among them once its round is over. *)
Theorem each_reference_once_per_page (opened : result Document)
    (pdf_gcs_name image_dir : string) (header_ratio footer_ratio : float)
    (s : State) (page_num : nat) (xref : Z) :
  let final := (extract_images_from_pdf opened pdf_gcs_name image_dir
                  header_ratio footer_ratio s).2 in
  count (GetImageRects page_num xref) final
    ≤ count (GetImageRects page_num xref) s + 1
  ∧ count (ExtractImage page_num xref) final
      ≤ count (ExtractImage page_num xref) s + 1
  ∧ count (GetImageRects page_num 0) final = count (GetImageRects page_num 0) s
  ∧ count (ExtractImage page_num 0) final = count (ExtractImage page_num 0) s
  ∧ (∀ (hl fl : float) (img_info : ImageRef) (s0 : State),
       img_xref img_info = 0%Z ∨ img_xref img_info ∈ processed_xrefs s0 →
       process_image pdf_gcs_name image_dir page_num hl fl img_info s0
       = (Return (), s0))
  ∧ (∀ (hl fl : float) (img_info : ImageRef) (s0 s1 : State),
       process_image pdf_gcs_name image_dir page_num hl fl img_info s0
       = (Return (), s1) →
       img_xref img_info ≠ 0%Z →
       img_xref img_info ∈ processed_xrefs s1).
Proof.
  intros final.
  assert (Hle : ∀ ev, tracked ev →
            count ev final ≤ count ev s + within (pages_of opened) ev).
  { intros ev Hev. by apply extract_images_count. }
  assert (Hge : ∀ ev, count ev s ≤ count ev final).
  { intros ev. apply extract_images_count_grows. }
  destruct (within_zero (pages_of opened) page_num) as [Hz1 Hz2].
  repeat split.
  - pose proof (Hle (GetImageRects page_num xref) I).
    pose proof (within_le_1 (pages_of opened) (GetImageRects page_num xref)).
    lia.
  - pose proof (Hle (ExtractImage page_num xref) I).
    pose proof (within_le_1 (pages_of opened) (ExtractImage page_num xref)).
    lia.
  - pose proof (Hle (GetImageRects page_num 0) I).
    pose proof (Hge (GetImageRects page_num 0)). lia.
  - pose proof (Hle (ExtractImage page_num 0) I).
    pose proof (Hge (ExtractImage page_num 0)). lia.
  - intros hl fl img_info s0. apply process_image_passed.
  - intros hl fl img_info s0 s1. apply process_image_marks.
Qed.

End DedupTheorems.

(** ** Releasing the document *)

Module Release.

Import Frame.
Local Open Scope py_scope.
Local Open Scope list_scope.

(** The variable [pdf_document] holds the opened document until the
    [finally] block. *)
Lemma document_kept (doc : Document) :
  stable (λ s, pdf_document s = Some doc).
Proof. by split. Qed.

(** Lines 154-161 for a document that Python takes for true: [close] is
    called, and an error it raises is printed. *)
Lemma release_closes (pdf_gcs_name : string) (doc : Document) (s : State) :
  pdf_document s = Some doc → truthy doc = true →
  trace (release pdf_gcs_name s).2
  = trace s ++ Close :: closing_report pdf_gcs_name doc.
Proof.
  intros Hd Ht.
  unfold release, bind, gets, try_except, call, except, print, modify,
    closing_report.
  rewrite Hd, Ht. destruct (close doc) as [u|e]; simpl; [done|].
  destruct (is_Exception e); simpl; [|done].
  by rewrite <- app_assoc.
Qed.

(** When the document opened, the run ends with the [finally] block, in a
    state where [pdf_document] holds the document. *)
Lemma extract_images_ends_with_release (doc : Document)
    (pdf_gcs_name image_dir : string) (hr fr : float) (s : State) :
  ∃ s1 : State,
    pdf_document s1 = Some doc
    ∧ (extract_images_from_pdf (Return doc) pdf_gcs_name image_dir hr fr s).2
      = (release pdf_gcs_name s1).2.
Proof.
  set (J := λ s' : State, pdf_document s' = Some doc).
  unfold extract_images_from_pdf, bind.
  destruct (when _ _ s) as [[u|e] s0] eqn:Hw.
  2: { unfold when in Hw. by destruct (_ <=? _)%float. }
  simpl.
  set (body := try_except _ _).
  assert (HJ : J (body (set_pdf_document None s0)).2).
  { apply (triple_final (λ _, True) _ J); [|done].
    eapply triple_try_except with (E' := J); [| |done].
    - unfold process_document.
      eapply triple_bind with (R := λ d _, d = doc).
      { apply triple_call; [|done]. by intros s' a _ [= <-]. }
      intros d. eapply triple_bind with (R := λ _, J).
      { apply triple_modify. by intros s' ->. }
      intros u1. apply preserves_triple.
      apply preserves_bind; [by apply preserves_modify|]. intros u2.
      apply preserves_bind; [by apply preserves_modify|]. intros u3.
      apply pages_stable, document_kept.
    - intros e h He. apply preserves_triple. revert e h He.
      by apply Output.handlers_keep. }
  unfold try_finally.
  destruct (body (set_pdf_document None s0)) as [r s1]. simpl in HJ.
  exists s1. split; [exact HJ|].
  by destruct (release pdf_gcs_name s1) as [[u'|e'] s2].
Qed.

(** X1.  For a document with at least one page, every way out of
    [extract_images_from_pdf] goes through the call of [close]: it is the
    last call of the run.  When that call raises an [Exception], the line of
    line 161 with this exception is printed after it, and it is the last
    event; otherwise the call itself is the last event. *)
Lemma document_with_pages_closed (doc : Document)
    (pdf_gcs_name image_dir : string) (hr fr : float) (s : State) :
  truthy doc = true →
  ∃ before,
    trace (extract_images_from_pdf (Return doc) pdf_gcs_name image_dir hr fr s).2
    = before ++ Close :: closing_report pdf_gcs_name doc.
Proof.
  intros Ht.
  destruct (extract_images_ends_with_release doc pdf_gcs_name image_dir hr fr s)
    as (s1 & Hd & ->).
  exists (trace s1). exact (release_closes pdf_gcs_name doc s1 Hd Ht).
Qed.

(** C9 fails for a document without pages.  Python takes such a document
    for false, so the [finally] block of lines 154-161 does not call
    [close]: the run opens the document, prints its two lines and returns,
    and no [Close] is among its events. *)
Lemma empty_document_not_closed :
  extract_images_from_pdf (Return sample_empty_doc) "empty.pdf" "out"
    0.1%float 0.1%float initial
  = (Return (),
     mkState None (Some sample_empty_doc) 0 0 ∅ []
       [FitzOpen; Print (Processing 0 "empty.pdf");
        Print (Extracted 0 "empty.pdf" "out")])
  ∧ ¬ In Close
        (trace (extract_images_from_pdf (Return sample_empty_doc) "empty.pdf"
                  "out" 0.1%float 0.1%float initial).2).
Proof.
  split; [vm_compute; reflexivity|].
  vm_compute. intros H. repeat destruct H as [H|H]; try discriminate H. exact H.
Qed.

End Release.

Module ReleaseWitnesses.

Import Release.

Lemma sample_document_closed :
  ∃ before,
    trace (extract_images_from_pdf
             (Return (mkDocument [Return sample_page] (Raise RuntimeError)))
             "in/report.pdf" "out" 0.1%float 0.1%float initial).2
    = (before
       ++ Close
          :: closing_report "in/report.pdf"
               (mkDocument [Return sample_page] (Raise RuntimeError)))%list.
Proof.
  apply (document_with_pages_closed
           (mkDocument [Return sample_page] (Raise RuntimeError))
           "in/report.pdf" "out" 0.1%float 0.1%float initial).
  reflexivity.
Defined.

(** The scenario of the specification: two pages of height 1000, ratios
    0.1; on each page the image from 0 to 50 is skipped and the image from
    400 to 600 is written. *)
Lemma scenario_two_pages :
  let run := extract_images_from_pdf (Return sample_doc) "in/report.pdf" "out"
               0.1%float 0.1%float initial in
  run.1 = Return ()
  ∧ map blob_path (bucket run.2)
    = ["out/report_page_1_img_1.jpg"; "out/report_page_2_img_2.jpg"]
  ∧ image_count run.2 = 2
  ∧ skipped_header_footer run.2 = 2.
Proof. vm_compute. repeat split. Qed.

End ReleaseWitnesses.

(** ** How the two functions end *)

Module Exits.

Local Open Scope py_scope.
Local Open Scope list_scope.

(** A [try] whose clauses catch every [Exception] and only print lets no
    [Exception] out, whatever its body does. *)
Lemma try_except_quiet (body : M unit) (handlers : exn → option (M unit))
    (s : State) :
  catches_all handlers → quiet_exit (try_except body handlers s).1.
Proof.
  intros H. unfold try_except. destruct (body s) as [[u|e] s']; [done|].
  specialize (H e). destruct (handlers e) as [h|]; [|exact H].
  by destruct H as [m ->].
Qed.

Lemma try_finally_quiet (body final : M unit) (s : State) :
  quiet_exit (body s).1 → (∀ s', quiet_exit (final s').1) →
  quiet_exit (try_finally body final s).1.
Proof.
  intros Hb Hf. unfold try_finally. destruct (body s) as [r s']. simpl in Hb.
  specialize (Hf s'). by destruct (final s') as [[u|e] s''].
Qed.

Lemma open_handlers_catch_all (pdf_gcs_name : string) :
  catches_all
    (orelse
       (except is_RuntimeError (λ fe, print (RuntimeErrorPdf pdf_gcs_name fe)))
       (except is_Exception (λ e, print (GeneralErrorPdf pdf_gcs_name e)))).
Proof. intros []; simpl; eauto. Qed.

Lemma download_handlers_catch_all (input_bucket_name input_file_name : string) :
  catches_all
    (orelse
       (except is_NotFound
          (λ _, print (DownloadNotFound input_bucket_name input_file_name)))
       (except is_Exception (λ e, print (CriticalFailure input_file_name e)))).
Proof. intros []; simpl; eauto. Qed.

Lemma outer_handlers_catch_all : catches_all outer_handlers.
Proof. intros []; simpl; eauto. Qed.

Lemma release_quiet (pdf_gcs_name : string) (s : State) :
  quiet_exit (release pdf_gcs_name s).1.
Proof.
  unfold release, bind, gets.
  destruct (pdf_document s) as [doc|]; [|done].
  destruct (truthy doc); [|done].
  apply try_except_quiet. intros []; simpl; eauto.
Qed.

Lemma extract_images_quiet (opened : result Document)
    (pdf_gcs_name image_dir : string) (hr fr : float) (s : State) :
  quiet_exit (extract_images_from_pdf opened pdf_gcs_name image_dir hr fr s).1.
Proof.
  unfold extract_images_from_pdf, bind.
  destruct (when _ _ s) as [[u|e] s0] eqn:Hw.
  2: { unfold when in Hw. by destruct (_ <=? _)%float. }
  simpl. apply try_finally_quiet; [|apply release_quiet].
  apply try_except_quiet, open_handlers_catch_all.
Qed.

(** X2.  Neither function lets an [Exception] out: whatever the libraries
    answer, [extract_images_from_pdf] and the trigger return, or raise what
    is not an [Exception] (an interpreter exit or an interrupt). *)
Theorem no_exception_escapes :
  (∀ (opened : result Document) (pdf_gcs_name image_dir : string)
     (header_ratio footer_ratio : float) (s : State),
     quiet_exit (extract_images_from_pdf opened pdf_gcs_name image_dir
                   header_ratio footer_ratio s).1)
  ∧ (∀ (cfg : Config) (cloud : Cloud) (ev : CloudEvent) (s : State),
       quiet_exit (extract_images_from_pdf_gcs_trigger cfg cloud ev s).1).
Proof.
  split.
  - apply extract_images_quiet.
  - intros cfg cloud ev s. apply try_except_quiet, outer_handlers_catch_all.
Qed.

(** X3.  When [fitz.open] raises an [Exception], the function prints the
    line of the clause that catches it (the one for [RuntimeError], or the
    general one) and returns: nothing is written, no document is held, and
    [close] is not called. *)
Theorem open_failure_reported (e : exn) (pdf_gcs_name image_dir : string)
    (header_ratio footer_ratio : float) (s : State) :
  is_Exception e = true →
  let run := extract_images_from_pdf (Raise e) pdf_gcs_name image_dir
               header_ratio footer_ratio s in
  run.1 = Return ()
  ∧ bucket run.2 = bucket s
  ∧ pdf_document run.2 = None
  ∧ ∃ warning,
      Forall is_print warning
      ∧ trace run.2
        = trace s ++ warning
          ++ [FitzOpen; Print (open_error_message pdf_gcs_name e)].
Proof.
  intros He.
  unfold extract_images_from_pdf, when, bind, modify, print, try_finally,
    try_except, process_document, call, orelse, except, release, gets,
    open_error_message.
  destruct (_ <=? _)%float; destruct e; try discriminate He; simpl;
    repeat split;
    first [ exists [Print (WarnRatioSum pdf_gcs_name)];
            split; [by repeat constructor | by rewrite <- !app_assoc]
          | exists []; split; [constructor | by rewrite <- !app_assoc] ].
Qed.

Lemma open_failure_reported_witness :
  let run := extract_images_from_pdf (Raise RuntimeError) "in/report.pdf" "out"
               0.1%float 0.1%float initial in
  run.1 = Return ()
  ∧ bucket run.2 = bucket initial
  ∧ pdf_document run.2 = None
  ∧ ∃ warning,
      Forall is_print warning
      ∧ trace run.2
        = trace initial ++ warning
          ++ [FitzOpen; Print (open_error_message "in/report.pdf" RuntimeError)].
Proof.
  apply (open_failure_reported RuntimeError "in/report.pdf" "out"
           0.1%float 0.1%float initial).
  reflexivity.
Defined.

End Exits.

(** ** Failures the trigger meets before the extraction *)

Module TriggerErrors.

Import Gate Frame Exits.
Local Open Scope py_scope.
Local Open Scope list_scope.

Section Deployment.

Variables (cfg : Config) (cloud : Cloud).

(** An accepted event reaches line 208 after the seven prints. *)
Lemma accepted_run (ev : CloudEvent) (b n m t u : string) (s : State) :
  accepted cfg ev b n m t u →
  extract_images_from_pdf_gcs_trigger cfg cloud ev s
  = try_except (process_object cfg cloud b n) outer_handlers
      (announced ev b n m t u s).
Proof.
  intros (Hb & Hn & Hm & Ht & Hu & Hpdf & Hown).
  unfold extract_images_from_pdf_gcs_trigger, try_except.
  rewrite (handle_event_gate cfg cloud ev b n m t u s Hb Hn Hm Ht Hu).
  by rewrite Hpdf, Hown.
Qed.

Lemma outer_handlers_message (e : exn) :
  is_Exception e = true → outer_handlers e = Some (print (outer_message e)).
Proof. by destruct e. Qed.

(** The downloaded bytes stay in [pdf_stream] during the extraction. *)
Lemma stream_kept (pdf_bytes : list Byte.byte) :
  stable (λ s, pdf_stream s = Some pdf_bytes).
Proof. by split. Qed.

End Deployment.

(** X4.  When the payload lacks one of the five keys, the trigger prints the
    line for the first key that is missing, in the order of lines 179-183,
    and returns; it does nothing else. *)
Theorem missing_key_reported (cfg : Config) (cloud : Cloud) (ev : CloudEvent)
    (key : string) (s : State) :
  first_missing (data ev) = Some key →
  extract_images_from_pdf_gcs_trigger cfg cloud ev s
  = (Return (), emit (Print (MissingKey (KeyError key))) s).
Proof.
  unfold first_missing, required_keys, missing. simpl.
  unfold extract_images_from_pdf_gcs_trigger, try_except, handle_event, bind, item.
  destruct (data ev !! "bucket"); [|by intros [= <-]].
  destruct (data ev !! "name"); [|by intros [= <-]].
  destruct (data ev !! "metageneration"); [|by intros [= <-]].
  destruct (data ev !! "timeCreated"); [|by intros [= <-]].
  destruct (data ev !! "updated"); [|by intros [= <-]].
  discriminate.
Qed.

Lemma missing_key_reported_witness :
  extract_images_from_pdf_gcs_trigger deployed sample_cloud
    (mkCloudEvent "event-3" "finalized"
       (<["bucket" := "incoming"]> (<["updated" := "t1"]> ∅))) initial
  = (Return (), emit (Print (MissingKey (KeyError "name"))) initial).
Proof.
  apply (missing_key_reported deployed sample_cloud
           (mkCloudEvent "event-3" "finalized"
              (<["bucket" := "incoming"]> (<["updated" := "t1"]> ∅)))
           "name" initial).
  vm_compute. reflexivity.
Defined.

(** X5.  For an event that passed the gate, an [Exception] raised by the
    storage client, by the lookup of the output bucket or by the download is
    answered with one printed line, and the trigger returns: the line of the
    outer clauses for the first two (missing key, bucket not found,
    unexpected), the line of the inner clauses for the download (file not
    found, critical failure).  The run ends there: the PDF library is not
    called, no stream is closed, nothing is written. *)
Theorem storage_failure_reported (cfg : Config) (cloud : Cloud) (ev : CloudEvent)
    (b n m t u : string) (e : exn) (s : State) :
  accepted cfg ev b n m t u → is_Exception e = true →
  let run := extract_images_from_pdf_gcs_trigger cfg cloud ev s in
  (storage_client cloud = Raise e →
   run = (Return (),
          emit (Print (outer_message e))
            (emit StorageClient (announced ev b n m t u s))))
  ∧ (storage_client cloud = Return () → get_bucket cloud = Raise e →
     run = (Return (), emit (Print (outer_message e)) (ready cfg ev b n m t u s)))
  ∧ (storage_client cloud = Return () → get_bucket cloud = Return () →
     download_as_bytes cloud = Raise e →
     run = (Return (),
            emit (Print (download_message b n e))
              (emit (DownloadAsBytes b n)
                 (emit (Print (Attempting b n))
                    (set_pdf_stream None (ready cfg ev b n m t u s)))))).
Proof.
  intros Hacc He run. subst run.
  rewrite (accepted_run cfg cloud ev b n m t u s Hacc).
  unfold try_except, process_object, bind, call.
  split; [|split].
  - intros ->. by rewrite (outer_handlers_message e He).
  - intros -> ->. by rewrite (outer_handlers_message e He).
  - intros -> -> Hd.
    unfold download_and_process, bind, modify, try_finally, try_except, print,
      modify, call, gets, orelse, except, download_message.
    rewrite Hd. simpl. by destruct e.
Qed.

Lemma storage_failure_reported_witness :
  extract_images_from_pdf_gcs_trigger deployed
    (mkCloud (Return ()) (Raise NotFound) (Return [Byte.x25]) (Return sample_doc))
    sample_event initial
  = (Return (),
     emit (Print (outer_message NotFound))
       (ready deployed sample_event "incoming" "report.PDF" "1" "t0" "t1" initial)).
Proof.
  refine (proj1 (proj2
    (storage_failure_reported deployed
       (mkCloud (Return ()) (Raise NotFound) (Return [Byte.x25]) (Return sample_doc))
       sample_event "incoming" "report.PDF" "1" "t0" "t1" NotFound initial _ _))
    eq_refl eq_refl).
  - vm_compute. repeat split.
  - reflexivity.
Defined.

(** X6.  Once the download succeeded, the stream is closed on every way out
    of the trigger, and no failure of the extraction reaches the clauses of
    the trigger.  Either the trigger returns, and its last two steps are the
    line "Successfully finished" and the closing of the stream (also when the
    document did not open or a page failed, since [extract_images_from_pdf]
    has handled that itself); or the extraction was interrupted by what is
    not an [Exception], which the trigger raises on after closing the
    stream. *)
Theorem downloaded_stream_closed (cfg : Config) (cloud : Cloud) (ev : CloudEvent)
    (b n m t u : string) (pdf_bytes : list Byte.byte) (s : State) :
  accepted cfg ev b n m t u →
  storage_client cloud = Return () → get_bucket cloud = Return () →
  download_as_bytes cloud = Return pdf_bytes →
  let run := extract_images_from_pdf_gcs_trigger cfg cloud ev s in
  ∃ before,
    (run.1 = Return ()
     ∧ trace run.2 = before ++ [Print (Finished b n); StreamClose])
    ∨ (∃ e, run.1 = Raise e ∧ is_Exception e = false
            ∧ trace run.2 = before ++ [StreamClose]).
Proof.
  intros Hacc Hc Hg Hd run. subst run.
  rewrite (accepted_run cfg cloud ev b n m t u s Hacc).
  unfold process_object, download_and_process, try_finally, bind, call, modify,
    print, gets, modify, try_except.
  rewrite Hc, Hg, Hd. cbv beta.
  match goal with
  | |- context [extract_images_from_pdf ?o ?name ?dir ?hr ?fr ?s1] =>
    pose proof (extract_images_stable _ (stream_kept pdf_bytes) name dir
                  (λ d s' H, H) o hr fr s1 eq_refl) as HJ;
    pose proof (extract_images_quiet o name dir hr fr s1) as Hq;
    destruct (extract_images_from_pdf o name dir hr fr s1) as [[u1|e] s2]
  end; simpl in HJ, Hq.
  - simpl. rewrite HJ. simpl. exists (trace s2). left.
    split; [done|by rewrite <- app_assoc].
  - destruct e; try discriminate Hq. simpl. rewrite HJ. simpl.
    exists (trace s2). right. by exists Interrupt.
Qed.

Lemma downloaded_stream_closed_witness :
  let run := extract_images_from_pdf_gcs_trigger deployed sample_cloud sample_event
               initial in
  ∃ before,
    (run.1 = Return ()
     ∧ trace run.2
       = before ++ [Print (Finished "incoming" "report.PDF"); StreamClose])
    ∨ (∃ e, run.1 = Raise e ∧ is_Exception e = false
            ∧ trace run.2 = before ++ [StreamClose]).
Proof.
  apply (downloaded_stream_closed deployed sample_cloud sample_event
           "incoming" "report.PDF" "1" "t0" "t1" [Byte.x25] initial).
  - vm_compute. repeat split.
  - reflexivity.
  - reflexivity.
  - reflexivity.
Defined.

End TriggerErrors.

(** ** Pages that are skipped, and pages that do not load *)

Module PageEdges.

Local Open Scope py_scope.
Local Open Scope list_scope.
Local Open Scope nat_scope.

Lemma for_each_app {X} (xs ys : list X) (body : X → M unit) (s : State) :
  for_each (xs ++ ys) body s
  = match for_each xs body s with
    | (Return _, s') => for_each ys body s'
    | (Raise e, s') => (Raise e, s')
    end.
Proof.
  revert s. induction xs as [|x xs IH]; intros s; simpl; [done|].
  unfold bind. destruct (body x s) as [[u|e] s']; [apply IH|done].
Qed.

Section Pages.

Variables (pdf_gcs_name image_dir : string) (header_ratio footer_ratio : float).
Variable doc : Document.

Local Abbreviation page_body :=
  (process_page pdf_gcs_name image_dir header_ratio footer_ratio doc).

(** Lines 51-55 for a page whose height is not positive. *)
Lemma process_flat_page (page_num : nat) (s : State) :
  flat_page (getitem doc page_num) →
  page_body page_num s
  = (Return (), emit (Print (SkippingPage (page_num + 1)))
                  (emit (LoadPage page_num) s)).
Proof.
  intros (page & Hp & Hh). unfold process_page, bind, call, print, modify.
  by rewrite Hp, Hh.
Qed.

Lemma flat_pages_from (len start : nat) (s : State) :
  (∀ i, start ≤ i < start + len → flat_page (getitem doc i)) →
  for_each (seq start len) page_body s
  = (Return (), emit_all (skipping (seq start len)) s).
Proof.
  revert start s. induction len as [|len IH]; intros start s H; [done|].
  simpl. unfold bind. rewrite process_flat_page by (apply H; lia).
  rewrite IH by (intros i Hi; apply H; lia). done.
Qed.

End Pages.

(** X7.  Pages whose height is zero or negative are loaded and skipped, and
    the loop goes on: for a document that has only such pages the loop over
    the pages returns, and all it does is load each page and print the line
    of line 54 for it, in page order.  No page is asked for its images. *)
Theorem flat_pages_skipped (pdf_gcs_name image_dir : string)
    (header_ratio footer_ratio : float) (doc : Document) (s : State) :
  Forall flat_page (load_page doc) →
  for_each (seq 0 (page_count doc))
    (process_page pdf_gcs_name image_dir header_ratio footer_ratio doc) s
  = (Return (), emit_all (skipping (seq 0 (page_count doc))) s).
Proof.
  intros H. apply flat_pages_from. intros i Hi.
  unfold getitem. unfold page_count in Hi.
  destruct (lookup_lt_is_Some_2 (load_page doc) i) as [r Hr]; [lia|].
  rewrite Hr. by apply (Forall_lookup_1 _ _ _ _ H Hr).
Qed.

Lemma flat_pages_skipped_witness :
  for_each (seq 0 2)
    (process_page "a.pdf" "out" 0.1%float 0.1%float
       (mkDocument [Return (mkPage 0 (Return [])); Return (mkPage (-5) (Return []))]
                   (Return ()))) initial
  = (Return (),
     emit_all [LoadPage 0; Print (SkippingPage 1); LoadPage 1; Print (SkippingPage 2)]
       initial).
Proof.
  apply (flat_pages_skipped "a.pdf" "out" 0.1%float 0.1%float
           (mkDocument [Return (mkPage 0 (Return []));
                        Return (mkPage (-5) (Return []))] (Return ())) initial).
  repeat constructor; eexists; (split; [reflexivity | vm_compute; reflexivity]).
Defined.

(** X8.  A page that fails to load ends the loop over the pages, whatever
    the exception: line 51 stands outside the [try] statements of the loop
    body.  The pages before it were processed, the call for it is the last
    event of the loop, and the pages after it are not visited. *)
Theorem page_load_failure_ends_loop (pdf_gcs_name image_dir : string)
    (header_ratio footer_ratio : float) (doc : Document) (page_num : nat)
    (e : exn) (s s1 : State) :
  page_num < page_count doc →
  getitem doc page_num = Raise e →
  for_each (seq 0 page_num)
    (process_page pdf_gcs_name image_dir header_ratio footer_ratio doc) s
  = (Return (), s1) →
  for_each (seq 0 (page_count doc))
    (process_page pdf_gcs_name image_dir header_ratio footer_ratio doc) s
  = (Raise e, emit (LoadPage page_num) s1).
Proof.
  intros Hlt He Hbefore.
  replace (page_count doc) with (page_num + S (page_count doc - S page_num)) by lia.
  rewrite seq_app, for_each_app, Hbefore. simpl.
  unfold bind, process_page at 1, bind, call. by rewrite He.
Qed.

Lemma page_load_failure_ends_loop_witness :
  for_each (seq 0 3)
    (process_page "a.pdf" "out" 0.1%float 0.1%float
       (mkDocument [Return (mkPage 0 (Return [])); Raise RuntimeError;
                    Return sample_page] (Return ()))) initial
  = (Raise RuntimeError,
     emit (LoadPage 1)
       (emit (Print (SkippingPage 1)) (emit (LoadPage 0) initial))).
Proof.
  apply (page_load_failure_ends_loop "a.pdf" "out" 0.1%float 0.1%float
           (mkDocument [Return (mkPage 0 (Return [])); Raise RuntimeError;
                        Return sample_page] (Return ()))
           1 RuntimeError initial).
  - unfold page_count. simpl. lia.
  - reflexivity.
  - vm_compute. reflexivity.
Defined.

End PageEdges.

(** ** The counters of the summary lines *)

Module Summary.

Local Open Scope py_scope.
Local Open Scope list_scope.
Local Open Scope nat_scope.

Lemma tally_app (p : event → bool) (t1 t2 : list event) :
  tally p (t1 ++ t2) = tally p t1 + tally p t2.
Proof. induction t1 as [|ev t1 IH]; simpl; [done|]. rewrite IH. lia. Qed.

Section Run.

Variables (pdf_gcs_name image_dir : string) (R0 E0 : nat).

Local Abbreviation inv := (accounted R0 E0).

(** An event that is neither of the two calls leaves the account as it is. *)
Lemma accounted_emit (ev : event) (s : State) :
  is_rects_call ev = false → is_extract_call ev = false →
  inv s → inv (emit ev s).
Proof.
  intros Hr He. unfold accounted. simpl. rewrite !tally_app. simpl.
  rewrite Hr, He. lia.
Qed.

(** The [try] of line 100 starts one call of [get_image_rects] ahead, makes
    one call of [extract_image], and writes at most one image. *)
Lemma try_extract_accounted (page_num : nat) (img_info : ImageRef) (s : State) :
  skipped_header_footer s + tally is_extract_call (trace s) + R0 + 1
    ≤ tally is_rects_call (trace s) + E0 →
  image_count s + E0 ≤ tally is_extract_call (trace s) →
  inv (try_extract pdf_gcs_name image_dir page_num img_info s).2.
Proof.
  intros H1 H2.
  run_try_extract img_info; unfold accounted; simpl; rewrite !tally_app; simpl;
    lia.
Qed.

Lemma process_image_accounted (page_num : nat) (hl fl : float)
    (img_info : ImageRef) :
  preserves inv (process_image pdf_gcs_name image_dir page_num hl fl img_info).
Proof.
  intros s Hs. unfold process_image, bind, gets.
  destruct (_ || _); [exact Hs|].
  unfold try_except, call, except. destruct Hs as [H1 H2].
  destruct (get_image_rects img_info) as [rects|e]; simpl.
  - destruct (skipped hl fl rects); simpl.
    + unfold accounted. simpl. rewrite !tally_app. simpl. lia.
    + apply try_extract_accounted; simpl; rewrite ?tally_app; simpl; lia.
  - destruct (is_Exception e); simpl.
    + apply try_extract_accounted; simpl; rewrite ?tally_app; simpl; lia.
    + unfold accounted. simpl. rewrite !tally_app. simpl. lia.
Qed.

Lemma process_page_accounted (hr fr : float) (doc : Document) (page_num : nat) :
  preserves inv (process_page pdf_gcs_name image_dir hr fr doc page_num).
Proof.
  unfold process_page.
  apply preserves_bind; [apply preserves_call; intros s; by apply accounted_emit|].
  intros page.
  destruct (_ <=? _)%float;
    [apply preserves_modify; intros s; by apply accounted_emit|].
  apply preserves_bind.
  { apply preserves_try_except.
    - apply preserves_bind;
        [apply preserves_call; intros s; by apply accounted_emit|].
      intros l. apply preserves_ret.
    - apply preserves_except. intros e.
      apply preserves_bind;
        [apply preserves_modify; intros s; by apply accounted_emit|].
      intros u. apply preserves_ret. }
  intros [image_list|]; [|apply preserves_ret].
  apply preserves_bind; [by apply preserves_modify|]. intros u.
  apply preserves_for_each. intros img_info _. apply process_image_accounted.
Qed.

(** Lines 48-147, from the state in which the counters were set. *)
Lemma pages_accounted (hr fr : float) (doc : Document) :
  preserves inv
    (print (Processing (page_count doc) pdf_gcs_name) ;;
     for_each (seq 0 (page_count doc))
              (process_page pdf_gcs_name image_dir hr fr doc) ;;
     count <- gets image_count ;;
     print (Extracted count pdf_gcs_name image_dir) ;;
     n <- gets skipped_header_footer ;;
     when (bool_decide (0 < n)) (print (SkippedPlacements n))).
Proof.
  apply preserves_bind;
    [apply preserves_modify; intros s; by apply accounted_emit|].
  intros u0. apply preserves_bind.
  { apply preserves_for_each. intros page_num _. apply process_page_accounted. }
  intros u. apply preserves_bind; [apply preserves_gets|]. intros count.
  apply preserves_bind;
    [apply preserves_modify; intros s; by apply accounted_emit|].
  intros u'. apply preserves_bind; [apply preserves_gets|]. intros n.
  apply preserves_when, preserves_modify. intros s. by apply accounted_emit.
Qed.

End Run.

(** X9.  The two counters of the summary lines are covered by the calls the
    run made.  Whatever the libraries answer, at the end of a run on an
    opened document the number of images written is at most the number of
    calls of [extract_image] the run made, and the number counted as skipped
    plus the number of those calls is at most the number of calls of
    [get_image_rects] the run made. *)
Theorem summary_counts_covered (doc : Document) (pdf_gcs_name image_dir : string)
    (header_ratio footer_ratio : float) (s : State) :
  let final := (extract_images_from_pdf (Return doc) pdf_gcs_name image_dir
                  header_ratio footer_ratio s).2 in
  image_count final + tally is_extract_call (trace s)
    ≤ tally is_extract_call (trace final)
  ∧ skipped_header_footer final + tally is_extract_call (trace final)
      + tally is_rects_call (trace s)
    ≤ tally is_rects_call (trace final) + tally is_extract_call (trace s).
Proof.
  set (R0 := tally is_rects_call (trace s)).
  set (E0 := tally is_extract_call (trace s)).
  set (P := λ s' : State, tally is_rects_call (trace s') = R0
                          ∧ tally is_extract_call (trace s') = E0).
  assert (HP : ∀ ev s', is_rects_call ev = false → is_extract_call ev = false →
                        P s' → P (emit ev s')).
  { intros ev s' Hr He [H1 H2]. unfold P. simpl. rewrite !tally_app. simpl.
    rewrite Hr, He. lia. }
  cut (accounted R0 E0
         (extract_images_from_pdf (Return doc) pdf_gcs_name image_dir
            header_ratio footer_ratio s).2).
  { intros [H1 H2]. simpl. split; [exact H2|exact H1]. }
  apply (triple_final P); [|done].
  unfold extract_images_from_pdf.
  eapply triple_bind with (R := λ _, P).
  { destruct (_ <=? _)%float; simpl; [|by apply triple_ret].
    apply triple_modify. intros s'. by apply HP. }
  intros u. eapply triple_bind with (R := λ _, P).
  { by apply triple_modify. }
  intros u'. apply triple_try_finally.
  2: { apply Output.release_keeps; intros; by apply accounted_emit. }
  eapply triple_try_except with (E' := accounted R0 E0); [| |done].
  - unfold process_document.
    eapply triple_bind with (R := λ _, P).
    { apply triple_call; [|done]. intros s' a Hs _. by apply HP. }
    intros d. eapply triple_bind with (R := λ _, P).
    { by apply triple_modify. }
    intros u1. eapply triple_bind with (R := λ _ s', P s' ∧ image_count s' = 0).
    { by apply triple_modify. }
    intros u2. eapply triple_bind with (R := λ _, accounted R0 E0).
    { apply triple_modify. intros s' [[H1 H2] H3]. unfold accounted. simpl.
      rewrite H1, H2, H3. lia. }
    intros u3. apply preserves_triple, pages_accounted.
  - intros e h He. apply preserves_triple. revert e h He.
    apply Output.handlers_keep. intros; by apply accounted_emit.
Qed.

End Summary.

(** ** What the filter looks at *)

Module FilterShape.

Import FilterFacts.
Local Open Scope list_scope.

Lemma in_zone_extent (hl fl : float) (rect : Rect) :
  in_zone hl fl rect ↔ extent_in_zone hl fl (vertical_extent rect).
Proof. done. Qed.

Lemma skipped_extents (hl fl : float) (rects : list Rect) :
  skipped hl fl rects = true
  ↔ (∃ extent, extent ∈ vertical_extent <$> rects)
    ∧ ∀ extent, extent ∈ vertical_extent <$> rects → extent_in_zone hl fl extent.
Proof.
  rewrite skipped_true, Forall_forall. split.
  - intros [Hne Hall]. split.
    + destruct rects as [|rect rest]; [done|].
      exists (vertical_extent rect). simpl. apply elem_of_cons. by left.
    + intros extent Hin. apply list_elem_of_fmap in Hin as (rect & -> & Hin).
      by apply in_zone_extent, Hall.
  - intros [[extent Hin] Hall]. split.
    + intros ->. simpl in Hin. by apply elem_of_nil in Hin.
    + intros rect Hrect. apply in_zone_extent, Hall, list_elem_of_fmap.
      by exists rect.
Qed.

(** X10.  The decision of the filter depends on nothing but the set of
    vertical extents of the rectangles: their order (the loop of lines 86-90
    breaks at the first rectangle outside the zones), repetitions and the
    horizontal position of the rectangles do not change it. *)
Theorem filter_reads_vertical_extents (header_limit footer_limit : float)
    (rects rects' : list Rect) :
  (∀ extent, extent ∈ vertical_extent <$> rects
             ↔ extent ∈ vertical_extent <$> rects') →
  skipped header_limit footer_limit rects
  = skipped header_limit footer_limit rects'.
Proof.
  intros H. apply Bool.eq_iff_eq_true. rewrite !skipped_extents.
  split; intros [[extent Hin] Hall]; (split; [exists extent|intros e He]);
    try (by apply H); apply Hall; by apply H.
Qed.

Lemma filter_reads_vertical_extents_witness :
  skipped 100 900 [mkRect 0 10 50 60; mkRect 0 400 50 600]
  = skipped 100 900 [mkRect 7 400 9 600; mkRect 20 10 30 60; mkRect 1 400 2 600].
Proof.
  apply (filter_reads_vertical_extents 100 900
           [mkRect 0 10 50 60; mkRect 0 400 50 600]
           [mkRect 7 400 9 600; mkRect 20 10 30 60; mkRect 1 400 2 600]).
  intros extent. simpl. unfold vertical_extent. simpl.
  rewrite !elem_of_cons, !elem_of_nil. tauto.
Defined.

End FilterShape.

(** ** The conversion before saving, and the ratios *)

Module Settled.

Import FloatFacts.
Local Open Scope float_scope.

(** X11.  The conversion of lines 117-125 settles: what it gives has none of
    the modes "RGBA", "P", "LA", has the size of the decoded image, and is
    left as it is by a second conversion. *)
Theorem normalize_settles (pil_image : image) :
  mode_in (mode (normalize pil_image)) ["RGBA"; "P"; "LA"] = false
  ∧ size (normalize pil_image) = size pil_image
  ∧ normalize (normalize pil_image) = normalize pil_image.
Proof.
  unfold normalize.
  destruct (mode_in (mode pil_image) ["RGBA"; "P"; "LA"]) eqn:H1;
    [destruct (mode_in (mode pil_image) ["RGBA"; "LA"]) eqn:H2|];
    [done|done|by rewrite !H1].
Qed.

(** X12.  Lines 36-37 leave a ratio that is a number in the range from 0
    (included) to 1 (excluded), whatever was passed, a NaN or an infinity
    included; validating it again changes nothing. *)
Theorem ratio_validated (ratio : float) :
  (0.0 <=? validate_ratio ratio) = true
  ∧ (validate_ratio ratio <? 1.0) = true
  ∧ is_nan (validate_ratio ratio) = false
  ∧ validate_ratio (validate_ratio ratio) = validate_ratio ratio.
Proof.
  destruct (validate_ratio_range ratio) as [H0 H1].
  repeat split; [exact H0|exact H1| |by apply validate_ratio_id].
  destruct (is_nan (validate_ratio ratio)) eqn:Hn; [|done].
  by rewrite (leb_nan_r _ _ Hn) in H0.
Qed.

End Settled.

(** ** One object for one reference *)

Module OneObject.

Local Open Scope py_scope.
Local Open Scope list_scope.
Local Open Scope nat_scope.

(** X13.  The [try] of line 100 writes at most one object for a reference,
    and the counter of images moves with the bucket: either both stay as they
    are, or one object is added, the counter goes up by one, the [try]
    returns and no call inside it failed. *)
Theorem one_object_per_reference (pdf_gcs_name image_dir : string)
    (page_num : nat) (img_info : ImageRef) (s : State) :
  let run := try_extract pdf_gcs_name image_dir page_num img_info s in
  (bucket run.2 = bucket s ∧ image_count run.2 = image_count s)
  ∨ (∃ b, bucket run.2 = bucket s ++ [b]
          ∧ image_count run.2 = image_count s + 1
          ∧ run.1 = Return ()
          ∧ first_failure img_info = None).
Proof.
  unfold first_failure.
  run_try_extract img_info; try (by left).
  right. eexists. repeat split.
Qed.

(** X14.  A reference for which [extract_image] gives nothing, or no bytes,
    is passed over in silence: the call is all that happens, no line is
    printed, nothing is written and the counter stays. *)
Theorem no_pixels_passed_silently (pdf_gcs_name image_dir : string)
    (page_num : nat) (img_info : ImageRef) (s : State) :
  without_pixels img_info →
  try_extract pdf_gcs_name image_dir page_num img_info s
  = (Return (), emit (ExtractImage page_num (img_xref img_info)) s).
Proof.
  unfold without_pixels, try_extract, try_except, extract_and_save, bind, call.
  destruct (extract_image img_info) as [[base|]|e]; [|done|done].
  by destruct (bi_image base) as [[|byte bytes]|].
Qed.

Lemma no_pixels_passed_silently_witness :
  try_extract "a.pdf" "out" 0
    (mkImageRef 4 (Return []) (Return (Some (mkBaseImage (Some []) (Some "png"))))
       (Return ("RGB", (1, 1)%N)) (Return ()) (Return ())) initial
  = (Return (), emit (ExtractImage 0 4) initial).
Proof.
  apply (no_pixels_passed_silently "a.pdf" "out" 0
           (mkImageRef 4 (Return [])
              (Return (Some (mkBaseImage (Some []) (Some "png"))))
              (Return ("RGB", (1, 1)%N)) (Return ()) (Return ())) initial).
  exact I.
Defined.

End OneObject.

(** ** The directory and the base name in the paths *)

Module Paths.

Import Decimal StripFacts Gate.
Local Open Scope nat_scope.

Lemma lstrip_cons (c : ascii) (s : string) :
  Str.lstrip c (String c s) = Str.lstrip c s.
Proof. simpl. by rewrite Ascii.eqb_refl. Qed.

Lemma rstrip_snoc (c : ascii) (t : string) :
  Str.rstrip c (t ++ String c "") = Str.rstrip c t.
Proof.
  unfold Str.rstrip. rewrite rev_append.
  change (String.rev (String c "")) with (String c "").
  rewrite append_cons. change ("" ++ String.rev t) with (String.rev t).
  by rewrite lstrip_cons.
Qed.

Lemma lstrip_snoc (c : ascii) (s : string) :
  Str.lstrip c (s ++ String c "")
  = match Str.lstrip c s with
    | EmptyString => EmptyString
    | String a r => String a r ++ String c ""
    end.
Proof.
  induction s as [|a s IH].
  - change ("" ++ String c "") with (String c ""). by rewrite lstrip_cons.
  - rewrite append_cons. simpl. destruct (Ascii.eqb a c); [exact IH|done].
Qed.

Lemma strip_snoc (c : ascii) (s : string) :
  Str.strip c (s ++ String c "") = Str.strip c s.
Proof.
  unfold Str.strip. rewrite lstrip_snoc.
  destruct (Str.lstrip c s) as [|a r]; [done|]. apply rstrip_snoc.
Qed.

Lemma lstrip_head (c : ascii) (s : string) :
  Str.startswith (Str.lstrip c s) (String c "") = false.
Proof.
  induction s as [|a s IH]; simpl; [done|].
  destruct (Ascii.eqb a c) eqn:Hac; [exact IH|].
  simpl. by rewrite Ascii.eqb_sym, Hac.
Qed.

Lemma lstrip_suffix (c : ascii) (s : string) : ∃ u, s = u ++ Str.lstrip c s.
Proof.
  induction s as [|a s [u Hu]]; simpl; [by exists ""|].
  destruct (Ascii.eqb a c); [|by exists ""].
  exists (String a u). rewrite append_cons. by rewrite <- Hu.
Qed.

Lemma rstrip_prefix (c : ascii) (t : string) : ∃ u, t = Str.rstrip c t ++ u.
Proof.
  destruct (lstrip_suffix c (String.rev t)) as [u Hu].
  exists (String.rev u). unfold Str.rstrip.
  rewrite <- rev_append, <- Hu. by rewrite rev_involutive.
Qed.

Lemma rstrip_tail (c : ascii) (t : string) :
  Str.endswith (Str.rstrip c t) (String c "") = false.
Proof.
  unfold Str.endswith, Str.rstrip. rewrite rev_involutive.
  change (String.rev (String c "")) with (String c ""). apply lstrip_head.
Qed.

Lemma rstrip_head (c : ascii) (t : string) :
  Str.startswith t (String c "") = false →
  Str.startswith (Str.rstrip c t) (String c "") = false.
Proof.
  intros H. destruct (rstrip_prefix c t) as [u Hu].
  destruct (Str.rstrip c t) as [|a r]; [done|].
  rewrite Hu, append_cons in H. simpl in *.
  destruct (Ascii.eqb c a); [|done]. by destruct (r ++ u).
Qed.

(** X15.  The slashes around [image_dir] do not reach the paths: a directory
    given with one more slash in front or behind gives the same path, and the
    stripped directory neither starts nor ends with a slash and is not
    changed by stripping it again. *)
Theorem directory_slashes_dropped (image_dir name : string) :
  final_blob_path ("/" ++ image_dir) name = final_blob_path image_dir name
  ∧ final_blob_path (image_dir ++ "/") name = final_blob_path image_dir name
  ∧ Str.startswith (Str.strip "/" image_dir) "/" = false
  ∧ Str.endswith (Str.strip "/" image_dir) "/" = false
  ∧ Str.strip "/" (Str.strip "/" image_dir) = Str.strip "/" image_dir.
Proof.
  assert (Hs : Str.startswith (Str.strip "/" image_dir) "/" = false)
    by apply rstrip_head, lstrip_head.
  assert (He : Str.endswith (Str.strip "/" image_dir) "/" = false)
    by apply rstrip_tail.
  unfold final_blob_path.
  split; [|split; [|split; [|split]]];
    [done|by rewrite strip_snoc|exact Hs|exact He|by apply strip_id].
Qed.

(** *** The base name *)

Lemma length_append (s t : string) :
  String.length (s ++ t) = String.length s + String.length t.
Proof. induction s as [|a s IH]; [done|]. rewrite append_cons. simpl. by rewrite IH. Qed.

Lemma lacks_app (c : ascii) (s t : string) :
  lacks c (s ++ t) = lacks c s && lacks c t.
Proof.
  induction s as [|a s IH]; [done|].
  rewrite append_cons. simpl. by rewrite IH, andb_assoc.
Qed.

Lemma rfind_from_lacks (c : ascii) (s : string) (i found : Z) :
  lacks c s = true → Str.rfind_from c s i found = found.
Proof.
  revert i found. induction s as [|a s IH]; intros i found; simpl; [done|].
  intros [Ha Hs]%andb_true_iff. apply negb_true_iff in Ha. rewrite Ha. by apply IH.
Qed.

Lemma rfind_from_last (c : ascii) (s t : string) (i found : Z) :
  lacks c t = true →
  Str.rfind_from c (s ++ String c t) i found = (i + Z.of_nat (String.length s))%Z.
Proof.
  intros Ht. revert i found. induction s as [|a s IH]; intros i found.
  - change ("" ++ String c t) with (String c t). simpl.
    rewrite Ascii.eqb_refl, (rfind_from_lacks c t _ _ Ht). lia.
  - rewrite append_cons. simpl. rewrite IH. lia.
Qed.

Lemma substring_all (s : string) : String.substring 0 (String.length s) s = s.
Proof. induction s as [|a s IH]; simpl; [done|]. by rewrite IH. Qed.

Lemma substring_prefix (s t : string) :
  String.substring 0 (String.length s) (s ++ t) = s.
Proof.
  induction s as [|a s IH]; [by destruct t|].
  rewrite append_cons. simpl. by rewrite IH.
Qed.

Lemma substring_drop (s t : string) (m : nat) :
  String.substring (String.length s) m (s ++ t) = String.substring 0 m t.
Proof. induction s as [|a s IH]; [done|]. rewrite append_cons. simpl. exact IH. Qed.

(** [os.path.basename] of a path whose last component is [f]. *)
Lemma basename_of_path (d f : string) :
  lacks "/" f = true → Str.basename (d ++ String "/" f) = f.
Proof.
  intros Hf. unfold Str.basename, Str.rfind, Str.slice_from.
  rewrite (rfind_from_last "/" d f 0 (-1) Hf), length_append. simpl.
  replace (Z.to_nat (0 + Z.of_nat (String.length d) + 1))
    with (String.length (d ++ "/")) by (rewrite length_append; simpl; lia).
  replace (String.length d + S (String.length f) - String.length (d ++ "/"))
    with (String.length f) by (rewrite length_append; simpl; lia).
  replace (d ++ String "/" f) with ((d ++ "/") ++ f) by apply append_assoc.
  rewrite substring_drop. apply substring_all.
Qed.

Lemma basename_plain (f : string) : lacks "/" f = true → Str.basename f = f.
Proof.
  intros Hf. unfold Str.basename, Str.rfind, Str.slice_from.
  rewrite (rfind_from_lacks "/" f 0 (-1) Hf). simpl.
  rewrite Nat.sub_0_r. apply substring_all.
Qed.

(** [os.path.splitext] of a file name with one dot, not in front. *)
Lemma splitext_root_stem (stem ext : string) :
  stem ≠ "" → lacks "/" stem = true → lacks "." stem = true →
  lacks "/" ext = true → lacks "." ext = true →
  Str.splitext_root (stem ++ String "." ext) = stem.
Proof.
  intros Hne Hs1 Hs2 He1 He2. unfold Str.splitext_root, Str.rfind.
  rewrite (rfind_from_last "." stem ext 0 (-1) He2).
  rewrite (rfind_from_lacks "/" _ 0 (-1)).
  2: { rewrite lacks_app. simpl. by rewrite Hs1, He1. }
  destruct stem as [|a stem]; [done|].
  simpl in Hs2. apply andb_true_iff in Hs2 as [Ha _].
  assert ((-1 <? 0 + Z.of_nat (String.length (String a stem)))%Z = true) as ->
    by (apply Z.ltb_lt; lia).
  assert (Str.has_name_before_dot
            (S (String.length (String a stem ++ String "." ext)))
            (String a stem ++ String "." ext) (-1 + 1)
            (0 + Z.of_nat (String.length (String a stem))) = true) as ->.
  { cbn [Str.has_name_before_dot].
    assert ((-1 + 1 <? 0 + Z.of_nat (String.length (String a stem)))%Z = true)
      as -> by (apply Z.ltb_lt; simpl; lia).
    rewrite append_cons. simpl. by rewrite Ha. }
  simpl andb. cbv iota. unfold Str.slice_to.
  replace (Z.to_nat (0 + Z.of_nat (String.length (String a stem))))
    with (String.length (String a stem)) by lia.
  apply substring_prefix.
Qed.

Lemma rfind_from_lower (c : ascii) (s : string) (i found : Z) :
  (-1 <= found)%Z → (0 <= i)%Z → (-1 <= Str.rfind_from c s i found)%Z.
Proof.
  revert i found. induction s as [|a s IH]; intros i found Hf Hi; simpl; [done|].
  apply IH; [destruct (Ascii.eqb a c); lia | lia].
Qed.

(** [os.path.splitext] of a name without a dot. *)
Lemma splitext_root_no_dot (p : string) :
  lacks "." p = true → Str.splitext_root p = p.
Proof.
  intros Hp. unfold Str.splitext_root, Str.rfind.
  rewrite (rfind_from_lacks "." p 0 (-1) Hp).
  assert ((Str.rfind_from "/" p 0 (-1) <? -1)%Z = false) as ->; [|done].
  apply Z.ltb_ge. by apply rfind_from_lower.
Qed.

(** X16.  The base name that enters the names of the images (line 46) is the
    file name of the object without its directories and without its
    extension: for a non-empty [stem] without slash and dot, an object name
    that ends in [stem], or in [stem], a dot and an extension without slash
    and dot, has the base name [stem], whatever directories stand in front. *)
Theorem base_name_is_stem (dir stem ext : string) :
  stem ≠ "" → lacks "/" stem = true → lacks "." stem = true →
  lacks "/" ext = true → lacks "." ext = true →
  pdf_filename_base (stem ++ "." ++ ext) = stem
  ∧ pdf_filename_base (dir ++ "/" ++ stem ++ "." ++ ext) = stem
  ∧ pdf_filename_base (dir ++ "/" ++ stem) = stem.
Proof.
  intros Hne Hs1 Hs2 He1 He2. unfold pdf_filename_base.
  change ("." ++ ext) with (String "." ext).
  change ("/" ++ ?x) with (String "/" x).
  assert (Hfile : lacks "/" (stem ++ String "." ext) = true).
  { rewrite lacks_app. simpl. by rewrite Hs1, He1. }
  rewrite (basename_plain _ Hfile), (basename_of_path dir _ Hfile),
    (basename_of_path dir _ Hs1).
  rewrite (splitext_root_no_dot stem Hs2).
  by rewrite (splitext_root_stem stem ext Hne Hs1 Hs2 He1 He2).
Qed.

Lemma base_name_is_stem_witness :
  pdf_filename_base ("report" ++ "." ++ "pdf") = "report"
  ∧ pdf_filename_base ("in/2024.q1" ++ "/" ++ "report" ++ "." ++ "pdf") = "report"
  ∧ pdf_filename_base ("in/2024.q1" ++ "/" ++ "report") = "report".
Proof.
  apply (base_name_is_stem "in/2024.q1" "report" "pdf"); [done|reflexivity..].
Defined.

End Paths.

(** ** The trigger and its own output *)

Module OwnOutput.

Import Decimal StripFacts Gate Output.
Local Open Scope py_scope.
Local Open Scope list_scope.

Lemma lower_app (a b : string) :
  Str.lower (a ++ b)%string = (Str.lower a ++ Str.lower b)%string.
Proof. induction a as [|c a IH]; [done|]. rewrite !append_cons. simpl. by rewrite IH. Qed.

(** A name that ends in ".jpg" does not pass line 195. *)
Lemma jpg_not_pdf (x : string) : not_pdf (x ++ ".jpg")%string = true.
Proof.
  unfold not_pdf, Str.endswith. rewrite lower_app, rev_append.
  change (String.rev (Str.lower ".jpg")) with "gpj.".
  change (String.rev ".pdf") with "fdp.".
  rewrite append_cons. simpl. apply orb_true_r.
Qed.

Lemma written_blob_own (cfg : Config) (base : string) (i : nat) (w : Written) :
  own_object cfg (written_blob (OUTPUT_IMAGE_DIR cfg) base i w).
Proof.
  unfold own_object, written_blob, jpeg_blob, final_blob_path, final_image_name.
  simpl. split.
  - apply startswith_spec. eexists. by rewrite append_assoc.
  - rewrite <- !append_assoc. apply jpg_not_pdf.
Qed.

Section Deployment.

Variables (cfg : Config) (cloud : Cloud) (b0 : list Blob).

Local Abbreviation inv := (own_writes cfg b0).

(** A step that leaves the bucket alone. *)
Lemma own_writes_frame (f : State → State) (s : State) :
  bucket (f s) = bucket s → inv s → inv (f s).
Proof. intros Hf (new & Hb & Hall). exists new. by rewrite Hf. Qed.

Lemma extract_own_writes (opened : result Document) (pdf_gcs_name : string)
    (hr fr : float) :
  preserves inv
    (extract_images_from_pdf opened pdf_gcs_name (OUTPUT_IMAGE_DIR cfg) hr fr).
Proof.
  intros s (new & Hb & Hall).
  destruct (extract_images_writes opened pdf_gcs_name (OUTPUT_IMAGE_DIR cfg)
              hr fr s) as (ws & Hws & _).
  eexists. rewrite Hws, Hb, <- app_assoc. split; [reflexivity|].
  apply Forall_app. split; [exact Hall|].
  apply Forall_forall. intros b Hin.
  apply list_elem_of_lookup in Hin as [i Hi].
  rewrite list_lookup_imap in Hi.
  destruct (ws !! i) as [w|]; [|done]. injection Hi as <-.
  apply written_blob_own.
Qed.

Lemma item_own_writes (d : gmap string string) (key : string) :
  preserves inv (item d key).
Proof. intros s Hs. unfold item. by destruct (d !! key). Qed.

Lemma trigger_own_writes (ev : CloudEvent) :
  preserves inv (extract_images_from_pdf_gcs_trigger cfg cloud ev).
Proof.
  assert (Hemit : ∀ ev' s, inv s → inv (emit ev' s))
    by (intros ev' s; by apply own_writes_frame).
  assert (Hstream : ∀ x s, inv s → inv (set_pdf_stream x s))
    by (intros x s; by apply own_writes_frame).
  assert (Hprint : ∀ m, preserves inv (print m))
    by (intros m; apply preserves_modify; intros s; apply Hemit).
  unfold extract_images_from_pdf_gcs_trigger. apply preserves_try_except.
  2: { unfold outer_handlers.
       repeat apply preserves_orelse; apply preserves_except; intros e;
         apply Hprint. }
  unfold handle_event.
  do 5 (apply preserves_bind; [apply item_own_writes|]; intros ?).
  do 7 (apply preserves_bind; [apply Hprint|]; intros ?).
  destruct (not_pdf _); [apply Hprint|].
  destruct (own_output _ _ _); [apply Hprint|].
  unfold process_object.
  do 2 (apply preserves_bind; [by apply preserves_call|]; intros ?).
  unfold download_and_process.
  apply preserves_bind; [by apply preserves_modify|]. intros ?.
  apply preserves_try_finally.
  - apply preserves_try_except.
    + apply preserves_bind; [apply Hprint|]. intros ?.
      apply preserves_bind; [by apply preserves_call|]. intros pdf_bytes.
      apply preserves_bind; [by apply preserves_modify|]. intros ?.
      apply preserves_bind; [apply extract_own_writes|]. intros ?.
      apply Hprint.
    + apply preserves_orelse; apply preserves_except; intros e; apply Hprint.
  - apply preserves_bind; [apply preserves_gets|].
    intros [bytes|]; [|apply preserves_ret].
    by apply preserves_modify.
Qed.

End Deployment.

(** X17.  The trigger does not feed itself.  Whatever the event and the
    answers of the libraries, every object the run uploads lies under the
    configured output directory, and an event for an object of that name, in
    whatever bucket and for whatever deployment, is ignored by the trigger,
    since the name ends in ".jpg". *)
Theorem own_output_never_processed (cfg : Config) (cloud : Cloud)
    (ev : CloudEvent) (s : State) :
  ∃ new : list Blob,
    bucket (extract_images_from_pdf_gcs_trigger cfg cloud ev s).2 = bucket s ++ new
    ∧ ∀ b, b ∈ new →
        Str.startswith (blob_path b)
          (Str.strip "/" (OUTPUT_IMAGE_DIR cfg) ++ "/")%string = true
        ∧ ∀ (cfg' : Config) (cloud' : Cloud) (ev' : CloudEvent) (s' : State),
            data ev' !! "name" = Some (blob_path b) →
            ignored s' (extract_images_from_pdf_gcs_trigger cfg' cloud' ev' s').
Proof.
  destruct (trigger_own_writes cfg cloud (bucket s) ev s) as (new & Hb & Hall).
  { exists []. by rewrite app_nil_r. }
  exists new. split; [exact Hb|]. intros b Hin.
  destruct (proj1 (Forall_forall _ _) Hall b Hin) as [Hdir Hjpg].
  split; [exact Hdir|]. intros cfg' cloud' ev' s' Hname.
  apply (stopped_ignored cfg' cloud' ev' (blob_path b) s' Hname).
  intros bucket_name _. by rewrite Hjpg.
Qed.

(** X18.  The extension is compared without regard to letter case: a name
    that ends in ".pdf", ".PDF" or any other spelling of it passes the check
    of line 195, the name that is nothing but the extension included. *)
Theorem pdf_suffix_any_case (stem suffix : string) :
  Str.lower suffix = ".pdf" → not_pdf (stem ++ suffix)%string = false.
Proof.
  intros H. unfold not_pdf. rewrite lower_app, H.
  assert (Str.endswith (Str.lower stem ++ ".pdf")%string ".pdf" = true) as ->
    by (apply endswith_spec; by eexists).
  rewrite orb_false_r. apply String.eqb_neq. intros Heq.
  apply (f_equal Str.lower) in Heq. rewrite lower_app, H in Heq.
  apply (f_equal String.length) in Heq.
  rewrite Paths.length_append in Heq. simpl in Heq. lia.
Qed.

Lemma pdf_suffix_any_case_witness : not_pdf ("in/Report" ++ ".PdF")%string = false.
Proof. apply (pdf_suffix_any_case "in/Report" ".PdF"). reflexivity. Defined.

End OwnOutput.

(** ** The summary line *)

Module SummaryLine.

Import Frame Output.
Local Open Scope py_scope.
Local Open Scope list_scope.

Lemma extends_stable (t0 : list event) : stable (extends t0).
Proof.
  split; try done. intros ev s [events H]. exists (events ++ [ev]). simpl.
  by rewrite H, app_assoc.
Qed.

Lemma printed_since_emit (t0 : list event) (m : message) (ev : event) (s : State) :
  printed_since t0 m s → printed_since t0 m (emit ev s).
Proof.
  intros (events & H & Hin). exists (events ++ [ev]). simpl.
  rewrite H, app_assoc. split; [done|]. apply in_or_app. by left.
Qed.

Lemma printed_since_now (t0 : list event) (m : message) (s : State) :
  extends t0 s → printed_since t0 m (emit (Print m) s).
Proof.
  intros [events H]. exists (events ++ [Print m]). simpl.
  rewrite H, app_assoc. split; [done|]. apply in_or_app. right. by left.
Qed.

Lemma reported_emit (t0 : list event) (pdf_gcs_name image_dir : string)
    (ev : event) (s : State) :
  reported t0 pdf_gcs_name image_dir s →
  reported t0 pdf_gcs_name image_dir (emit ev s).
Proof.
  intros [[e H]|H]; [left; exists e|right]; by apply printed_since_emit.
Qed.

(** A run on an opened document that returns has reported. *)
Lemma extract_images_reported (doc : Document) (pdf_gcs_name image_dir : string)
    (hr fr : float) (s : State) :
  (extract_images_from_pdf (Return doc) pdf_gcs_name image_dir hr fr s).1
  = Return () →
  reported (trace s) pdf_gcs_name image_dir
    (extract_images_from_pdf (Return doc) pdf_gcs_name image_dir hr fr s).2.
Proof.
  set (G := extends (trace s)).
  set (Q := reported (trace s) pdf_gcs_name image_dir).
  pose proof (extends_stable (trace s)) as HG.
  unfold extract_images_from_pdf, bind.
  destruct (when _ _ s) as [[u|e] s0] eqn:Hw.
  2: { unfold when in Hw. by destruct (_ <=? _)%float. }
  assert (G s0) as Hs0.
  { unfold when, print, modify, ret in Hw.
    destruct (_ <=? _)%float; injection Hw as _ <-.
    - exists [Print (WarnRatioSum pdf_gcs_name)]. done.
    - exists []. by rewrite app_nil_r. }
  simpl. set (body := try_except _ _).
  assert (HB : triple G body (λ _, Q) (λ _, True)).
  { eapply triple_try_except with (E' := G); [| |done].
    - unfold process_document.
      eapply triple_bind with (R := λ _, G).
      { apply triple_call; [|done]. intros s' a Hs' _.
        by apply (stable_emit _ HG). }
      intros d. eapply triple_bind with (R := λ _, G); [by apply triple_modify|].
      intros u1. eapply triple_bind with (R := λ _, G); [by apply triple_modify|].
      intros u2. eapply triple_bind with (R := λ _, G); [by apply triple_modify|].
      intros u3. eapply triple_bind with (R := λ _, G).
      { apply triple_print. intros s'. apply (stable_emit _ HG). }
      intros u4. eapply triple_bind with (R := λ _, G).
      { apply preserves_triple, preserves_for_each. intros page_num _.
        by apply process_page_stable. }
      intros u5.
      eapply triple_bind with (R := λ count s', G s' ∧ count = image_count s').
      { by apply triple_gets. }
      intros count. eapply triple_bind with (R := λ _, Q).
      { apply triple_print. intros s' [Hs' ->]. right.
        by apply (printed_since_now (trace s)). }
      intros u6. eapply triple_bind with (R := λ _, Q); [by apply triple_gets|].
      intros skipped_count. destruct (bool_decide _); simpl;
        [|by apply triple_ret].
      apply triple_print. intros s'. apply reported_emit.
    - intros e h He. unfold orelse, except in He.
      destruct e; simpl in He; try discriminate He; injection He as <-;
        apply triple_print; intros s' Hs'; left;
        [exists RuntimeError|exists NotFound|exists (KeyError key)
        |exists OtherException]; by apply (printed_since_now (trace s)). }
  specialize (HB (set_pdf_document None s0) Hs0).
  unfold try_finally. destruct (body (set_pdf_document None s0)) as [r s1].
  pose proof (release_keeps pdf_gcs_name Q
                (λ m s', reported_emit _ _ _ _ s')
                (λ s', reported_emit _ _ _ _ s') s1) as Hrel.
  destruct (release pdf_gcs_name s1) as [[u'|e'] s2]; simpl; [|done].
  intros ->. by apply Hrel.
Qed.

(** X19.  The summary line tells the truth.  When a run on an opened document
    returns, it has printed an error line for the document, or the line
    "Extracted N images" in which N is the number of objects the run
    uploaded. *)
Theorem summary_line_reports_count (doc : Document)
    (pdf_gcs_name image_dir : string) (header_ratio footer_ratio : float)
    (s : State) :
  let run := extract_images_from_pdf (Return doc) pdf_gcs_name image_dir
               header_ratio footer_ratio s in
  run.1 = Return () →
  ∃ new : list Blob,
    bucket run.2 = bucket s ++ new
    ∧ ((∃ e, printed_since (trace s) (open_error_message pdf_gcs_name e) run.2)
       ∨ printed_since (trace s)
           (Extracted (length new) pdf_gcs_name image_dir) run.2).
Proof.
  intros run Hret. subst run.
  destruct (extract_images_writes (Return doc) pdf_gcs_name image_dir
              header_ratio footer_ratio s) as (ws & Hb & _ & Hc).
  specialize (Hc eq_refl).
  eexists. split; [exact Hb|].
  rewrite length_imap, <- Hc.
  by apply extract_images_reported.
Qed.

Lemma summary_line_reports_count_witness :
  ∃ new : list Blob,
    bucket sample_run.2 = bucket initial ++ new
    ∧ ((∃ e, printed_since (trace initial)
               (open_error_message "in/report.pdf" e) sample_run.2)
       ∨ printed_since (trace initial)
           (Extracted (length new) "in/report.pdf" "/out/") sample_run.2).
Proof.
  apply (summary_line_reports_count sample_doc "in/report.pdf" "/out/"
           0.1%float 0.1%float initial).
  vm_compute. reflexivity.
Defined.

End SummaryLine.
